(** * Doctor-patient consultation RAG chatbot: chunking, index store, query routing

A shallow embedding of [chunker.py], [embed_and_store.py] and the query
half of [chatbot_app.py], with the properties of the retrieval pipeline
stated and proved over it.

Conventions of the embedding.
- A Python [str] is a [string]; a character is a code point below 256.
  [isspace] and [lower] follow CPython on that range.
- [max_tokens] is a Python [int], hence a [Z]; [len(...)] is a [nat].
- The tokenizer, the embedding model, the similarity search, the language
  model and the speech service are collaborators of the program: they are
  fields of a record [Externals] (the tokenizer alone is a section
  variable of the chunker). *)

From Stdlib Require Import ZArith Lia Ascii String.
From stdpp Require Import base option list strings gmap fin_maps pretty.

Local Open Scope Z_scope.

(* ===================================================================== *)
(** * Part I.  Definitions                                                *)
(* ===================================================================== *)

(** ** Python string primitives used by the sources *)

Module PyStr.

(** The line feed, and the blank-line separator ["\n\n"]. *)
Definition LF : ascii := ascii_of_nat 10.
Definition nl : string := String LF "".
Definition nlnl : string := String LF (String LF "").

(** [c.isspace()] for a code point below 256. *)
Definition isspace (c : ascii) : bool :=
  let n := nat_of_ascii c in
  ((9 <=? n)%nat && (n <=? 13)%nat)
  || ((28 <=? n)%nat && (n <=? 32)%nat)
  || (n =? 133)%nat || (n =? 160)%nat.

(** [c.lower()] for a code point below 256. *)
Definition lower_char (c : ascii) : ascii :=
  let n := nat_of_ascii c in
  if ((65 <=? n)%nat && (n <=? 90)%nat)
     || ((192 <=? n)%nat && (n <=? 222)%nat && negb (n =? 215)%nat)
  then ascii_of_nat (n + 32) else c.

(** [s.lower()] *)
Fixpoint lower (s : string) : string :=
  match s with
  | "" => ""
  | String c s' => String (lower_char c) (lower s')
  end.

(** [bool(s)]: a string is true when it is not empty. *)
Definition truthy (s : string) : bool :=
  match s with "" => false | _ => true end.

(** [s.startswith(p)] *)
Definition startswith (s p : string) : bool := String.prefix p s.

(** [sub in s] *)
Fixpoint contains (sub s : string) : bool :=
  startswith s sub
  || match s with
     | "" => false
     | String _ s' => contains sub s'
     end.

(** [s.lstrip()], [s.rstrip()], [s.strip()] *)
Fixpoint lstrip (s : string) : string :=
  match s with
  | "" => ""
  | String c s' => if isspace c then lstrip s' else s
  end.

Fixpoint rstrip (s : string) : string :=
  match s with
  | "" => ""
  | String c s' =>
      match rstrip s' with
      | "" => if isspace c then "" else String c ""
      | r => String c r
      end
  end.

Definition strip (s : string) : string := rstrip (lstrip s).

(** Puts a character in front of the first piece of a list of pieces. *)
Definition cons_head (c : ascii) (ps : list string) : list string :=
  match ps with
  | [] => [String c ""]
  | p :: ps' => String c p :: ps'
  end.

(** [s.split(sep)] for a non-empty [sep]: the pieces between the leftmost,
    non-overlapping occurrences of [sep].  [skip] counts the characters of
    a matched separator that are still to be passed over. *)
Fixpoint split_go (sep : string) (skip : nat) (s : string) : list string :=
  match s with
  | "" => [""]
  | String c s' =>
      match skip with
      | S k => split_go sep k s'
      | O =>
          if startswith s sep
          then "" :: split_go sep (String.length sep - 1) s'
          else cons_head c (split_go sep 0 s')
      end
  end.

Definition split (s sep : string) : list string := split_go sep 0 s.

(** [s.replace(old, new)] for a non-empty [old]. *)
Fixpoint replace_go (old new : string) (skip : nat) (s : string) : string :=
  match s with
  | "" => ""
  | String c s' =>
      match skip with
      | S k => replace_go old new k s'
      | O =>
          if startswith s old
          then new +:+ replace_go old new (String.length old - 1) s'
          else String c (replace_go old new 0 s')
      end
  end.

Definition replace (s old new : string) : string := replace_go old new 0 s.

(** [sep.join(l)] *)
Definition join (sep : string) (l : list string) : string :=
  String.concat sep l.

End PyStr.

Import PyStr.

(** ** Occurrences of a separator, for stating where [split] cuts *)

Module Occurrence.

(** [no_early_match sep a rest]: in [a ++ sep ++ rest] the separator does
    not occur at a position inside [a]. *)
Fixpoint no_early_match (sep a rest : string) : bool :=
  match a with
  | "" => true
  | String c a' =>
      negb (startswith (a +:+ sep +:+ rest) sep) && no_early_match sep a' rest
  end.

(** [occurs c s]: the character [c] is one of [s]. *)
Fixpoint occurs (c : ascii) (s : string) : bool :=
  match s with
  | "" => false
  | String d s' => if ascii_dec c d then true else occurs c s'
  end.

End Occurrence.

Import Occurrence.

(** ** chunker.py *)

Module Chunker.
Section Chunker.

(** [encoding.encode] of the tokenizer [tiktoken] selects for the model. *)
Variable encode : string -> list N.

(** [len(encoding.encode(s))] *)
Definition num_tokens (s : string) : Z := Z.of_nat (length (encode s)).

(** The state of the loop: the chunks appended so far and [current_chunk]. *)
Definition loop_state : Type := list string * string.

(** [chunks.append(current_chunk.strip())] under [if current_chunk:] *)
Definition flush (chunks : list string) (current_chunk : string) : list string :=
  if truthy current_chunk then chunks ++ [strip current_chunk] else chunks.

(** One iteration of [for para in paragraphs]. *)
Definition step (max_tokens : Z) (st : loop_state) (para : string) : loop_state :=
  let '(chunks, current_chunk) := st in
  let candidate := current_chunk +:+ nlnl +:+ para in
  if num_tokens candidate >? max_tokens
  then (flush chunks current_chunk, para)
  else (chunks, candidate).

Definition split_text_into_chunks (text : string) (max_tokens : Z) : list string :=
  let paragraphs := split text nlnl in
  let '(chunks, current_chunk) := fold_left (step max_tokens) paragraphs ([], "") in
  flush chunks current_chunk.

End Chunker.
End Chunker.

Import Chunker.

(** ** What the specification says of the chunks *)

Module ChunkSpec.
Section ChunkSpec.
Variable encode : string -> list N.



(** The budget rule as the loop enforces it: the chunk is the trimmed form
    of an accumulator that is within the budget before trimming, or that
    is one paragraph which alone is over the budget. *)
Definition trimmed_from_budgeted (text : string) (max_tokens : Z) (c : string) : Prop :=
  exists acc,
    c = strip acc
    /\ (num_tokens encode acc <= max_tokens
        \/ (acc ∈ split text nlnl /\ max_tokens < num_tokens encode acc)).

End ChunkSpec.

(** The paragraphs of a list that are not empty. *)
Definition nonempty (l : list string) : list string :=
  filter (fun p => p <> "") l.

(** The paragraphs of a text, trimmed, the blank ones left out. *)
Definition trimmed_paragraphs (text : string) : list string :=
  nonempty (map strip (split text nlnl)).

End ChunkSpec.

Import ChunkSpec.

(** ** Invariants of the loop of the chunker *)

Module ChunkInvariants.

(** [blank s]: every character of [s] is white space. *)
Fixpoint blank (s : string) : bool :=
  match s with
  | "" => true
  | String c s' => isspace c && blank s'
  end.

(** [ends_with_lf s]: the last character of [s] is a line feed. *)
Fixpoint ends_with_lf (s : string) : bool :=
  match s with
  | "" => false
  | String c "" => bool_decide (c = LF)
  | String _ s' => ends_with_lf s'
  end.

(** A list of pieces as [split] on the blank line produces them: no piece
    holds a blank line, and no piece but the last ends with a line feed. *)
Fixpoint well_cut (g : list string) : Prop :=
  match g with
  | [] => True
  | p :: rest =>
      contains nlnl p = false
      /\ (rest <> [] -> ends_with_lf p = false)
      /\ well_cut rest
  end.

(** A run of paragraphs without its leading blank ones and without the
    leading white space of the first paragraph that is left. *)
Fixpoint ltrim_run (g : list string) : list string :=
  match g with
  | [] => []
  | p :: rest => if blank p then ltrim_run rest else lstrip p :: rest
  end.

(** The string without its first [n] characters. *)
Fixpoint sdrop (n : nat) (s : string) : string :=
  match n, s with
  | O, _ => s
  | S n', String _ s' => sdrop n' s'
  | S _, "" => ""
  end.

Section ChunkInvariants.
Variable encode : string -> list N.
Variable text : string.
Variable max_tokens : Z.

(** What holds of [current_chunk] between two iterations, for the budget. *)
Definition budgeted (cur : string) : Prop :=
  cur = ""
  \/ num_tokens encode cur <= max_tokens
  \/ (cur ∈ split text nlnl /\ max_tokens < num_tokens encode cur).

(** What holds of the loop state when the paragraphs [done] have been read
    and the paragraphs [todo] are still to come: the chunks flushed so far
    and the accumulator are the trimmed joins of runs of [done], in order
    and without loss of a paragraph that has text. *)
Definition represents (st : loop_state) (done todo : list string) : Prop :=
  exists (groups : list (list string)) (g : list string),
    fst st = map (fun g => strip (join nlnl g)) groups
    /\ snd st = join nlnl g
    /\ nonempty (concat groups ++ g) = nonempty done
    /\ Forall well_cut groups
    /\ well_cut (g ++ todo).

End ChunkInvariants.
End ChunkInvariants.

Import ChunkInvariants.

(** One token per character. *)
Definition char_encode (s : string) : list N :=
  map N_of_ascii (list_ascii_of_string s).


(** ** Collaborators, the file tree and the effects of the program *)

Module Env.

(** [langchain.schema]: role-tagged messages. *)
Inductive message :=
| SystemMessage (content : string)
| HumanMessage (content : string).

(** The collaborators behind stable interfaces.  [vec] is the type of an
    embedding vector.  A result [None] stands for a raised exception. *)
Record Externals (vec : Type) := {
  (** [tiktoken.encoding_for_model("gpt-3.5-turbo").encode] *)
  tokenizer : string -> list N;
  (** [HuggingFaceEmbeddings.embed_documents] *)
  embed_documents : list string -> option (list vec);
  (** similarity search of a loaded index: texts, vectors, query, [k] *)
  similarity_search : list string -> list vec -> string -> nat -> list string;
  (** the chat model, [llm(messages).content] *)
  llm : list message -> option string;
  (** the prompt that the "stuff" question-answering chain builds *)
  qa_prompt : list string -> string -> list message;
  (** [transcribe.transcribe_audio] on the bytes of the upload *)
  transcribe_audio : string -> string
}.
Arguments tokenizer {vec}.
Arguments embed_documents {vec}.
Arguments similarity_search {vec}.
Arguments llm {vec}.
Arguments qa_prompt {vec}.
Arguments transcribe_audio {vec}.

(** An in-memory [FAISS] vector store: the texts of the docstore and their
    vectors. *)
Record vectorstore (vec : Type) := {
  vs_texts : list string;
  vs_vectors : list vec
}.
Arguments Build_vectorstore {vec}.
Arguments vs_texts {vec}.
Arguments vs_vectors {vec}.

(** What a file holds. [PdfFile] records the arguments handed to the
    renderer; the layout done by [FPDF] is not part of the model. *)
Inductive file_data (vec : Type) :=
| FaissFile (vectors : list vec)
| PickleFile (texts : list string)
| TextFile (content : string)
| PdfFile (title diagnosis medications : string).
Arguments FaissFile {vec}.
Arguments PickleFile {vec}.
Arguments TextFile {vec}.
Arguments PdfFile {vec}.

Inductive entry (vec : Type) :=
| Dir
| File (d : file_data vec).
Arguments Dir {vec}.
Arguments File {vec}.

(** The state the program runs in: the file tree (keyed by the list of
    path components), the memo table of [st.cache_resource] for
    [load_vectorstore], the calls made to the language model, and the two
    session fields the upload handler writes. *)
Record world (vec : Type) := {
  fs : gmap (list string) (entry vec);
  cache : gmap string (option (vectorstore vec));
  llm_log : list (list message);
  current_index : string;
  index_loaded : bool
}.
Arguments Build_world {vec}.
Arguments fs {vec}.
Arguments cache {vec}.
Arguments llm_log {vec}.
Arguments current_index {vec}.
Arguments index_loaded {vec}.

Inductive exn :=
| NotADirectoryError | FileExistsError | IsADirectoryError
| FileNotFoundError | OSError | IndexError
| EmbeddingError | UpstreamError | UnpicklingError.

Inductive outcome (A : Type) :=
| Ok (a : A)
| Raise (e : exn).
Arguments Ok {A}.
Arguments Raise {A}.

(** Computations that read and write the world and may raise. The world
    reached when an exception is raised is kept: the writes done before it
    stay done. *)
Definition M (vec A : Type) : Type := world vec -> outcome A * world vec.

Section Monad.
Context {vec : Type}.

Definition ret {A} (a : A) : M vec A := fun w => (Ok a, w).

Definition bind {A B} (m : M vec A) (k : A -> M vec B) : M vec B :=
  fun w => match m w with
           | (Ok a, w') => k a w'
           | (Raise e, w') => (Raise e, w')
           end.

Definition raise {A} (e : exn) : M vec A := fun w => (Raise e, w).

(** [try: m  except Exception: h] *)
Definition try_except {A} (m : M vec A) (h : exn -> M vec A) : M vec A :=
  fun w => match m w with
           | (Ok a, w') => (Ok a, w')
           | (Raise e, w') => h e w'
           end.

Definition get_fs : M vec (gmap (list string) (entry vec)) :=
  fun w => (Ok (fs w), w).

Definition set_fs (t : gmap (list string) (entry vec)) (w : world vec) : world vec :=
  Build_world t (cache w) (llm_log w) (current_index w) (index_loaded w).

Definition set_cache (c : gmap string (option (vectorstore vec))) (w : world vec)
  : world vec :=
  Build_world (fs w) c (llm_log w) (current_index w) (index_loaded w).

Definition put_fs (t : gmap (list string) (entry vec)) : M vec unit :=
  fun w => (Ok tt, set_fs t w).

Definition get_cache : M vec (gmap string (option (vectorstore vec))) :=
  fun w => (Ok (cache w), w).

Definition put_cache (c : gmap string (option (vectorstore vec))) : M vec unit :=
  fun w => (Ok tt, set_cache c w).

Definition log_llm (messages : list message) : M vec unit :=
  fun w => (Ok tt, Build_world (fs w) (cache w) (llm_log w ++ [messages])
                               (current_index w) (index_loaded w)).

Definition put_session (name : string) (loaded : bool) : M vec unit :=
  fun w => (Ok tt, Build_world (fs w) (cache w) (llm_log w) name loaded).

(** [preserves f m]: running [m] leaves the part [f] of the world as it
    was, whatever the outcome. *)
Definition preserves {A X} (f : world vec -> X) (m : M vec A) : Prop :=
  forall w, f (snd (m w)) = f w.
End Monad.

End Env.

Import Env.

Declare Scope py_scope.
Delimit Scope py_scope with py.
Notation "x <- m ;; k" := (bind m (fun x => k))
  (at level 100, m at next level, right associativity) : py_scope.
Notation "m ;;; k" := (bind m (fun _ => k))
  (at level 100, right associativity) : py_scope.

(** ** pathlib, shutil and the file operations *)

Module Files.
Section Files.
Context {vec : Type}.
Local Open Scope py_scope.

(** [Path(s)]: the components of [s]; empty components and [.] are
    dropped, a leading slash is the root component. Components [..] and
    symbolic links are not resolved. *)
Definition Path (s : string) : list string :=
  (if startswith s "/" then ["/"] else [])
    ++ filter (fun c => c <> "" /\ c <> ".") (split s "/").

(** [p.parent] *)
Definition parent (p : list string) : list string :=
  if decide (p = ["/"]) then ["/"] else take (length p - 1) p.

(** [p.name] *)
Definition name (p : list string) : string :=
  if decide (p = ["/"]) then "" else default "" (last p).

(** [p / q]: an absolute right operand replaces the left one. *)
Definition joinpath (p q : list string) : list string :=
  match q with
  | "/" :: _ => q
  | _ => (p ++ q)%list
  end.

(** [str(p)] *)
Definition path_str (p : list string) : string :=
  match p with
  | "/" :: q => "/" +:+ join "/" q
  | _ => join "/" p
  end.

Definition is_root (p : list string) : bool :=
  bool_decide (p = [] \/ p = ["/"]).

(** [p.exists()] *)
Definition path_exists (p : list string) : M vec bool :=
  t <- get_fs ;;
  ret (is_root p || bool_decide (is_Some (t !! p))).

Definition is_dir (t : gmap (list string) (entry vec)) (p : list string) : bool :=
  is_root p || match t !! p with Some Dir => true | _ => false end.

(** The entries at [p] and below it. *)
Definition subtree (t : gmap (list string) (entry vec)) (p : list string)
  : gmap (list string) (entry vec) :=
  filter (fun kv => p `prefix_of` kv.1) t.

(** [shutil.rmtree(p)] *)
Definition rmtree (p : list string) : M vec unit :=
  t <- get_fs ;;
  match t !! p with
  | Some (File _) => raise NotADirectoryError
  | _ =>
      put_fs (filter (fun kv => ~ p `prefix_of` kv.1) t) ;;;
      if is_root p then raise OSError else ret tt
  end.

(** [p.mkdir(parents=True, exist_ok=True)]: every prefix of [p], the
    shortest first, is created unless it is a directory already. *)
Fixpoint mkdir_prefixes (p : list string) (n : nat)
    (t : gmap (list string) (entry vec))
  : outcome (gmap (list string) (entry vec)) :=
  match n with
  | O => Ok t
  | S n' =>
      match mkdir_prefixes p n' t with
      | Raise e => Raise e
      | Ok t' =>
          let q := take n p in
          match t' !! q with
          | Some (File _) =>
              Raise (if bool_decide (q = p) then FileExistsError else NotADirectoryError)
          | Some Dir => Ok t'
          | None => Ok (<[q := Dir]> t')
          end
      end
  end.

Definition mkdir_parents (p : list string) : M vec unit :=
  t <- get_fs ;;
  match mkdir_prefixes p (length p) t with
  | Raise e => raise e
  | Ok t' => put_fs t'
  end.

(** [open(p, "w")] followed by the write: the directory of [p] must
    exist, and [p] must not be a directory. *)
Definition write_file (p : list string) (d : file_data vec) : M vec unit :=
  t <- get_fs ;;
  if negb (is_dir t (parent p)) then raise FileNotFoundError
  else match t !! p with
       | Some Dir => raise IsADirectoryError
       | _ => put_fs (<[p := File d]> t)
       end.

End Files.
End Files.

Import Files.

(** ** embed_and_store.py *)

Module EmbedAndStore.
Section EmbedAndStore.
Context {vec : Type} (E : Externals vec).
Local Open Scope py_scope.

(** [FAISS.from_texts(chunks, embedding=embeddings)]: the texts are
    embedded, and the index is sized by the first vector. *)
Definition FAISS_from_texts (texts : list string) : M vec (vectorstore vec) :=
  match embed_documents E texts with
  | None => raise EmbeddingError
  | Some [] => raise IndexError
  | Some vectors => ret (Build_vectorstore texts vectors)
  end.

(** [vectorstore.save_local(folder)] *)
Definition FAISS_save_local (v : vectorstore vec) (folder : string) : M vec unit :=
  let path := Path folder in
  mkdir_parents path ;;;
  write_file (path ++ ["index.faiss"])%list (FaissFile (vs_vectors v)) ;;;
  write_file (path ++ ["index.pkl"])%list (PickleFile (vs_texts v)).

(** [FAISS.load_local(folder, embeddings, allow_dangerous_deserialization=True)] *)
Definition FAISS_load_local (folder : string) : M vec (vectorstore vec) :=
  let path := Path folder in
  t <- get_fs ;;
  match t !! (path ++ ["index.faiss"])%list, t !! (path ++ ["index.pkl"])%list with
  | Some (File (FaissFile vectors)), Some (File (PickleFile texts)) =>
      ret (Build_vectorstore texts vectors)
  | Some (File _), Some (File _) => raise UnpicklingError
  | _, _ => raise FileNotFoundError
  end.

(** The entries of a saved index: the directory and its two files. *)
Definition index_files (path : list string) (v : vectorstore vec)
  : gmap (list string) (entry vec) :=
  <[(path ++ ["index.pkl"])%list := File (PickleFile (vs_texts v))]>
    (<[(path ++ ["index.faiss"])%list := File (FaissFile (vs_vectors v))]>
       {[ path := Dir ]}).

(** The text written to the [_meta.txt] file. *)
Definition meta_text (chunks : list string) : string :=
  String.concat ""
    (imap (fun i chunk => "--- Chunk " +:+ pretty i +:+ " ---" +:+ nl +:+ chunk +:+ nlnl)
          chunks).

Definition store_in_faiss (chunks : list string) (index_dir : string) : M vec unit :=
  let index_path := Path index_dir in
  ex <- path_exists index_path ;;
  (if ex : bool then rmtree index_path else ret tt) ;;;
  mkdir_parents (parent index_path) ;;;
  vectorstore <- FAISS_from_texts chunks ;;
  FAISS_save_local vectorstore index_dir ;;;
  let meta_path := (parent (Path index_dir) ++ [name (Path index_dir) +:+ "_meta.txt"])%list in
  write_file meta_path (TextFile (meta_text chunks)).

End EmbedAndStore.
End EmbedAndStore.

Import EmbedAndStore.

(** ** chatbot_app.py *)

Module ChatbotApp.

(** The dictionary [process_query] returns, by its ["type"]. A retrieved
    document is its [page_content]. *)
Inductive response :=
| ErrorResponse (answer : string) (sources : list string)
| ReportResponse (answer pdf_path : string) (sources : list string)
| ChatResponse (answer : string) (sources : list string).

(** The ["sources"] of a response. *)
Definition sources (r : response) : list string :=
  match r with
  | ErrorResponse _ l | ReportResponse _ _ l | ChatResponse _ l => l
  end.

(** The messages shown to the user, as the bytes of their UTF-8 encoding. *)
Definition no_index_message : string :=
  "❌ No index loaded. Please upload an audio file first.".

Definition report_message : string :=
  "📄 Report generated successfully! Click below to download.".

(** The test of line 175. *)
Definition is_report_query (query : string) : bool :=
  contains "generate report" (lower query)
  || contains "download report" (lower query).

(** Lines 190 to 198: the diagnosis and the medications read off the
    response of the model. *)
Definition parse_report (response : string) : outcome (string * string) :=
  let diagnosis := "Not found." in
  let meds := "Not found." in
  if contains "Diagnosis" response then
    match split response "Medications" with
    | [] => Raise IndexError
    | part0 :: rest =>
        Ok (strip (replace part0 "Diagnosis" ""),
            match rest with
            | part1 :: _ => strip part1
            | [] => meds
            end)
    end
  else Ok (response, meds).

(** The prompt of report mode. *)
Definition report_prompt (context : string) : string :=
  "Based on the following doctor-patient conversation, generate:" +:+ nl
  +:+ "- A clear diagnosis summary" +:+ nl
  +:+ "- A list of medications prescribed" +:+ nl
  +:+ nl
  +:+ "Conversation:" +:+ nl +:+ context +:+ nl.

Section ChatbotApp.
Context {vec : Type} (E : Externals vec).
Local Open Scope py_scope.

Definition generate_pdf (title diagnosis medications filename : string) : M vec string :=
  let output_dir := Path "rag_chatbot" in
  mkdir_parents output_dir ;;;
  let output_path := joinpath output_dir (Path filename) in
  write_file output_path (PdfFile title diagnosis medications) ;;;
  ret (path_str output_path).

(** The upload handler, from the [try] on. The temporary copy of the upload
    lives outside the modelled tree and its write, which precedes the [try],
    is not modelled; the speech service reads the uploaded bytes. The
    tokenizer is a function: the handler is modelled on the transcripts the
    tokenizer encodes, and a transcript on which [encode] raises (one that
    spells a special token) is outside the model. *)
Definition process_uploaded_file (file_name file_bytes : string) : M vec bool :=
  try_except
    (let transcript := transcribe_audio E file_bytes in
     if negb (truthy transcript) then ret false
     else
       let chunks := split_text_into_chunks (tokenizer E) transcript 300 in
       let index_name := replace (replace file_name ".mp3" "") " " "_" in
       store_in_faiss E chunks ("faiss_store/" +:+ index_name) ;;;
       put_session index_name true ;;;
       ret true)
    (fun _ => ret false).

(** The body of [load_vectorstore]. The embedding object that the source
    builds first serves the similarity search, which is a collaborator. *)
Definition load_vectorstore_body (index_name : string)
  : M vec (option (vectorstore vec)) :=
  let index_path := Path ("faiss_store/" +:+ index_name) in
  ex <- path_exists index_path ;;
  if negb ex then ret None
  else v <- FAISS_load_local (path_str index_path) ;; ret (Some v).

(** [@st.cache_resource]: the result of the first call for an argument is
    kept for the life of the process and returned by every later call. *)
Definition load_vectorstore (index_name : string)
  : M vec (option (vectorstore vec)) :=
  c <- get_cache ;;
  match c !! index_name with
  | Some r => ret r
  | None =>
      r <- load_vectorstore_body index_name ;;
      c' <- get_cache ;;
      put_cache (<[index_name := r]> c') ;;;
      ret r
  end.

(** [llm(messages).content] *)
Definition call_llm (messages : list message) : M vec string :=
  log_llm messages ;;;
  match llm E messages with
  | Some content => ret content
  | None => raise UpstreamError
  end.

(** [retriever.get_relevant_documents(q)] with [k = 4] *)
Definition get_relevant_documents (vs : vectorstore vec) (q : string) : list string :=
  similarity_search E (vs_texts vs) (vs_vectors vs) q 4.

Definition process_query (query index_name : string) : M vec response :=
  vs <- load_vectorstore index_name ;;
  match vs with
  | None => ret (ErrorResponse no_index_message [])
  | Some vs =>
      if is_report_query query then
        let chunks := get_relevant_documents vs "patient summary, diagnosis and medications" in
        let context := join nlnl chunks in
        let prompt := report_prompt context in
        let messages :=
          [SystemMessage "You are a medical assistant generating structured reports.";
           HumanMessage prompt] in
        response <- call_llm messages ;;
        match parse_report response with
        | Raise e => raise e
        | Ok (diagnosis, meds) =>
            pdf_path <- generate_pdf "Patient Report" diagnosis meds "patient_report.pdf" ;;
            ret (ReportResponse report_message pdf_path chunks)
        end
      else
        let docs := get_relevant_documents vs query in
        answer <- call_llm (qa_prompt E docs query) ;;
        ret (ChatResponse answer docs)
  end.

End ChatbotApp.
End ChatbotApp.

Import ChatbotApp.

(** ** A session: uploads and questions in one process *)

Module Session.
Section Session.
Context {vec : Type} (E : Externals vec).

(** What the user does: process an upload, or ask a question against an
    index name. *)
Inductive event :=
| Upload (file_name file_bytes : string)
| Ask (query index_name : string).

(** The world after an event, whatever its outcome. *)
Definition run_event (ev : event) (w : world vec) : world vec :=
  match ev with
  | Upload file_name file_bytes => snd (process_uploaded_file E file_name file_bytes w)
  | Ask query index_name => snd (process_query E query index_name w)
  end.

(** No index is stored under the name. *)
Definition index_absent (name : string) (w : world vec) : Prop :=
  fs w !! Path ("faiss_store/" +:+ name) = None.

(** The memo table of the loader holds no handle for the name. *)
Definition no_handle (name : string) (w : world vec) : Prop :=
  forall h, cache w !! name <> Some (Some h).

(** The worlds of a process in which the name never had an index: the
    process starts with an empty memo table, and the index is absent
    before every event. *)
Inductive never_indexed (name : string) : world vec -> Prop :=
| never_indexed_start (w : world vec) :
    cache w = ∅ -> never_indexed name w
| never_indexed_event (ev : event) (w : world vec) :
    never_indexed name w -> index_absent name w ->
    never_indexed name (run_event ev w).

End Session.
End Session.

Import Session.

(** ** Names for parts of the handlers *)

Module Parts.

(** A string with a function applied to each of its characters. *)
Fixpoint map_chars (f : ascii -> ascii) (s : string) : string :=
  match s with
  | "" => ""
  | String c s' => String (f c) (map_chars f s')
  end.

Definition space_to_underscore (c : ascii) : ascii :=
  if ascii_dec c " " then "_"%char else c.

(** Line 124: the index name the upload handler derives from a file name. *)
Definition index_name_of (file_name : string) : string :=
  replace (replace file_name ".mp3" "") " " "_".

(** The query that report mode retrieves with. *)
Definition report_retrieval_query : string :=
  "patient summary, diagnosis and medications".

(** Where [process_query] writes the report. *)
Definition report_pdf : list string := ["rag_chatbot"; "patient_report.pdf"].

Section Parts.
Context {vec : Type} (E : Externals vec).

(** The messages [process_query] sends to the model for a query, given the
    handle it retrieves from: lines 176 to 187 in report mode, the prompt of
    the question-answering chain otherwise. *)
Definition query_messages (h : vectorstore vec) (query : string) : list message :=
  if is_report_query query then
    [SystemMessage "You are a medical assistant generating structured reports.";
     HumanMessage
       (report_prompt (join nlnl (get_relevant_documents E h report_retrieval_query)))]
  else qa_prompt E (get_relevant_documents E h query) query.

End Parts.
End Parts.

Import Parts.

(** ** Concrete collaborators for running the program

Vectors are numbers; a text is embedded as its length; the search returns
the first [k] texts of the index it is given; the model answers with a
fixed report; the speech service returns the uploaded bytes as text. *)

Definition sample_report : string :=
  "Diagnosis: Flu" +:+ nl +:+ "Medications: Tamiflu".

Definition sample_externals : Externals nat := {|
  tokenizer := char_encode;
  embed_documents := fun texts => Some (map String.length texts);
  similarity_search := fun texts _ _ k => take k texts;
  llm := fun _ => Some sample_report;
  qa_prompt := fun docs q => [HumanMessage (join nlnl docs +:+ nlnl +:+ q)];
  transcribe_audio := fun bytes => strip bytes
|}.

(** The same collaborators with an embedding service that fails, and with
    a language model that fails. *)
Definition externals_without_embedding : Externals nat := {|
  tokenizer := char_encode;
  embed_documents := fun _ => None;
  similarity_search := fun texts _ _ k => take k texts;
  llm := fun _ => Some sample_report;
  qa_prompt := fun docs q => [HumanMessage (join nlnl docs +:+ nlnl +:+ q)];
  transcribe_audio := fun bytes => strip bytes
|}.

Definition externals_without_model : Externals nat := {|
  tokenizer := char_encode;
  embed_documents := fun texts => Some (map String.length texts);
  similarity_search := fun texts _ _ k => take k texts;
  llm := fun _ => None;
  qa_prompt := fun docs q => [HumanMessage (join nlnl docs +:+ nlnl +:+ q)];
  transcribe_audio := fun bytes => strip bytes
|}.

Definition empty_world : world nat := Build_world ∅ ∅ [] "RES0215" false.

(** A world in which the upload [a b.mp3] was processed once. *)
Definition world_with_index : world nat :=
  snd (process_uploaded_file sample_externals "a b.mp3" "old text" empty_world).

(** The same world after a first question, which loads the index. *)
Definition world_after_query : world nat :=
  snd (process_query sample_externals "What was said?" "a_b" world_with_index).

(** The same world after a second upload of [a b.mp3] during which the
    embedding service fails. *)
Definition world_after_failed_upload : world nat :=
  snd (process_uploaded_file externals_without_embedding "a b.mp3" "new text"
         world_after_query).


(** A world whose index directory [faiss_store/x] holds no index file. *)
Definition world_with_bare_directory : world nat :=
  Build_world {[ ["faiss_store"; "x"] := Dir ]} ∅ [] "RES0215" false.

(* ===================================================================== *)
(** * Part II.  Properties                                                *)
(* ===================================================================== *)

(** ** Facts about the string primitives *)

#[local] Arguments String.append !s1 s2 : simpl nomatch.
#[local] Arguments startswith : simpl never.

Section StringFacts.

Lemma app_empty_r (s : string) : s +:+ "" = s.
Proof. induction s as [|c s IH]; simpl; [reflexivity | now rewrite IH]. Qed.

Lemma app_assoc_str (a b c : string) : (a +:+ b) +:+ c = a +:+ b +:+ c.
Proof. induction a as [|x a IH]; simpl; [reflexivity | now rewrite IH]. Qed.

Lemma app_length_str (a b : string) :
  String.length (a +:+ b) = (String.length a + String.length b)%nat.
Proof. induction a as [|x a IH]; simpl; [reflexivity | now rewrite IH]. Qed.

Lemma startswith_cons (c d : ascii) (s p : string) :
  startswith (String c s) (String d p) = true <-> c = d /\ startswith s p = true.
Proof.
  unfold startswith; simpl. destruct (ascii_dec d c) as [->|Hne].
  - split; [now intros H | now intros [_ H]].
  - split; [discriminate | intros [-> _]; now destruct Hne].
Qed.

(** [startswith] is the prefix relation. *)
Lemma startswith_spec (s p : string) :
  startswith s p = true <-> exists r, s = p +:+ r.
Proof.
  revert s. induction p as [|d p IH]; intros s.
  - split; [intros _; now exists s | intros _; now destruct s].
  - destruct s as [|c s].
    + split; [discriminate | intros [r Hr]; discriminate].
    + rewrite startswith_cons, IH. split.
      * intros [-> [r ->]]. now exists r.
      * intros [r Hr]. simpl in Hr. injection Hr as -> ->. split; [reflexivity | now exists r].
Qed.

Lemma startswith_app (p r : string) : startswith (p +:+ r) p = true.
Proof. apply startswith_spec. now exists r. Qed.

(** [sub in s] holds exactly when [s] is cut in three with [sub] in the
    middle. *)
Lemma contains_spec (sub s : string) :
  contains sub s = true <-> exists a b, s = a +:+ sub +:+ b.
Proof.
  split.
  - induction s as [|c s IH]; cbn [contains]; rewrite orb_true_iff.
    + intros [H | H]; [|discriminate].
      apply startswith_spec in H as [r Hr]. now exists "", r.
    + intros [H | H].
      * apply startswith_spec in H as [r Hr]. now exists "", r.
      * destruct (IH H) as (a & b & ->). now exists (String c a), b.
  - intros (a & b & ->). induction a as [|c a IH].
    + change ("" +:+ sub +:+ b) with (sub +:+ b).
      destruct (sub +:+ b) eqn:Heq; cbn [contains]; rewrite orb_true_iff; left;
        rewrite <- Heq; apply startswith_app.
    + change (String c a +:+ sub +:+ b) with (String c (a +:+ sub +:+ b)).
      cbn [contains]. rewrite orb_true_iff. right. exact IH.
Qed.

Lemma contains_cons_false (sub : string) (c : ascii) (s : string) :
  contains sub (String c s) = false ->
  startswith (String c s) sub = false /\ contains sub s = false.
Proof. cbn [contains]. now rewrite orb_false_iff. Qed.

Lemma contains_app_false_l (sub a b : string) :
  contains sub (a +:+ b) = false -> contains sub a = false.
Proof.
  intros H. destruct (contains sub a) eqn:Ha; [|reflexivity].
  apply contains_spec in Ha as (x & y & ->).
  rewrite <- H. symmetry. apply contains_spec.
  exists x, (y +:+ b). now rewrite !app_assoc_str.
Qed.

Lemma contains_app_false_r (sub a b : string) :
  contains sub (a +:+ b) = false -> contains sub b = false.
Proof.
  intros H. destruct (contains sub b) eqn:Hb; [|reflexivity].
  apply contains_spec in Hb as (x & y & ->).
  rewrite <- H. symmetry. apply contains_spec.
  exists (a +:+ x), y. now rewrite !app_assoc_str.
Qed.

(** *** [split] *)

Lemma split_go_nonempty (sep : string) (k : nat) (s : string) :
  split_go sep k s <> [].
Proof.
  revert k. induction s as [|c s IH]; intros k; simpl; [discriminate|].
  destruct k; [|apply IH].
  destruct (startswith (String c s) sep); [done|].
  specialize (IH 0%nat). now destruct (split_go sep 0 s).
Qed.

(** The characters of a matched separator are passed over. *)
Lemma split_go_skip (sep x r : string) :
  split_go sep (String.length x) (x +:+ r) = split_go sep 0 r.
Proof. induction x as [|c x IH]; simpl; [reflexivity | exact IH]. Qed.

Lemma split_match (sep r : string) :
  sep <> "" -> split (sep +:+ r) sep = "" :: split r sep.
Proof.
  intros Hne. unfold split. destruct sep as [|d sep]; [now destruct Hne|].
  change (String d sep +:+ r) with (String d (sep +:+ r)).
  cbn [split_go]. change (String d (sep +:+ r)) with (String d sep +:+ r).
  rewrite startswith_app.
  replace (String.length (String d sep) - 1)%nat with (String.length sep)
    by (cbn [String.length]; lia).
  now rewrite split_go_skip.
Qed.

Lemma split_cons_nomatch (sep : string) (c : ascii) (s : string) :
  startswith (String c s) sep = false ->
  split (String c s) sep = cons_head c (split s sep).
Proof. intros H. unfold split. cbn [split_go]. now rewrite H. Qed.

(** No occurrence of the separator: the string is the only piece. *)
Lemma split_no_occurrence (sep s : string) :
  contains sep s = false -> split s sep = [s].
Proof.
  induction s as [|c s IH]; intros H; [reflexivity|].
  apply contains_cons_false in H as [H1 H2].
  rewrite split_cons_nomatch by exact H1. now rewrite IH.
Qed.

(** The leftmost occurrence ends the first piece. *)
Lemma split_first (sep a rest : string) :
  sep <> "" -> no_early_match sep a rest = true ->
  split (a +:+ sep +:+ rest) sep = a :: split rest sep.
Proof.
  intros Hne. induction a as [|c a IH]; intros H.
  - cbn [String.append]. now apply split_match.
  - cbn [no_early_match] in H. apply andb_true_iff in H as [H1 H2].
    apply negb_true_iff in H1.
    change (String c a +:+ sep +:+ rest) with (String c (a +:+ sep +:+ rest)) in *.
    rewrite split_cons_nomatch by exact H1. now rewrite IH.
Qed.

(** A prefix of [y ++ tail] lies inside [y], or runs over its end. *)
Lemma startswith_straddle (p y tail : string) :
  startswith (y +:+ tail) p = true ->
  startswith y p = true \/ exists q, p = y +:+ q /\ startswith tail q = true.
Proof.
  revert p. induction y as [|c y IH]; intros p H.
  - right. now exists p.
  - destruct p as [|d p]; [now left|].
    change (String c y +:+ tail) with (String c (y +:+ tail)) in H.
    apply startswith_cons in H as [-> H].
    destruct (IH _ H) as [Hl | (q & -> & Hq)].
    + left. now apply startswith_cons.
    + right. now exists q.
Qed.

Lemma occurs_app_r (c : ascii) (a b : string) :
  occurs c b = true -> occurs c (a +:+ b) = true.
Proof.
  intros H. induction a as [|d a IH]; simpl; [exact H|].
  now destruct (ascii_dec c d).
Qed.

(** A separator whose first character does not occur again in it cannot
    overlap itself: after a piece free of the separator, the next
    occurrence is the one that follows the piece. *)
Lemma no_early_match_unbordered (c0 : ascii) (sep' a rest : string) :
  occurs c0 sep' = false ->
  contains (String c0 sep') a = false ->
  no_early_match (String c0 sep') a rest = true.
Proof.
  intros Hocc. induction a as [|c a IH]; intros Ha; [reflexivity|].
  apply contains_cons_false in Ha as [H1 H2].
  cbn [no_early_match]. rewrite (IH H2), andb_true_r.
  apply negb_true_iff.
  destruct (startswith (String c a +:+ String c0 sep' +:+ rest) (String c0 sep'))
    eqn:Hs; [|reflexivity]. exfalso.
  apply startswith_straddle in Hs as [Hs | (q & Hq & Hs)]; [congruence|].
  simpl in Hq. injection Hq as <- Hq.
  destruct q as [|d q].
  - rewrite app_empty_r in Hq. subst sep'.
    assert (startswith (String c0 a) (String c0 a) = true); [|congruence].
    apply startswith_spec. exists "". now rewrite app_empty_r.
  - change (String c0 sep' +:+ rest) with (String c0 (sep' +:+ rest)) in Hs.
    apply startswith_cons in Hs as [<- _].
    assert (occurs c0 sep' = true); [|congruence].
    subst sep'. apply occurs_app_r. simpl. now destruct (ascii_dec c0 c0).
Qed.

(** *** [replace] with the empty string *)

Lemma replace_go_skip (old new x r : string) :
  replace_go old new (String.length x) (x +:+ r) = replace_go old new 0 r.
Proof. induction x as [|c x IH]; simpl; [reflexivity | exact IH]. Qed.

Lemma replace_match (old new r : string) :
  old <> "" -> replace (old +:+ r) old new = new +:+ replace r old new.
Proof.
  intros Hne. unfold replace. destruct old as [|d old]; [now destruct Hne|].
  change (String d old +:+ r) with (String d (old +:+ r)).
  cbn [replace_go]. change (String d (old +:+ r)) with (String d old +:+ r).
  rewrite startswith_app.
  replace (String.length (String d old) - 1)%nat with (String.length old)
    by (cbn [String.length]; lia).
  now rewrite replace_go_skip.
Qed.

Lemma replace_cons_nomatch (old new : string) (c : ascii) (s : string) :
  startswith (String c s) old = false ->
  replace (String c s) old new = String c (replace s old new).
Proof. intros H. unfold replace. cbn [replace_go]. now rewrite H. Qed.

Lemma replace_no_occurrence (old new s : string) :
  contains old s = false -> replace s old new = s.
Proof.
  induction s as [|c s IH]; intros H; [reflexivity|].
  apply contains_cons_false in H as [H1 H2].
  rewrite replace_cons_nomatch by exact H1. now rewrite IH.
Qed.

Lemma replace_first (old new a rest : string) :
  old <> "" -> no_early_match old a rest = true ->
  replace (a +:+ old +:+ rest) old new = a +:+ new +:+ replace rest old new.
Proof.
  intros Hne. induction a as [|c a IH]; intros H.
  - cbn [String.append]. now apply replace_match.
  - cbn [no_early_match] in H. apply andb_true_iff in H as [H1 H2].
    apply negb_true_iff in H1.
    change (String c a +:+ old +:+ rest) with (String c (a +:+ old +:+ rest)) in *.
    rewrite replace_cons_nomatch by exact H1. now rewrite IH.
Qed.

End StringFacts.

(** ** Splitting, joining and replacing *)

Section SplitJoin.

Lemma join_cons (sep x : string) (xs : list string) :
  xs <> [] -> join sep (x :: xs) = x +:+ sep +:+ join sep xs.
Proof. intros H. destruct xs; [now destruct H | reflexivity]. Qed.

Lemma join_cons_head (sep : string) (c : ascii) (ps : list string) :
  ps <> [] -> join sep (cons_head c ps) = String c (join sep ps).
Proof.
  intros H. destruct ps as [|p ps]; [now destruct H|].
  destruct ps; reflexivity.
Qed.

Lemma replace_go_join_split (old new : string) (k : nat) (s : string) :
  replace_go old new k s = join new (split_go old k s).
Proof.
  revert k. induction s as [|c s IH]; intros k; [reflexivity|].
  cbn [replace_go split_go]. destruct k as [|k]; [|apply IH].
  destruct (startswith (String c s) old).
  - rewrite join_cons by apply split_go_nonempty. now rewrite IH.
  - rewrite join_cons_head by apply split_go_nonempty. now rewrite IH.
Qed.

(** [s.replace(old, new)] is [new.join(s.split(old))]. *)
Lemma replace_join_split (s old new : string) :
  replace s old new = join new (split s old).
Proof. apply replace_go_join_split. Qed.

End SplitJoin.

(** ** Query routing and the report parser *)

Section Router.

Lemma is_report_query_spec (query : string) :
  is_report_query query = true <->
  (exists a b, lower query = a +:+ "generate report" +:+ b)
  \/ (exists a b, lower query = a +:+ "download report" +:+ b).
Proof.
  unfold is_report_query. rewrite orb_true_iff.
  now rewrite !contains_spec.
Qed.

(** C6, as the code has it. For the response
    ["Diagnosis: Flu\nMedications: Tamiflu"] the parser yields the
    diagnosis [": Flu"] and the medications [": Tamiflu"]: the marker is
    removed and white space is trimmed, the colons stay. *)
Theorem parse_flu_report :
  parse_report ("Diagnosis: Flu" +:+ nl +:+ "Medications: Tamiflu")
  = Ok (": Flu", ": Tamiflu").
Proof. reflexivity. Qed.

(** C6, as the claim states it, fails: the diagnosis is not ["Flu"] and
    the medications are not ["Tamiflu"]. *)
Lemma flu_report_keeps_its_colons :
  parse_report ("Diagnosis: Flu" +:+ nl +:+ "Medications: Tamiflu")
  <> Ok ("Flu", "Tamiflu").
Proof. discriminate. Qed.

(** C7, as the code has it. A response without ["Medications"] never makes
    the parser fail and always gives the medications ["Not found."]; the
    diagnosis is the response itself, not trimmed, when it has no
    ["Diagnosis"], and otherwise the response with every ["Diagnosis"]
    removed and then trimmed. *)
Theorem parse_without_medications (response : string) :
  contains "Medications" response = false ->
  parse_report response
  = Ok (if contains "Diagnosis" response
        then strip (replace response "Diagnosis" "")
        else response,
        "Not found.").
Proof.
  intros H. unfold parse_report.
  destruct (contains "Diagnosis" response); [|reflexivity].
  now rewrite (split_no_occurrence _ _ H).
Qed.

Lemma parse_without_medications_witness :
  contains "Medications" " Flu " = false
  /\ parse_report " Flu " = Ok (" Flu ", "Not found.").
Proof.
  split; [reflexivity|].
  exact (parse_without_medications " Flu " eq_refl).
Defined.

(** C7, as the claim states it, fails on either branch: the diagnosis is
    not the trimmed response when the response has outer white space and
    no marker, nor when it has the marker. *)
Lemma diagnosis_is_not_the_trimmed_response :
  (contains "Medications" " Flu " = false
   /\ parse_report " Flu " <> Ok (strip " Flu ", "Not found."))
  /\ (contains "Medications" "Diagnosis: Flu" = false
      /\ parse_report "Diagnosis: Flu" <> Ok (strip "Diagnosis: Flu", "Not found.")).
Proof. repeat split; discriminate. Qed.

(** C10. When the response contains ["Diagnosis"] and has two occurrences
    of ["Medications"] or more, it is cut at every one of them; the
    medications are the trimmed text between the first two, whatever
    follows the second is dropped, and the diagnosis is the trimmed
    concatenation of the pieces of the first segment around every
    ["Diagnosis"] in it. *)
Theorem parse_cuts_at_every_marker (a b c : string) :
  contains "Medications" a = false ->
  contains "Medications" b = false ->
  contains "Diagnosis" (a +:+ "Medications" +:+ b +:+ "Medications" +:+ c) = true ->
  split (a +:+ "Medications" +:+ b +:+ "Medications" +:+ c) "Medications"
  = a :: b :: split c "Medications"
  /\ parse_report (a +:+ "Medications" +:+ b +:+ "Medications" +:+ c)
     = Ok (strip (join "" (split a "Diagnosis")), strip b).
Proof.
  intros Ha Hb Hd.
  assert (Hsplit : split (a +:+ "Medications" +:+ b +:+ "Medications" +:+ c) "Medications"
                   = a :: b :: split c "Medications").
  { rewrite split_first; [|discriminate|].
    - rewrite split_first; [reflexivity|discriminate|].
      now apply no_early_match_unbordered.
    - now apply no_early_match_unbordered. }
  split; [exact Hsplit|].
  unfold parse_report. rewrite Hd, Hsplit.
  now rewrite replace_join_split.
Qed.

Lemma parse_cuts_at_every_marker_witness :
  parse_report ("Diagnosis: A Diagnosis B " +:+ "Medications" +:+ ": X "
                +:+ "Medications" +:+ ": Y")
  = Ok (": A  B", ": X").
Proof.
  exact (proj2 (parse_cuts_at_every_marker
                  "Diagnosis: A Diagnosis B " ": X " ": Y" eq_refl eq_refl eq_refl)).
Defined.

End Router.

(** ** The chunker *)

Section ChunkerFacts.
Variable encode : string -> list N.

(** C3, evaluated. On the empty text the only paragraph is the empty one,
    the candidate is the bare separator, and the result is one empty chunk
    unless the separator alone is over the budget. *)
Theorem chunks_of_empty_text (max_tokens : Z) :
  split_text_into_chunks encode "" max_tokens
  = if num_tokens encode nlnl >? max_tokens then [] else [""].
Proof.
  unfold split_text_into_chunks. cbn [split split_go fold_left step].
  change ("" +:+ nlnl +:+ "") with nlnl.
  destruct (num_tokens encode nlnl >? max_tokens); reflexivity.
Qed.

End ChunkerFacts.

Section ChunkerBudget.
Variable encode : string -> list N.
Variable text : string.
Variable max_tokens : Z.

Lemma flush_budgeted (chunks : list string) (cur : string) :
  Forall (trimmed_from_budgeted encode text max_tokens) chunks ->
  budgeted encode text max_tokens cur ->
  Forall (trimmed_from_budgeted encode text max_tokens) (flush chunks cur).
Proof.
  intros Hc Hcur. unfold flush. destruct cur as [|c cur]; [exact Hc|].
  cbn [truthy]. apply Forall_app. split; [exact Hc|].
  apply Forall_singleton. exists (String c cur). split; [reflexivity|].
  destruct Hcur as [H | [H | H]]; [discriminate | now left | now right].
Qed.

Lemma step_budgeted (chunks : list string) (cur para : string) :
  para ∈ split text nlnl ->
  Forall (trimmed_from_budgeted encode text max_tokens) chunks ->
  budgeted encode text max_tokens cur ->
  Forall (trimmed_from_budgeted encode text max_tokens)
         (fst (step encode max_tokens (chunks, cur) para))
  /\ budgeted encode text max_tokens (snd (step encode max_tokens (chunks, cur) para)).
Proof.
  intros Hp Hc Hcur. cbn [step].
  destruct (num_tokens encode (cur +:+ nlnl +:+ para) >? max_tokens) eqn:Hcmp;
    cbn [fst snd].
  - split; [now apply flush_budgeted|].
    destruct (Z_le_gt_dec (num_tokens encode para) max_tokens) as [Hle | Hgt].
    + right. now left.
    + right. right. split; [exact Hp | lia].
  - split; [exact Hc|]. right. left. lia.
Qed.

Lemma loop_budgeted (paras chunks : list string) (cur : string) :
  (forall p, p ∈ paras -> p ∈ split text nlnl) ->
  Forall (trimmed_from_budgeted encode text max_tokens) chunks ->
  budgeted encode text max_tokens cur ->
  Forall (trimmed_from_budgeted encode text max_tokens)
         (fst (fold_left (step encode max_tokens) paras (chunks, cur)))
  /\ budgeted encode text max_tokens (snd (fold_left (step encode max_tokens) paras (chunks, cur))).
Proof.
  revert chunks cur. induction paras as [|para paras IH]; intros chunks cur Hin Hc Hcur.
  - now split.
  - cbn [fold_left].
    destruct (step_budgeted chunks cur para) as [H1 H2]; [apply Hin; left | exact Hc | exact Hcur |].
    destruct (step encode max_tokens (chunks, cur) para) as [chunks' cur'].
    apply IH; [|exact H1|exact H2].
    intros p Hp. apply Hin. now right.
Qed.

Lemma chunks_trimmed_from_budgeted :
  Forall (trimmed_from_budgeted encode text max_tokens)
         (split_text_into_chunks encode text max_tokens).
Proof.
  unfold split_text_into_chunks.
  destruct (loop_budgeted (split text nlnl) [] "") as [H1 H2];
    [auto | constructor | now left |].
  destruct (fold_left _ _ _) as [chunks cur].
  now apply flush_budgeted.
Qed.

End ChunkerBudget.


(** ** White space at the ends of a string *)

Section Whitespace.

Lemma blank_app (a b : string) : blank (a +:+ b) = blank a && blank b.
Proof.
  induction a as [|c a IH]; [reflexivity|].
  cbn [String.append blank]. rewrite IH. now rewrite andb_assoc.
Qed.

Lemma lstrip_blank (s : string) : blank s = true <-> lstrip s = "".
Proof.
  induction s as [|c s IH]; [easy|].
  cbn [blank lstrip]. destruct (isspace c); cbn [andb]; [exact IH | easy].
Qed.

Lemma rstrip_blank (s : string) : blank s = true <-> rstrip s = "".
Proof.
  induction s as [|c s IH]; [easy|].
  cbn [blank rstrip]. destruct (rstrip s) as [|d r].
  - destruct (isspace c); cbn [andb]; [|easy].
    split; [easy|]. intros _. now apply IH.
  - split; [|easy]. intros H. apply andb_true_iff in H as [_ H].
    now apply IH in H.
Qed.

Lemma rstrip_cons (c : ascii) (s : string) :
  rstrip (String c s) = if isspace c && blank s then "" else String c (rstrip s).
Proof.
  cbn [rstrip]. destruct (blank s) eqn:Hb.
  - apply rstrip_blank in Hb. rewrite Hb, andb_true_r. now destruct (isspace c).
  - rewrite andb_false_r. destruct (rstrip s) eqn:Hr; [|reflexivity].
    apply rstrip_blank in Hr. congruence.
Qed.

Lemma lstrip_app (a b : string) :
  lstrip (a +:+ b) = if blank a then lstrip b else lstrip a +:+ b.
Proof.
  induction a as [|c a IH]; [reflexivity|].
  cbn [String.append lstrip blank]. destruct (isspace c); cbn [andb]; [exact IH | reflexivity].
Qed.

Lemma rstrip_app (a b : string) :
  rstrip (a +:+ b) = if blank b then rstrip a else a +:+ rstrip b.
Proof.
  induction a as [|c a IH].
  - cbn [String.append]. destruct (blank b) eqn:Hb; [|reflexivity].
    now apply rstrip_blank.
  - cbn [String.append]. rewrite !rstrip_cons, IH, blank_app.
    destruct (blank b); [now rewrite andb_true_r|].
    now rewrite andb_false_r, andb_false_r.
Qed.

Lemma blank_lstrip (s : string) : blank (lstrip s) = blank s.
Proof.
  induction s as [|c s IH]; [reflexivity|].
  cbn [lstrip blank]. destruct (isspace c) eqn:Hc; cbn [andb blank]; [exact IH|].
  now rewrite Hc.
Qed.

Lemma lstrip_rstrip (s : string) : lstrip (rstrip s) = rstrip (lstrip s).
Proof.
  induction s as [|c s IH]; [reflexivity|].
  rewrite rstrip_cons. cbn [lstrip]. destruct (isspace c) eqn:Hc; cbn [andb].
  - destruct (blank s) eqn:Hb.
    + cbn [lstrip]. symmetry. apply rstrip_blank. now rewrite blank_lstrip.
    + cbn [lstrip]. now rewrite Hc.
  - cbn [lstrip]. rewrite Hc. rewrite rstrip_cons, Hc. reflexivity.
Qed.

Lemma lstrip_idem (s : string) : lstrip (lstrip s) = lstrip s.
Proof.
  induction s as [|c s IH]; [reflexivity|].
  cbn [lstrip]. destruct (isspace c) eqn:Hc; [exact IH|].
  cbn [lstrip]. now rewrite Hc.
Qed.

Lemma rstrip_idem (s : string) : rstrip (rstrip s) = rstrip s.
Proof.
  induction s as [|c s IH]; [reflexivity|].
  rewrite rstrip_cons. destruct (isspace c && blank s) eqn:Hcb; [reflexivity|].
  rewrite rstrip_cons, IH.
  destruct (isspace c && blank (rstrip s)) eqn:Hcb'; [|reflexivity].
  apply andb_true_iff in Hcb' as [Hc Hb].
  apply rstrip_blank in Hb. rewrite IH in Hb. apply rstrip_blank in Hb.
  now rewrite Hc, Hb in Hcb.
Qed.

Lemma strip_lstrip (s : string) : strip (lstrip s) = strip s.
Proof. unfold strip. now rewrite lstrip_idem. Qed.

Lemma strip_rstrip (s : string) : strip (rstrip s) = strip s.
Proof. unfold strip. now rewrite lstrip_rstrip, rstrip_idem. Qed.

Lemma strip_blank (s : string) : blank s = true -> strip s = "".
Proof. intros H. unfold strip. apply lstrip_blank in H. now rewrite H. Qed.

(** What [lstrip] removes is in front, what [rstrip] removes is behind. *)
Lemma lstrip_suffix (s : string) : exists w, s = w +:+ lstrip s.
Proof.
  induction s as [|c s [w IH]]; [now exists ""|].
  cbn [lstrip]. destruct (isspace c).
  - exists (String c w). cbn [String.append]. now rewrite <- IH.
  - now exists "".
Qed.

Lemma rstrip_prefix (s : string) : exists w, s = rstrip s +:+ w.
Proof.
  induction s as [|c s [w IH]]; [now exists ""|].
  rewrite rstrip_cons. destruct (isspace c && blank s).
  - now exists (String c s).
  - exists w. cbn [String.append]. now rewrite <- IH.
Qed.

Lemma strip_length (s : string) : (String.length (strip s) <= String.length s)%nat.
Proof.
  unfold strip. destruct (lstrip_suffix s) as [w Hw].
  destruct (rstrip_prefix (lstrip s)) as [v Hv].
  rewrite Hw at 2. rewrite Hv at 2. rewrite !app_length_str. lia.
Qed.

End Whitespace.

(** ** The pieces that [split] on the blank line produces *)

Section Paragraphs.

Lemma sdrop_app (x r : string) : sdrop (String.length x) (x +:+ r) = r.
Proof. induction x as [|c x IH]; [reflexivity | exact IH]. Qed.

(** Joining the pieces back gives the string that was split. *)
Lemma join_split_go (sep : string) (k : nat) (s : string) :
  sep <> "" -> join sep (split_go sep k s) = sdrop k s.
Proof.
  intros Hne. revert k. induction s as [|c s IH]; intros k.
  - now destruct k.
  - cbn [split_go]. destruct k as [|k]; [|apply IH].
    cbn [sdrop]. destruct (startswith (String c s) sep) eqn:Hs.
    + apply startswith_spec in Hs as [r Hr].
      destruct sep as [|d sep]; [now destruct Hne|].
      cbn [String.append] in Hr. injection Hr as -> ->.
      rewrite join_cons by apply split_go_nonempty.
      replace (String.length (String d sep) - 1)%nat with (String.length sep)
        by (cbn [String.length]; lia).
      now rewrite IH, sdrop_app.
    + rewrite join_cons_head by apply split_go_nonempty. now rewrite IH.
Qed.

Lemma join_split (s sep : string) : sep <> "" -> join sep (split s sep) = s.
Proof. intros H. exact (join_split_go sep 0 s H). Qed.

Lemma startswith_app_l (a b p : string) :
  startswith a p = true -> startswith (a +:+ b) p = true.
Proof.
  intros H. apply startswith_spec in H as [r ->]. apply startswith_spec.
  exists (r +:+ b). now rewrite app_assoc_str.
Qed.

Lemma startswith_nlnl (c d : ascii) (s : string) :
  startswith (String c (String d s)) nlnl = true <-> c = LF /\ d = LF.
Proof.
  unfold nlnl. rewrite startswith_cons, startswith_cons.
  assert (startswith s "" = true) by now destruct s.
  intuition.
Qed.

Lemma ends_with_lf_cons (c d : ascii) (s : string) :
  ends_with_lf (String c (String d s)) = ends_with_lf (String d s).
Proof. reflexivity. Qed.

Lemma well_cut_no_early_match (q rest : string) :
  contains nlnl q = false -> ends_with_lf q = false ->
  no_early_match nlnl q rest = true.
Proof.
  induction q as [|c q IH]; intros Hc He; [reflexivity|].
  apply contains_cons_false in Hc as [Hs Hc].
  cbn [no_early_match]. apply andb_true_iff. split.
  - apply negb_true_iff. destruct q as [|d q].
    + cbn [String.append].
      destruct (startswith (String c (nlnl +:+ rest)) nlnl) eqn:H; [|reflexivity].
      apply startswith_nlnl in H as [-> _]. discriminate.
    + cbn [String.append].
      destruct (startswith (String c (String d (q +:+ nlnl +:+ rest))) nlnl) eqn:H;
        [|reflexivity].
      apply startswith_nlnl in H.
      assert (startswith (String c (String d q)) nlnl = true) by now apply startswith_nlnl.
      congruence.
  - destruct q as [|d q]; [reflexivity|]. now apply IH.
Qed.

(** Splitting a join of well cut pieces gives the pieces back. *)
Lemma split_join_well_cut (g : list string) :
  g <> [] -> well_cut g -> split (join nlnl g) nlnl = g.
Proof.
  induction g as [|p g IH]; intros Hne Hw; [now destruct Hne|].
  destruct Hw as (Hc & He & Hw). destruct g as [|q g].
  - now apply split_no_occurrence.
  - rewrite join_cons by done.
    rewrite split_first; [|done|apply well_cut_no_early_match; [exact Hc | now apply He]].
    now rewrite IH.
Qed.

Lemma well_cut_split_go (k : nat) (s : string) : well_cut (split_go nlnl k s).
Proof.
  revert k. induction s as [|c s IH]; intros k.
  - cbn. auto.
  - cbn [split_go]. destruct k as [|k]; [|apply IH].
    destruct (startswith (String c s) nlnl) eqn:Hs.
    + cbn [well_cut]. split; [reflexivity|]. split; [reflexivity|]. apply IH.
    + pose proof (join_split_go nlnl 0 s) as Hj. cbn [sdrop] in Hj.
      specialize (IH 0%nat).
      destruct (split_go nlnl 0 s) as [|p ps] eqn:Hsp;
        [now apply split_go_nonempty in Hsp|].
      cbn [cons_head well_cut]. destruct IH as (Hc & He & Hw).
      assert (Hsj : exists tail, s = p +:+ tail).
      { destruct ps as [|p' ps].
        - exists "". rewrite app_empty_r. symmetry. now apply Hj.
        - exists (nlnl +:+ join nlnl (p' :: ps)). symmetry. now apply Hj. }
      destruct Hsj as [tail Htail].
      split; [|split; [|exact Hw]].
      * cbn [contains]. rewrite Hc, orb_false_r.
        destruct (startswith (String c p) nlnl) eqn:Hp; [|reflexivity].
        apply (startswith_app_l _ tail) in Hp. cbn [String.append] in Hp.
        rewrite <- Htail in Hp. congruence.
      * intros Hps. destruct p as [|d p].
        -- cbn [ends_with_lf]. apply bool_decide_eq_false. intros ->.
           destruct ps as [|p' ps]; [now destruct Hps|].
           rewrite <- Hj in Hs by done. discriminate.
        -- rewrite ends_with_lf_cons. now apply He.
Qed.

Lemma well_cut_split (s : string) : well_cut (split s nlnl).
Proof. apply well_cut_split_go. Qed.

Lemma well_cut_app_r (a b : list string) : well_cut (a ++ b) -> well_cut b.
Proof.
  induction a as [|p a IH]; [easy|]. intros (_ & _ & H). now apply IH.
Qed.

Lemma well_cut_app_l (a b : list string) : well_cut (a ++ b) -> well_cut a.
Proof.
  induction a as [|p a IH]; [easy|]. intros (Hc & He & H).
  cbn [well_cut]. split; [exact Hc|]. split; [|now apply IH].
  intros Hne. apply He. now destruct a.
Qed.

End Paragraphs.

(** ** Trimming a join of paragraphs *)

Section TrimmedRuns.

Lemma nonempty_app (l1 l2 : list string) :
  nonempty (l1 ++ l2) = nonempty l1 ++ nonempty l2.
Proof. apply filter_app. Qed.

Lemma nonempty_cons (p : string) (l : list string) :
  nonempty (p :: l) = nonempty [p] ++ nonempty l.
Proof. exact (nonempty_app [p] l). Qed.

Lemma join_snoc (sep : string) (g : list string) (x : string) :
  g <> [] -> join sep (g ++ [x]) = join sep g +:+ sep +:+ x.
Proof.
  induction g as [|y g IH]; intros Hne; [now destruct Hne|].
  destruct g as [|z g]; [reflexivity|].
  change ((y :: z :: g) ++ [x]) with (y :: ((z :: g) ++ [x])).
  rewrite join_cons by (now destruct g).
  rewrite IH by done.
  rewrite (join_cons sep y (z :: g)) by done.
  now rewrite !app_assoc_str.
Qed.

Lemma app_eq_empty (a b : string) : a +:+ b = "" -> a = "" /\ b = "".
Proof. destruct a; cbn [String.append]; [now intros -> | discriminate]. Qed.

(** An empty join has no paragraph with text in it. *)
Lemma join_empty_nonempty (g : list string) :
  join nlnl g = "" -> nonempty g = [].
Proof.
  destruct g as [|x g]; [reflexivity|].
  destruct g as [|y g].
  - cbn [join String.concat]. now intros ->.
  - rewrite join_cons by done. intros H.
    apply app_eq_empty in H as [_ H]. apply app_eq_empty in H as [H _].
    discriminate.
Qed.

Lemma blank_join (g : list string) : blank (join nlnl g) = forallb blank g.
Proof.
  induction g as [|p g IH]; [reflexivity|].
  destruct g as [|q g].
  - cbn [join String.concat forallb]. now rewrite andb_true_r.
  - rewrite join_cons by done. rewrite !blank_app, IH. reflexivity.
Qed.

Lemma nonempty_strip_blank (g : list string) :
  forallb blank g = true -> nonempty (map strip g) = [].
Proof.
  induction g as [|p g IH]; [reflexivity|].
  cbn [forallb map]. intros H. apply andb_true_iff in H as [Hp Hg].
  rewrite nonempty_cons, (strip_blank p Hp), (IH Hg). reflexivity.
Qed.

Lemma trimmed_single (p : string) :
  contains nlnl p = false -> trimmed_paragraphs (rstrip p) = nonempty [strip p].
Proof.
  intros Hc. unfold trimmed_paragraphs.
  rewrite split_no_occurrence.
  - cbn [map]. now rewrite strip_rstrip.
  - destruct (rstrip_prefix p) as [w Hw]. rewrite Hw in Hc.
    now apply contains_app_false_l in Hc.
Qed.

Lemma trimmed_rstrip_join (g : list string) :
  well_cut g -> trimmed_paragraphs (rstrip (join nlnl g)) = nonempty (map strip g).
Proof.
  induction g as [|p g IH]; intros Hw; [reflexivity|].
  destruct Hw as (Hc & He & Hw). destruct g as [|q g].
  - now apply trimmed_single.
  - rewrite join_cons by done. rewrite rstrip_app, blank_app.
    change (blank nlnl) with true. cbn [andb].
    cbn [map]. rewrite nonempty_cons.
    destruct (blank (join nlnl (q :: g))) eqn:Hb.
    + rewrite trimmed_single by exact Hc.
      rewrite blank_join in Hb.
      change (strip q :: map strip g) with (map strip (q :: g)).
      rewrite (nonempty_strip_blank _ Hb). now rewrite app_nil_r.
    + rewrite rstrip_app, Hb. unfold trimmed_paragraphs at 1.
      rewrite split_first;
        [|done|apply well_cut_no_early_match; [exact Hc | now apply He]].
      cbn [map]. rewrite nonempty_cons. f_equal. now apply IH.
Qed.

Lemma lstrip_join (g : list string) :
  lstrip (join nlnl g) = join nlnl (ltrim_run g).
Proof.
  induction g as [|p g IH]; [reflexivity|].
  cbn [ltrim_run]. destruct g as [|q g].
  - cbn [join String.concat ltrim_run]. destruct (blank p) eqn:Hb; [|reflexivity].
    now apply lstrip_blank.
  - rewrite join_cons by done. rewrite lstrip_app.
    destruct (blank p); [|reflexivity].
    rewrite lstrip_app. change (blank nlnl) with true. exact IH.
Qed.

Lemma ends_with_lf_app (w q : string) :
  q <> "" -> ends_with_lf (w +:+ q) = ends_with_lf q.
Proof.
  intros Hq. induction w as [|c w IH]; [reflexivity|].
  cbn [String.append]. destruct (w +:+ q) as [|d r] eqn:Hwq.
  - apply app_eq_empty in Hwq as [_ ->]. now destruct Hq.
  - now rewrite ends_with_lf_cons.
Qed.

Lemma well_cut_ltrim_run (g : list string) : well_cut g -> well_cut (ltrim_run g).
Proof.
  induction g as [|p g IH]; [easy|]. intros (Hc & He & Hw).
  cbn [ltrim_run]. destruct (blank p) eqn:Hb; [now apply IH|].
  destruct (lstrip_suffix p) as [w Hp].
  cbn [well_cut]. split; [|split; [|exact Hw]].
  - rewrite Hp in Hc. now apply contains_app_false_r in Hc.
  - intros Hne. rewrite <- (He Hne). rewrite Hp at 2. symmetry.
    apply ends_with_lf_app. intros Hl. apply lstrip_blank in Hl. congruence.
Qed.

Lemma nonempty_strip_ltrim_run (g : list string) :
  nonempty (map strip (ltrim_run g)) = nonempty (map strip g).
Proof.
  induction g as [|p g IH]; [reflexivity|].
  cbn [ltrim_run map]. destruct (blank p) eqn:Hb.
  - rewrite IH, (nonempty_cons (strip p)), (strip_blank p Hb). reflexivity.
  - cbn [map]. now rewrite strip_lstrip.
Qed.

(** The trimmed join of well cut paragraphs holds exactly those paragraphs,
    trimmed, the blank ones left out. *)
Lemma trimmed_strip_join (g : list string) :
  well_cut g -> trimmed_paragraphs (strip (join nlnl g)) = nonempty (map strip g).
Proof.
  intros Hw. unfold strip. rewrite lstrip_join.
  rewrite trimmed_rstrip_join by now apply well_cut_ltrim_run.
  apply nonempty_strip_ltrim_run.
Qed.

Lemma nonempty_cons_empty (l : list string) : nonempty ("" :: l) = nonempty l.
Proof. unfold nonempty. rewrite filter_cons. now destruct (decide ("" <> "")). Qed.

Lemma nonempty_cons_text (c : ascii) (p : string) (l : list string) :
  nonempty (String c p :: l) = String c p :: nonempty l.
Proof.
  unfold nonempty. rewrite filter_cons.
  destruct (decide (String c p <> "")) as [_ | H]; [reflexivity|].
  destruct H. discriminate.
Qed.

Lemma strip_empty : strip "" = "".
Proof. reflexivity. Qed.

Lemma nonempty_map_strip (l : list string) :
  nonempty (map strip (nonempty l)) = nonempty (map strip l).
Proof.
  induction l as [|p l IH]; [reflexivity|].
  destruct p as [|c p].
  - rewrite nonempty_cons_empty. cbn [map].
    now rewrite strip_empty, nonempty_cons_empty.
  - rewrite nonempty_cons_text. cbn [map].
    rewrite (nonempty_cons _ (map strip (nonempty l))).
    rewrite (nonempty_cons _ (map strip l)). now rewrite IH.
Qed.

Lemma flat_map_trimmed (groups : list (list string)) :
  Forall well_cut groups ->
  flat_map trimmed_paragraphs (map (fun g => strip (join nlnl g)) groups)
  = nonempty (map strip (concat groups)).
Proof.
  induction groups as [|g groups IH]; intros H; [reflexivity|].
  apply Forall_cons in H as [Hg H].
  cbn [map flat_map concat]. rewrite map_app, nonempty_app.
  now rewrite trimmed_strip_join, IH.
Qed.

End TrimmedRuns.

(** ** The chunks are runs of consecutive paragraphs *)

Section ChunkerGroups.
Variable encode : string -> list N.
Variable max_tokens : Z.

Lemma flush_represents (chunks : list string) (cur : string) (done todo : list string) :
  represents (chunks, cur) done todo ->
  exists groups,
    flush chunks cur = map (fun g => strip (join nlnl g)) groups
    /\ nonempty (concat groups) = nonempty done
    /\ Forall well_cut groups.
Proof.
  intros (groups & g & Hc & Hcur & Hne & Hgs & Hg). cbn [fst snd] in *.
  unfold flush. destruct (truthy cur) eqn:Ht.
  - exists (groups ++ [g]). split; [|split].
    + rewrite map_app. cbn [map]. now rewrite Hc, Hcur.
    + rewrite concat_app. cbn [concat]. now rewrite app_nil_r.
    + apply Forall_app. split; [exact Hgs|]. apply Forall_singleton.
      now apply well_cut_app_l in Hg.
  - exists groups. split; [exact Hc|]. split; [|exact Hgs].
    destruct cur; [|discriminate].
    rewrite nonempty_app in Hne.
    rewrite (join_empty_nonempty g) in Hne by congruence.
    now rewrite app_nil_r in Hne.
Qed.

Lemma step_represents (st : loop_state) (done : list string) (para : string)
    (todo : list string) :
  represents st done (para :: todo) ->
  represents (step encode max_tokens st para) (done ++ [para]) todo.
Proof.
  destruct st as [chunks cur]. intros Hrep. cbn [step].
  destruct (num_tokens encode (cur +:+ nlnl +:+ para) >? max_tokens).
  - destruct (flush_represents chunks cur done _ Hrep) as (groups & Hf & Hne & Hgs).
    destruct Hrep as (_ & g & _ & _ & _ & _ & Hg).
    exists groups, [para]. cbn [fst snd].
    split; [exact Hf|]. split; [reflexivity|]. split; [|split; [exact Hgs|]].
    + now rewrite !nonempty_app, Hne.
    + now apply well_cut_app_r in Hg.
  - destruct Hrep as (groups & g & Hc & Hcur & Hne & Hgs & Hg). cbn [fst snd] in *.
    destruct g as [|x g].
    + exists groups, [""; para]. cbn [fst snd].
      split; [exact Hc|]. split; [now rewrite Hcur|]. split; [|split; [exact Hgs|]].
      * rewrite !nonempty_app in *. rewrite <- Hne, <- app_assoc. reflexivity.
      * cbn [app] in *. cbn [well_cut]. split; [reflexivity|]. split; [reflexivity|].
        exact Hg.
    + exists groups, ((x :: g) ++ [para]). cbn [fst snd].
      split; [exact Hc|]. split; [|split; [|split; [exact Hgs|]]].
      * rewrite join_snoc by done. now rewrite Hcur.
      * rewrite app_assoc. rewrite nonempty_app, Hne. now rewrite nonempty_app.
      * now rewrite <- app_assoc.
Qed.

Lemma loop_represents (paras : list string) (st : loop_state) (done : list string) :
  represents st done paras ->
  represents (fold_left (step encode max_tokens) paras st) (done ++ paras) [].
Proof.
  revert st done. induction paras as [|para paras IH]; intros st done Hrep.
  - now rewrite app_nil_r.
  - cbn [fold_left]. replace (done ++ para :: paras) with ((done ++ [para]) ++ paras)
      by now rewrite <- app_assoc.
    apply IH. now apply step_represents.
Qed.

(** Every chunk is the trimmed join of a run of consecutive paragraphs, and
    the runs, in order, hold every paragraph that has text exactly once. *)
Lemma chunks_are_paragraph_runs (text : string) :
  exists groups : list (list string),
    split_text_into_chunks encode text max_tokens
    = map (fun g => strip (join nlnl g)) groups
    /\ nonempty (concat groups) = nonempty (split text nlnl)
    /\ Forall well_cut groups.
Proof.
  unfold split_text_into_chunks.
  assert (H0 : represents ([], "") [] (split text nlnl)).
  { exists [], []. repeat split; [constructor | apply well_cut_split]. }
  pose proof (loop_represents (split text nlnl) _ _ H0) as H.
  destruct (fold_left _ _ _) as [chunks cur].
  exact (flush_represents chunks cur _ _ H).
Qed.

Lemma chunks_hold_the_trimmed_paragraphs (text : string) :
  flat_map trimmed_paragraphs (split_text_into_chunks encode text max_tokens)
  = trimmed_paragraphs text.
Proof.
  destruct (chunks_are_paragraph_runs text) as (groups & -> & Hne & Hw).
  rewrite flat_map_trimmed by exact Hw.
  unfold trimmed_paragraphs.
  now rewrite <- nonempty_map_strip, Hne, nonempty_map_strip.
Qed.

End ChunkerGroups.

(** C2. For every text and every budget, the trimmed paragraphs of the
    chunks, taken chunk after chunk in output order, are the trimmed
    paragraphs of the text in input order: no paragraph with text is lost,
    none occurs twice, and none changes place. (Paragraphs are compared
    without their outer white space, and blank paragraphs do not count.) *)
Theorem chunks_reconstruct_paragraphs
    (encode : string -> list N) (text : string) (max_tokens : Z) :
  flat_map trimmed_paragraphs (split_text_into_chunks encode text max_tokens)
  = trimmed_paragraphs text.
Proof. apply chunks_hold_the_trimmed_paragraphs. Qed.

(** ** The file tree *)

Section FileTree.
Context {vec : Type}.
Implicit Types (t : gmap (list string) (entry vec)) (p q : list string).

Lemma subtree_lookup t p q :
  subtree t p !! q = if decide (p `prefix_of` q) then t !! q else None.
Proof.
  unfold subtree. apply option_eq. intros e.
  rewrite map_lookup_filter_Some. cbn [fst].
  destruct (decide (p `prefix_of` q)) as [Hp|Hp].
  - split; [now intros [He _] | now intros He].
  - split; [now intros [_ He] | discriminate].
Qed.

Lemma pruned_lookup t p q :
  filter (fun kv : list string * entry vec => ~ p `prefix_of` kv.1) t !! q
  = if decide (p `prefix_of` q) then None else t !! q.
Proof.
  apply option_eq. intros e.
  rewrite map_lookup_filter_Some. cbn [fst].
  destruct (decide (p `prefix_of` q)) as [Hp|Hp].
  - split; [now intros [_ He] | discriminate].
  - split; [now intros [He _] | now intros He].
Qed.

Lemma is_root_false p : is_root p = false <-> p <> [] /\ p <> ["/"].
Proof.
  unfold is_root. rewrite bool_decide_eq_false. tauto.
Qed.

Lemma parent_not_root p : p <> ["/"] -> parent p = take (length p - 1) p.
Proof. intros H. unfold parent. now destruct (decide (p = ["/"])). Qed.

(** Creating the prefixes of [p] touches nothing but these prefixes. *)
Lemma mkdir_prefixes_other p n t t' q :
  mkdir_prefixes p n t = Ok t' ->
  (forall m, (1 <= m <= n)%nat -> q <> take m p) ->
  t' !! q = t !! q.
Proof.
  revert t'. induction n as [|n IH]; intros t' H Hq.
  - cbn in H. now injection H as <-.
  - cbn [mkdir_prefixes] in H.
    destruct (mkdir_prefixes p n t) as [t1|e]; [|discriminate].
    rewrite <- (IH t1 eq_refl) by (intros m Hm; apply Hq; lia).
    destruct (t1 !! take (S n) p) as [[|d]|] eqn:Hl; try discriminate.
    + now injection H as <-.
    + injection H as <-. apply lookup_insert_ne. intros Heq.
      apply (Hq (S n)); [lia | now symmetry].
Qed.

(** After it, every prefix is a directory. *)
Lemma mkdir_prefixes_dirs p n t t' m :
  mkdir_prefixes p n t = Ok t' -> (1 <= m <= n)%nat ->
  t' !! take m p = Some Dir.
Proof.
  revert t'. induction n as [|n IH]; intros t' H Hm; [lia|].
  cbn [mkdir_prefixes] in H.
  destruct (mkdir_prefixes p n t) as [t1|e]; [|discriminate].
  destruct (t1 !! take (S n) p) as [[|d]|] eqn:Hl; try discriminate.
  - injection H as <-. destruct (decide (m = S n)) as [->|Hne]; [exact Hl|].
    apply IH; [reflexivity | lia].
  - injection H as <-.
    destruct (decide (take (S n) p = take m p)) as [Heq|Hne].
    + rewrite <- Heq. apply lookup_insert_eq.
    + rewrite lookup_insert_ne by exact Hne.
      assert (m <> S n) by (intros ->; now apply Hne).
      apply IH; [reflexivity | lia].
Qed.

(** Where every prefix is a directory already, nothing is done. *)
Lemma mkdir_prefixes_present p n t :
  (forall m, (1 <= m <= n)%nat -> t !! take m p = Some Dir) ->
  mkdir_prefixes p n t = Ok t.
Proof.
  induction n as [|n IH]; intros H; [reflexivity|].
  cbn [mkdir_prefixes]. rewrite IH by (intros m Hm; apply H; lia).
  rewrite (H (S n)) by lia. reflexivity.
Qed.

End FileTree.

(** ** embed_and_store.py: rebuilding an index *)

Section StoreFacts.
Context {vec : Type} (E : Externals vec).
Implicit Types (t : gmap (list string) (entry vec)) (p q : list string).

Lemma run_rmtree p (w : world vec) :
  fs w !! p = Some Dir ->
  rmtree p w
  = (if is_root p then Raise OSError else Ok tt,
     set_fs (filter (fun kv : list string * entry vec => ~ p `prefix_of` kv.1) (fs w)) w).
Proof.
  intros H. unfold rmtree, bind, get_fs. rewrite H.
  unfold put_fs, raise, ret. now destruct (is_root p).
Qed.

Lemma run_mkdir_parents p (w : world vec) :
  mkdir_parents p w
  = match mkdir_prefixes p (length p) (fs w) with
    | Ok t' => (Ok tt, set_fs t' w)
    | Raise e => (Raise e, w)
    end.
Proof.
  unfold mkdir_parents, bind, get_fs.
  now destruct (mkdir_prefixes p (length p) (fs w)).
Qed.

Lemma run_write_file p (d : file_data vec) (w : world vec) :
  is_dir (fs w) (parent p) = true -> fs w !! p = None ->
  write_file p d w = (Ok tt, set_fs (<[p := File d]> (fs w)) w).
Proof.
  intros Hd Hp. unfold write_file, bind, get_fs. now rewrite Hd, Hp.
Qed.

(** Writing a file leaves every other entry as it was. *)
Lemma write_file_other p (d : file_data vec) (w : world vec) q :
  q <> p -> fs (snd (write_file p d w)) !! q = fs w !! q.
Proof.
  intros Hq. unfold write_file, bind, get_fs.
  destruct (negb (is_dir (fs w) (parent p))); [reflexivity|].
  destruct (fs w !! p) as [[|d']|]; cbn; try reflexivity;
    now rewrite lookup_insert_ne.
Qed.

Lemma under_not_parent_prefix p q m :
  p <> [] -> p <> ["/"] -> p `prefix_of` q -> q <> take m (parent p).
Proof.
  intros Hp Hroot Hpre ->. apply prefix_length in Hpre.
  rewrite parent_not_root, !length_take in Hpre by exact Hroot.
  destruct p; [now destruct Hp|]. cbn in Hpre. lia.
Qed.

Lemma under_not_shorter_prefix p q m :
  (m < length p)%nat -> p `prefix_of` q -> q <> take m p.
Proof.
  intros Hm Hpre ->. apply prefix_length in Hpre.
  rewrite length_take in Hpre. lia.
Qed.

Lemma parent_snoc p (x : string) : x <> "/" -> parent (p ++ [x]) = p.
Proof.
  intros Hx. rewrite parent_not_root.
  - rewrite length_app. cbn [length]. replace (length p + 1 - 1)%nat with (length p) by lia.
    now rewrite take_app_length.
  - destruct p as [|a [|b p]]; cbn; congruence.
Qed.

Lemma snoc_neq p (x : string) : (p ++ [x])%list <> p.
Proof.
  intros H. apply (f_equal length) in H. rewrite length_app in H. cbn in H. lia.
Qed.

Lemma meta_path_not_under p q :
  p <> [] -> p <> ["/"] -> p `prefix_of` q ->
  q <> (parent p ++ [name p +:+ "_meta.txt"])%list.
Proof.
  intros Hne Hroot Hpre ->.
  assert (Hlen : length (parent p ++ [name p +:+ "_meta.txt"]) = length p).
  { rewrite length_app, parent_not_root, length_take by exact Hroot.
    destruct p; [now destruct Hne|]. cbn [length]. lia. }
  destruct Hpre as [k Hk].
  assert (k = []) as ->.
  { apply (f_equal length) in Hk. rewrite Hlen, length_app in Hk.
    destruct k; [reflexivity | cbn in Hk; lia]. }
  rewrite app_nil_r in Hk.
  assert (Hlast : last p = Some (name p +:+ "_meta.txt")).
  { rewrite <- Hk at 1. apply last_snoc. }
  unfold name in Hlast. destruct (decide (p = ["/"])); [contradiction|].
  destruct (last p) as [l|]; [|discriminate]. cbn in Hlast.
  injection Hlast as Hl. apply (f_equal String.length) in Hl.
  rewrite app_length_str in Hl. cbn in Hl. lia.
Qed.

End StoreFacts.

Ltac paths_differ :=
  let Heq := fresh "Heq" in
  intros Heq;
  first [ now apply snoc_neq in Heq
        | symmetry in Heq; now apply snoc_neq in Heq
        | apply app_inv_head in Heq; discriminate ].


Section Rebuild.
Context {vec : Type} (E : Externals vec).
Implicit Types (t : gmap (list string) (entry vec)) (p q : list string).

Lemma run_path_exists p (w : world vec) :
  path_exists p w = (Ok (is_root p || bool_decide (is_Some (fs w !! p))), w).
Proof. reflexivity. Qed.

(** The tree under [p] after the old tree was removed, the directories
    above [p] were made, and a fresh index was saved at [p]. *)
Lemma saved_index_tree p t1 t2 :
  p <> [] -> p <> ["/"] ->
  (forall q, p `prefix_of` q -> t1 !! q = None) ->
  mkdir_prefixes (parent p) (length (parent p)) t1 = Ok t2 ->
  mkdir_prefixes p (length p) t2 = Ok (<[p := Dir]> t2)
  /\ (forall q, p `prefix_of` q -> t2 !! q = None).
Proof.
  intros Hne Hroot Hgone Hmk.
  assert (Hunder : forall q, p `prefix_of` q -> t2 !! q = None).
  { intros q Hq. rewrite (mkdir_prefixes_other _ _ _ _ q Hmk); [now apply Hgone|].
    intros m _. now apply under_not_parent_prefix. }
  split; [|exact Hunder].
  destruct (length p) as [|k] eqn:Hlen; [now destruct p|].
  cbn [mkdir_prefixes].
  rewrite mkdir_prefixes_present.
  - rewrite (take_ge p (S k)) by lia. now rewrite Hunder.
  - intros m Hm.
    replace (take m p) with (take m (parent p)).
    + apply (mkdir_prefixes_dirs _ _ _ _ _ Hmk).
      rewrite parent_not_root, length_take by exact Hroot. lia.
    + rewrite parent_not_root by exact Hroot. rewrite take_take. f_equal. lia.
Qed.

Lemma store_in_faiss_cases (chunks : list string) (index_dir : string) (w : world vec) :
  fs w !! Path index_dir = Some Dir ->
  (exists e t,
      store_in_faiss E chunks index_dir w = (Raise e, set_fs t w)
      /\ forall q, Path index_dir `prefix_of` q -> t !! q = None)
  \/ (exists vectors t,
        embed_documents E chunks = Some vectors
        /\ Path index_dir <> [] /\ Path index_dir <> ["/"]
        /\ store_in_faiss E chunks index_dir w
           = write_file (parent (Path index_dir) ++ [name (Path index_dir) +:+ "_meta.txt"])
                        (TextFile (meta_text chunks)) (set_fs t w)
        /\ forall q, Path index_dir `prefix_of` q ->
             t !! q = index_files (Path index_dir) (Build_vectorstore chunks vectors) !! q).
Proof.
  intros Hdir. unfold store_in_faiss. set (P := Path index_dir) in *.
  unfold bind. rewrite run_path_exists.
  replace (is_root P || bool_decide (is_Some (fs w !! P))) with true
    by (rewrite Hdir, bool_decide_eq_true_2 by eauto; now rewrite orb_true_r).
  rewrite (run_rmtree P w Hdir).
  set (t1 := filter (fun kv : list string * entry vec => ~ P `prefix_of` kv.1) (fs w)).
  assert (Hgone : forall q, P `prefix_of` q -> t1 !! q = None).
  { intros q Hq. unfold t1. rewrite pruned_lookup. now destruct (decide (P `prefix_of` q)). }
  destruct (is_root P) eqn:Hroot.
  { left. now exists OSError, t1. }
  apply is_root_false in Hroot as [Hne Hnr].
  rewrite run_mkdir_parents. cbn [fs set_fs].
  destruct (mkdir_prefixes (parent P) (length (parent P)) t1) as [t2|e] eqn:Hmk.
  2:{ left. now exists e, t1. }
  destruct (saved_index_tree P t1 t2 Hne Hnr Hgone Hmk) as [Hmk2 Hunder].
  unfold FAISS_from_texts.
  destruct (embed_documents E chunks) as [[|v vectors]|] eqn:Hemb;
    try (left; eexists _, t2; split; [reflexivity | exact Hunder]).
  right. exists (v :: vectors). 
  unfold ret, FAISS_save_local, bind. fold P.
  rewrite run_mkdir_parents. cbn [fs set_fs]. rewrite Hmk2.
  rewrite run_write_file.
  2:{ rewrite parent_snoc by discriminate. unfold is_dir. cbn [fs set_fs].
      now rewrite lookup_insert_eq, orb_true_r. }
  2:{ cbn [fs set_fs]. rewrite lookup_insert_ne by paths_differ.
      apply Hunder. now apply prefix_app_r. }
  cbn [vs_vectors vs_texts fs set_fs]. rewrite run_write_file.
  2:{ rewrite parent_snoc by discriminate. unfold is_dir. cbn [fs set_fs].
      rewrite lookup_insert_ne by paths_differ.
      now rewrite lookup_insert_eq, orb_true_r. }
  2:{ cbn [fs set_fs].
      rewrite lookup_insert_ne by paths_differ.
      rewrite lookup_insert_ne by paths_differ.
      apply Hunder. now apply prefix_app_r. }
  cbn [fs set_fs].
  eexists. split; [reflexivity|]. split; [exact Hne|]. split; [exact Hnr|].
  split; [reflexivity|].
  intros q Hq. unfold index_files. cbn [vs_vectors vs_texts].
  rewrite !lookup_insert.
  repeat (destruct (decide _); [reflexivity|]).
  destruct (decide (P = q)) as [<-|Hpq].
  - now rewrite lookup_singleton_eq.
  - rewrite lookup_singleton_ne by exact Hpq. apply Hunder, Hq.
Qed.

End Rebuild.

Section RebuildTheorem.
Context {vec : Type} (E : Externals vec).
Implicit Types (t : gmap (list string) (entry vec)) (p q : list string).

Lemma index_files_under p (v : vectorstore vec) q (e : entry vec) :
  index_files p v !! q = Some e -> p `prefix_of` q.
Proof.
  unfold index_files. rewrite !lookup_insert.
  destruct (decide (p ++ ["index.pkl"] = q)) as [<-|_]; [intros _; now apply prefix_app_r|].
  destruct (decide (p ++ ["index.faiss"] = q)) as [<-|_]; [intros _; now apply prefix_app_r|].
  intros H. apply lookup_singleton_Some in H as [<- _]. reflexivity.
Qed.

Lemma subtree_index_files p t (v : vectorstore vec) :
  (forall q, p `prefix_of` q -> t !! q = index_files p v !! q) ->
  subtree t p = index_files p v.
Proof.
  intros H. apply map_eq. intros q. rewrite subtree_lookup.
  destruct (decide (p `prefix_of` q)) as [Hq|Hq]; [now apply H|].
  destruct (index_files p v !! q) eqn:Hl; [|reflexivity].
  apply index_files_under in Hl. contradiction.
Qed.

Lemma subtree_empty p t :
  (forall q, p `prefix_of` q -> t !! q = None) -> subtree t p = ∅.
Proof.
  intros H. apply map_eq. intros q. rewrite subtree_lookup, lookup_empty.
  destruct (decide (p `prefix_of` q)); [now apply H | reflexivity].
Qed.

Lemma load_saved_index (index_dir : string) (v : vectorstore vec) (w : world vec) :
  (forall q, Path index_dir `prefix_of` q ->
             fs w !! q = index_files (Path index_dir) v !! q) ->
  FAISS_load_local index_dir w = (Ok (Build_vectorstore (vs_texts v) (vs_vectors v)), w).
Proof.
  intros H. unfold FAISS_load_local, bind, get_fs.
  rewrite !H by now apply prefix_app_r.
  unfold index_files. rewrite lookup_insert_ne by paths_differ.
  now rewrite !lookup_insert_eq.
Qed.

Lemma rebuilt_index_tree (chunks : list string) (index_dir : string) (w : world vec) :
  fs w !! Path index_dir = Some Dir ->
  (subtree (fs (snd (store_in_faiss E chunks index_dir w))) (Path index_dir) = ∅
   \/ exists vectors,
       embed_documents E chunks = Some vectors
       /\ subtree (fs (snd (store_in_faiss E chunks index_dir w))) (Path index_dir)
          = index_files (Path index_dir) (Build_vectorstore chunks vectors))
  /\ (fst (store_in_faiss E chunks index_dir w) = Ok tt ->
      exists vectors,
        embed_documents E chunks = Some vectors
        /\ FAISS_load_local index_dir (snd (store_in_faiss E chunks index_dir w))
           = (Ok (Build_vectorstore chunks vectors),
              snd (store_in_faiss E chunks index_dir w))).
Proof.
  intros Hdir.
  destruct (store_in_faiss_cases E chunks index_dir w Hdir)
    as [(e & t & -> & Hnone) | (vectors & t & Hemb & Hne & Hnr & -> & Hnew)].
  - cbn [fst snd fs set_fs]. split; [|discriminate].
    left. now apply subtree_empty.
  - assert (Hfinal : forall q, Path index_dir `prefix_of` q ->
             fs (snd (write_file
                        (parent (Path index_dir) ++ [name (Path index_dir) +:+ "_meta.txt"])
                        (TextFile (meta_text chunks)) (set_fs t w))) !! q
             = index_files (Path index_dir) (Build_vectorstore chunks vectors) !! q).
    { intros q Hq. rewrite write_file_other by now apply meta_path_not_under.
      now apply Hnew. }
    split.
    + right. exists vectors. split; [exact Hemb|]. now apply subtree_index_files.
    + intros _. exists vectors. split; [exact Hemb|].
      exact (load_saved_index index_dir (Build_vectorstore chunks vectors) _ Hfinal).
Qed.

End RebuildTheorem.

(** ** What the file operations leave alone *)

Section Frames.
Context {vec : Type} (E : Externals vec).

Lemma preserves_ret {A X} (f : world vec -> X) (a : A) : preserves f (ret a).
Proof. now intros w. Qed.

Lemma preserves_raise {A X} (f : world vec -> X) (e : exn) :
  preserves f (raise e : M vec A).
Proof. now intros w. Qed.

Lemma preserves_bind {A B X} (f : world vec -> X) (m : M vec A) (k : A -> M vec B) :
  preserves f m -> (forall a, preserves f (k a)) -> preserves f (bind m k).
Proof.
  intros Hm Hk w. unfold bind. specialize (Hm w).
  destruct (m w) as [[a|e] w']; cbn [snd] in *; [|exact Hm].
  now rewrite Hk.
Qed.

Lemma preserves_try_except {A X} (f : world vec -> X) (m : M vec A) (h : exn -> M vec A) :
  preserves f m -> (forall e, preserves f (h e)) -> preserves f (try_except m h).
Proof.
  intros Hm Hh w. unfold try_except. specialize (Hm w).
  destruct (m w) as [[a|e] w']; cbn [snd] in *; [exact Hm|].
  now rewrite Hh.
Qed.

Lemma preserves_get_fs {X} (f : world vec -> X) : preserves f get_fs.
Proof. now intros w. Qed.

Lemma cache_put_fs t : preserves cache (put_fs t : M vec unit).
Proof. now intros w. Qed.

Lemma cache_put_session n b : preserves cache (put_session n b : M vec unit).
Proof. now intros w. Qed.

Lemma cache_path_exists p : preserves cache (path_exists p : M vec bool).
Proof. now intros w. Qed.

Lemma cache_rmtree p : preserves cache (rmtree p : M vec unit).
Proof.
  apply preserves_bind; [apply preserves_get_fs|]. intros t.
  destruct (t !! p) as [[|d]|]; try apply preserves_raise;
    (apply preserves_bind; [apply cache_put_fs|]; intros _;
     destruct (is_root p); [apply preserves_raise | apply preserves_ret]).
Qed.

Lemma cache_mkdir_parents p : preserves cache (mkdir_parents p : M vec unit).
Proof.
  apply preserves_bind; [apply preserves_get_fs|]. intros t.
  destruct (mkdir_prefixes p (length p) t); [apply cache_put_fs | apply preserves_raise].
Qed.

Lemma cache_write_file p (d : file_data vec) : preserves cache (write_file p d).
Proof.
  apply preserves_bind; [apply preserves_get_fs|]. intros t.
  destruct (negb (is_dir t (parent p))); [apply preserves_raise|].
  destruct (t !! p) as [[|d']|]; first [apply preserves_raise | apply cache_put_fs].
Qed.

Lemma cache_store_in_faiss chunks index_dir :
  preserves cache (store_in_faiss E chunks index_dir).
Proof.
  unfold store_in_faiss.
  apply preserves_bind; [apply cache_path_exists|]. intros ex.
  apply preserves_bind; [destruct ex; [apply cache_rmtree | apply preserves_ret]|]. intros _.
  apply preserves_bind; [apply cache_mkdir_parents|]. intros _.
  apply preserves_bind.
  { unfold FAISS_from_texts. destruct (embed_documents E chunks) as [[|v l]|];
      first [apply preserves_raise | apply preserves_ret]. }
  intros v. apply preserves_bind; [|intros _; apply cache_write_file].
  unfold FAISS_save_local.
  apply preserves_bind; [apply cache_mkdir_parents|]. intros _.
  apply preserves_bind; [apply cache_write_file|]. intros _. apply cache_write_file.
Qed.

Lemma cache_process_uploaded_file file_name file_bytes :
  preserves cache (process_uploaded_file E file_name file_bytes).
Proof.
  unfold process_uploaded_file.
  apply preserves_try_except; [|intros e; apply preserves_ret].
  destruct (negb (truthy (transcribe_audio E file_bytes))); [apply preserves_ret|].
  apply preserves_bind; [apply cache_store_in_faiss|]. intros _.
  apply preserves_bind; [apply cache_put_session|]. intros _. apply preserves_ret.
Qed.

End Frames.

(** ** chatbot_app.py: loading and querying *)

Section Loading.
Context {vec : Type} (E : Externals vec).

(** A name found in the memo table is answered from the table. *)
Lemma load_vectorstore_cached (name : string) (r : option (vectorstore vec))
    (w : world vec) :
  cache w !! name = Some r -> load_vectorstore name w = (Ok r, w).
Proof.
  intros H. unfold load_vectorstore, bind, get_cache. now rewrite H.
Qed.

(** With a handle in hand, every answer carries sources retrieved from that
    handle. *)
Lemma process_query_sources (query name : string) (h : vectorstore vec)
    (w w' : world vec) (r : response) :
  cache w !! name = Some (Some h) ->
  process_query E query name w = (Ok r, w') ->
  sources r
  = get_relevant_documents E h
      (if is_report_query query
       then "patient summary, diagnosis and medications" else query).
Proof.
  intros Hc. unfold process_query. unfold bind at 1.
  rewrite (load_vectorstore_cached name _ w Hc).
  destruct (is_report_query query).
  - unfold bind at 1.
    match goal with |- context [call_llm E ?m w] => destruct (call_llm E m w) as [[resp|e] w1] end;
      [|discriminate].
    destruct (parse_report resp) as [[diagnosis meds]|e]; [|discriminate].
    unfold bind at 1.
    destruct (generate_pdf _ _ _ _ w1) as [[path|e] w2]; [|discriminate].
    unfold ret. now intros [= <- _].
  - unfold bind at 1.
    match goal with |- context [call_llm E ?m w] => destruct (call_llm E m w) as [[resp|e] w1] end;
      [|discriminate].
    unfold ret. now intros [= <- _].
Qed.

End Loading.

Section NotFound.
Context {vec : Type} (E : Externals vec).

(** The path of an index begins with the store directory. *)
Lemma Path_faiss_store (name : string) :
  Path ("faiss_store/" +:+ name)
  = "faiss_store" :: filter (fun c => c <> "" /\ c <> ".") (split name "/").
Proof.
  unfold Path.
  change ("faiss_store/" +:+ name) with ("faiss_store" +:+ "/" +:+ name).
  rewrite split_first; [|discriminate|now apply no_early_match_unbordered].
  reflexivity.
Qed.

Lemma index_path_not_root (name : string) :
  is_root (Path ("faiss_store/" +:+ name)) = false.
Proof. rewrite Path_faiss_store. apply is_root_false. split; discriminate. Qed.

Lemma load_vectorstore_absent (name : string) (w : world vec) :
  fs w !! Path ("faiss_store/" +:+ name) = None ->
  cache w !! name = None ->
  load_vectorstore name w = (Ok None, set_cache (<[name := None]> (cache w)) w).
Proof.
  intros Hfs Hc. unfold load_vectorstore, bind, get_cache. rewrite Hc.
  unfold load_vectorstore_body, bind. rewrite run_path_exists.
  rewrite index_path_not_root, Hfs. reflexivity.
Qed.

Lemma query_not_found (query name : string) (w : world vec) :
  fs w !! Path ("faiss_store/" +:+ name) = None ->
  (forall h, cache w !! name <> Some (Some h)) ->
  exists w',
    load_vectorstore name w = (Ok None, w')
    /\ process_query E query name w = (Ok (ErrorResponse no_index_message []), w')
    /\ llm_log w' = llm_log w
    /\ fs w' = fs w.
Proof.
  intros Hfs Hc. destruct (cache w !! name) as [[h|]|] eqn:Hl.
  - now destruct (Hc h).
  - exists w. unfold process_query, bind.
    rewrite (load_vectorstore_cached name None w Hl). now repeat split.
  - exists (set_cache (<[name := None]> (cache w)) w). unfold process_query, bind.
    rewrite (load_vectorstore_absent name w Hfs Hl). now repeat split.
Qed.

End NotFound.

(** C9, evaluated. Once a handle for a name is in the memo table, an upload
    that rebuilds the index of that name leaves the table as it was:
    the loader goes on returning the handle of before the rebuild, and
    every answer carries sources retrieved from that handle. *)
Theorem stale_handle_after_rebuild {vec : Type} (E : Externals vec)
    (file_name file_bytes : string) (h : vectorstore vec) (w : world vec) :
  cache w !! replace (replace file_name ".mp3" "") " " "_" = Some (Some h) ->
  load_vectorstore (replace (replace file_name ".mp3" "") " " "_")
                   (snd (process_uploaded_file E file_name file_bytes w))
  = (Ok (Some h), snd (process_uploaded_file E file_name file_bytes w))
  /\ forall query r w',
      process_query E query (replace (replace file_name ".mp3" "") " " "_")
                    (snd (process_uploaded_file E file_name file_bytes w))
      = (Ok r, w') ->
      sources r
      = get_relevant_documents E h
          (if is_report_query query
           then "patient summary, diagnosis and medications" else query).
Proof.
  intros Hc.
  assert (Hc' : cache (snd (process_uploaded_file E file_name file_bytes w))
                !! replace (replace file_name ".mp3" "") " " "_" = Some (Some h)).
  { now rewrite cache_process_uploaded_file. }
  split.
  - now apply load_vectorstore_cached.
  - intros query r w'. now apply process_query_sources.
Qed.

Lemma stale_handle_after_rebuild_witness :
  cache world_after_query !! "a_b" = Some (Some (Build_vectorstore ["old text"] [8%nat]))
  /\ fst (process_uploaded_file sample_externals "a b.mp3" "new text" world_after_query)
     = Ok true
  /\ fst (FAISS_load_local "faiss_store/a_b"
            (snd (process_uploaded_file sample_externals "a b.mp3" "new text"
                                        world_after_query)))
     = Ok (Build_vectorstore ["new text"] [8%nat])
  /\ fst (load_vectorstore "a_b"
            (snd (process_uploaded_file sample_externals "a b.mp3" "new text"
                                        world_after_query)))
     = Ok (Some (Build_vectorstore ["old text"] [8%nat])).
Proof.
  split; [reflexivity|]. split; [reflexivity|]. split; [reflexivity|].
  exact (f_equal fst
           (proj1 (stale_handle_after_rebuild sample_externals "a b.mp3" "new text"
                     (Build_vectorstore ["old text"] [8%nat]) world_after_query eq_refl))).
Defined.

(** ** Sessions in which a name never had an index *)

Section NeverIndexed.
Context {vec : Type} (E : Externals vec).

Lemma cache_log_llm messages : preserves cache (log_llm messages : M vec unit).
Proof. now intros w. Qed.

Lemma cache_call_llm messages : preserves cache (call_llm E messages).
Proof.
  apply preserves_bind; [apply cache_log_llm|]. intros _.
  destruct (llm E messages); [apply preserves_ret | apply preserves_raise].
Qed.

Lemma cache_generate_pdf title diagnosis medications filename :
  preserves cache (generate_pdf title diagnosis medications filename : M vec string).
Proof.
  apply preserves_bind; [apply cache_mkdir_parents|]. intros _.
  apply preserves_bind; [apply cache_write_file|]. intros _. apply preserves_ret.
Qed.

Lemma cache_load_body name : preserves cache (load_vectorstore_body name : M vec _).
Proof.
  apply preserves_bind; [apply cache_path_exists|]. intros ex.
  destruct (negb ex); [apply preserves_ret|].
  apply preserves_bind; [|intros v; apply preserves_ret].
  apply preserves_bind; [apply preserves_get_fs|]. intros t.
  repeat (first [apply preserves_ret | apply preserves_raise
                | match goal with
                  | |- context [match ?x with _ => _ end] => destruct x
                  end]).
Qed.

(** The loader adds a handle for a name only by loading an index stored
    under that name. *)
Lemma load_keeps_no_handle (n name : string) (w : world vec) :
  index_absent name w -> no_handle name w ->
  no_handle name (snd (load_vectorstore n w)).
Proof.
  intros Habs Hno. destruct (cache w !! n) as [r|] eqn:Hn.
  { now rewrite (load_vectorstore_cached n r w Hn). }
  destruct (decide (n = name)) as [->|Hne].
  - rewrite (load_vectorstore_absent name w Habs Hn). intros h.
    cbn [snd cache set_cache]. now rewrite lookup_insert_eq.
  - unfold load_vectorstore, bind, get_cache, put_cache, ret. rewrite Hn.
    pose proof (cache_load_body n w) as Hc.
    destruct (load_vectorstore_body n w) as [[r|e] w1]; cbn [snd] in *.
    + intros h. cbn [snd cache set_cache].
      rewrite lookup_insert_ne by exact Hne. rewrite Hc. apply Hno.
    + intros h. rewrite Hc. apply Hno.
Qed.

Lemma query_keeps_no_handle (query n name : string) (w : world vec) :
  index_absent name w -> no_handle name w ->
  no_handle name (snd (process_query E query n w)).
Proof.
  intros Habs Hno. pose proof (load_keeps_no_handle n name w Habs Hno) as Hl.
  unfold process_query, bind at 1.
  destruct (load_vectorstore n w) as [[[v|]|e] w1]; cbn [snd] in *; try exact Hl.
  intros h.
  assert (Hp : forall (m : M vec response), preserves cache m ->
                 cache (snd (m w1)) !! name <> Some (Some h)).
  { intros m Hm. rewrite Hm. apply Hl. }
  apply Hp. destruct (is_report_query query).
  - apply preserves_bind; [apply cache_call_llm|]. intros resp.
    destruct (parse_report resp) as [[diagnosis meds]|e]; [|apply preserves_raise].
    apply preserves_bind; [apply cache_generate_pdf|]. intros path. apply preserves_ret.
  - apply preserves_bind; [apply cache_call_llm|]. intros answer. apply preserves_ret.
Qed.

(** In a process where the name never had an index, the memo table holds
    no handle for it. *)
Lemma never_indexed_no_handle (name : string) (w : world vec) :
  never_indexed E name w -> no_handle name w.
Proof.
  induction 1 as [w H | ev w _ IH Habs].
  - intros h. now rewrite H, lookup_empty.
  - destruct ev as [file_name file_bytes | query n]; cbn [run_event].
    + intros h. rewrite cache_process_uploaded_file. apply IH.
    + now apply query_keeps_no_handle.
Qed.

(** Hence every question against such a name gets the error response. *)
Lemma never_indexed_query (query name : string) (w : world vec) :
  never_indexed E name w -> index_absent name w ->
  fst (process_query E query name w) = Ok (ErrorResponse no_index_message []).
Proof.
  intros Hn Habs.
  destruct (query_not_found E query name w Habs (never_indexed_no_handle name w Hn))
    as (w' & _ & -> & _).
  reflexivity.
Qed.

End NeverIndexed.

(** ** A further fact about the router *)

Section Complements.
Context {vec : Type} (E : Externals vec).

(** The type of a response tells which branch produced it. *)
Lemma response_type_follows_test (query name : string) (w w' : world vec)
    (r : response) :
  process_query E query name w = (Ok r, w') ->
  match r with
  | ErrorResponse _ _ => True
  | ReportResponse _ _ _ => is_report_query query = true
  | ChatResponse _ _ => is_report_query query = false
  end.
Proof.
  unfold process_query. unfold bind at 1.
  destruct (load_vectorstore name w) as [[[v|]|e] w1]; [| |discriminate].
  - destruct (is_report_query query).
    + unfold bind at 1.
      match goal with
      | |- context [call_llm E ?m w1] => destruct (call_llm E m w1) as [[resp|e] w2]
      end; [|discriminate].
      destruct (parse_report resp) as [[diagnosis meds]|e]; [|discriminate].
      unfold bind at 1.
      destruct (generate_pdf _ _ _ _ w2) as [[path|e] w3]; [|discriminate].
      unfold ret. now intros [= <- _].
    + unfold bind at 1.
      match goal with
      | |- context [call_llm E ?m w1] => destruct (call_llm E m w1) as [[resp|e] w2]
      end; [|discriminate].
      unfold ret. now intros [= <- _].
  - unfold ret. now intros [= <- _].
Qed.

End Complements.

(** ** Reading back what was rebuilt, in a process that has no handle yet *)

Section FreshLoad.
Context {vec : Type} (E : Externals vec).

Lemma split_slash_pieces (s : string) :
  Forall (fun p => contains "/" p = false) (split s "/").
Proof.
  unfold split. induction s as [|c s IH]; [now repeat constructor|].
  cbn [split_go]. destruct (startswith (String c s) "/") eqn:Hs.
  - constructor; [reflexivity | exact IH].
  - pose proof (split_go_nonempty "/" 0 s) as Hne.
    destruct (split_go "/" 0 s) as [|p ps]; [now destruct Hne|].
    apply Forall_cons in IH as [Hp Hps]. cbn [cons_head].
    constructor; [|exact Hps]. cbn [contains]. rewrite Hp, orb_false_r.
    destruct (startswith (String c p) "/") eqn:Hcp; [|reflexivity].
    apply startswith_cons in Hcp as [-> _].
    assert (startswith (String "/" s) "/" = true); [|congruence].
    apply startswith_cons. split; [reflexivity | now destruct s].
Qed.

Lemma split_join_slash (comps : list string) :
  comps <> [] -> Forall (fun p => contains "/" p = false) comps ->
  split (join "/" comps) "/" = comps.
Proof.
  induction comps as [|p comps IH]; intros Hne Hall; [now destruct Hne|].
  apply Forall_cons in Hall as [Hp Hall]. destruct comps as [|q comps].
  - now apply split_no_occurrence.
  - rewrite join_cons by done.
    rewrite split_first; [|done|now apply no_early_match_unbordered].
    now rewrite IH.
Qed.

Lemma Path_path_str_index (name : string) :
  Path (path_str (Path ("faiss_store/" +:+ name))) = Path ("faiss_store/" +:+ name).
Proof.
  rewrite Path_faiss_store.
  set (comps := filter (fun c => c <> "" /\ c <> ".") (split name "/")).
  assert (Hall : Forall (fun p => contains "/" p = false) ("faiss_store" :: comps)).
  { constructor; [reflexivity|]. unfold comps. apply Forall_forall.
    intros p Hp. apply list_elem_of_filter in Hp as [_ Hp]. revert p Hp.
    apply Forall_forall, split_slash_pieces. }
  unfold path_str.
  change (match "faiss_store" :: comps with
          | "/" :: q => "/" +:+ join "/" q
          | _ => join "/" ("faiss_store" :: comps)
          end) with (join "/" ("faiss_store" :: comps)).
  unfold Path.
  assert (Hstart : startswith (join "/" ("faiss_store" :: comps)) "/" = false).
  { destruct comps; [reflexivity|]. now rewrite join_cons. }
  rewrite Hstart, split_join_slash by (done || exact Hall).
  cbn [app]. rewrite filter_cons.
  destruct (decide ("faiss_store" <> "" /\ "faiss_store" <> ".")) as [_|Hn];
    [|destruct Hn; split; discriminate].
  f_equal. unfold comps. apply list_filter_filter_l. auto.
Qed.

(** After a rebuild that returned, a loader that holds no entry for the name
    reads the new index: the handle it returns has exactly the new chunks. *)
Lemma fresh_load_after_rebuild (chunks : list string) (name : string) (w : world vec) :
  fs w !! Path ("faiss_store/" +:+ name) = Some Dir ->
  cache w !! name = None ->
  fst (store_in_faiss E chunks ("faiss_store/" +:+ name) w) = Ok tt ->
  exists vectors,
    fst (load_vectorstore name (snd (store_in_faiss E chunks ("faiss_store/" +:+ name) w)))
    = Ok (Some (Build_vectorstore chunks vectors)).
Proof.
  intros Hdir Hc Hok.
  set (w' := snd (store_in_faiss E chunks ("faiss_store/" +:+ name) w)) in *.
  set (P := Path ("faiss_store/" +:+ name)) in *.
  destruct (store_in_faiss_cases E chunks ("faiss_store/" +:+ name) w Hdir)
    as [(e & t & Heq & _) | (vectors & t & Hemb & Hne & Hnr & Heq & Hnew)].
  { rewrite Heq in Hok. discriminate. }
  exists vectors.
  assert (Hfinal : forall q, P `prefix_of` q ->
             fs w' !! q = index_files P (Build_vectorstore chunks vectors) !! q).
  { intros q Hq. unfold w'. rewrite Heq.
    rewrite write_file_other by now apply meta_path_not_under.
    now apply Hnew. }
  assert (Hcache : cache w' !! name = None).
  { unfold w'. now rewrite cache_store_in_faiss. }
  unfold load_vectorstore, bind, get_cache. rewrite Hcache.
  unfold load_vectorstore_body, bind. rewrite run_path_exists. fold P.
  assert (HP : fs w' !! P = Some Dir).
  { rewrite Hfinal by reflexivity. unfold index_files.
    rewrite !lookup_insert_ne by paths_differ. apply lookup_singleton_eq. }
  rewrite HP, bool_decide_eq_true_2, orb_true_r by eauto. cbn [negb].
  rewrite (load_saved_index (path_str P) (Build_vectorstore chunks vectors) w').
  - reflexivity.
  - unfold P. rewrite Path_path_str_index. exact Hfinal.
Qed.

End FreshLoad.


(** ** More on the chunker *)

Section ChunkerMore.
Variable encode : string -> list N.
Variable max_tokens : Z.

Lemma strip_idem (s : string) : strip (strip s) = strip s.
Proof.
  unfold strip. now rewrite lstrip_rstrip, lstrip_idem, rstrip_idem.
Qed.

Lemma chunks_trimmed (text : string) :
  Forall (fun c => strip c = c) (split_text_into_chunks encode text max_tokens).
Proof.
  eapply Forall_impl; [apply (chunks_trimmed_from_budgeted encode text max_tokens)|].
  intros c (acc & -> & _). apply strip_idem.
Qed.

Lemma flush_count (chunks : list string) (cur : string) :
  length (flush chunks cur) = (length chunks + if truthy cur then 1 else 0)%nat.
Proof.
  unfold flush. destruct (truthy cur); [|lia].
  rewrite length_app. reflexivity.
Qed.

Lemma loop_count (paras chunks : list string) (cur : string) :
  (length (flush (fst (fold_left (step encode max_tokens) paras (chunks, cur)))
                 (snd (fold_left (step encode max_tokens) paras (chunks, cur))))
   <= length (flush chunks cur) + length paras)%nat.
Proof.
  revert chunks cur. induction paras as [|para paras IH]; intros chunks cur.
  - cbn [fold_left fst snd length]. lia.
  - cbn [fold_left step length].
    destruct (num_tokens encode (cur +:+ nlnl +:+ para) >? max_tokens).
    + etransitivity; [apply IH|]. rewrite (flush_count _ para).
      destruct (truthy para); lia.
    + etransitivity; [apply IH|]. rewrite !flush_count.
      destruct (truthy cur), (truthy (cur +:+ nlnl +:+ para)); lia.
Qed.

Lemma chunk_count (text : string) :
  (length (split_text_into_chunks encode text max_tokens)
   <= length (split text nlnl))%nat.
Proof.
  unfold split_text_into_chunks.
  pose proof (loop_count (split text nlnl) [] "") as H.
  destruct (fold_left _ _ _) as [chunks cur]. exact H.
Qed.

Lemma flush_as_nonempty (chunks : list string) (cur : string) :
  flush chunks cur = chunks ++ map strip (nonempty [cur]).
Proof.
  unfold flush. destruct cur as [|c cur]; cbn [truthy].
  - rewrite nonempty_cons_empty. cbn. now rewrite app_nil_r.
  - now rewrite nonempty_cons_text.
Qed.

Lemma loop_negative_budget (paras chunks : list string) (cur : string) :
  max_tokens < 0 ->
  flush (fst (fold_left (step encode max_tokens) paras (chunks, cur)))
        (snd (fold_left (step encode max_tokens) paras (chunks, cur)))
  = chunks ++ map strip (nonempty (cur :: paras)).
Proof.
  intros Hneg. revert chunks cur.
  induction paras as [|para paras IH]; intros chunks cur.
  - apply flush_as_nonempty.
  - cbn [fold_left step].
    replace (num_tokens encode (cur +:+ nlnl +:+ para) >? max_tokens) with true
      by (symmetry; apply Z.gtb_lt; unfold num_tokens; lia).
    rewrite IH, flush_as_nonempty, <- app_assoc, <- map_app. f_equal. f_equal.
    symmetry. apply nonempty_cons.
Qed.

Lemma negative_budget_chunks (text : string) :
  max_tokens < 0 ->
  split_text_into_chunks encode text max_tokens
  = map strip (nonempty (split text nlnl)).
Proof.
  intros Hneg. unfold split_text_into_chunks.
  pose proof (loop_negative_budget (split text nlnl) [] "" Hneg) as H.
  destruct (fold_left _ _ _) as [chunks cur]. cbn [fst snd] in H.
  now rewrite H, nonempty_cons_empty.
Qed.

Lemma strip_after_separator (s : string) : strip (nlnl +:+ s) = strip s.
Proof. unfold strip. now rewrite lstrip_app. Qed.

Lemma loop_all_fit (rest done : list string) :
  done <> [] ->
  (forall k, (1 <= k <= length rest)%nat ->
             num_tokens encode (nlnl +:+ join nlnl (done ++ take k rest)) <= max_tokens) ->
  fold_left (step encode max_tokens) rest ([], nlnl +:+ join nlnl done)
  = ([], nlnl +:+ join nlnl (done ++ rest)).
Proof.
  revert done. induction rest as [|para rest IH]; intros done Hne Hfit.
  - now rewrite app_nil_r.
  - cbn [fold_left step].
    assert (Hcand : (nlnl +:+ join nlnl done) +:+ nlnl +:+ para
                    = nlnl +:+ join nlnl (done ++ [para])).
    { rewrite join_snoc by exact Hne. now rewrite app_assoc_str. }
    rewrite Hcand.
    replace (num_tokens encode (nlnl +:+ join nlnl (done ++ [para])) >? max_tokens)
      with false.
    + rewrite IH.
      * now rewrite <- app_assoc.
      * now destruct done.
      * intros k Hk. rewrite <- app_assoc. apply (Hfit (S k)). cbn [length]. lia.
    + symmetry. rewrite Z.gtb_ltb. apply Z.ltb_ge. apply (Hfit 1%nat). cbn [length]. lia.
Qed.

Lemma all_fit_one_chunk (text : string) :
  (forall k, (1 <= k <= length (split text nlnl))%nat ->
             num_tokens encode (nlnl +:+ join nlnl (take k (split text nlnl)))
             <= max_tokens) ->
  split_text_into_chunks encode text max_tokens = [strip text].
Proof.
  intros Hfit. unfold split_text_into_chunks.
  pose proof (join_split text nlnl) as Hjoin.
  destruct (split text nlnl) as [|p rest] eqn:Hsp;
    [now apply split_go_nonempty in Hsp|].
  cbn [fold_left step].
  change ("" +:+ nlnl +:+ p) with (nlnl +:+ join nlnl [p]).
  replace (num_tokens encode (nlnl +:+ join nlnl [p]) >? max_tokens) with false
    by (symmetry; rewrite Z.gtb_ltb; apply Z.ltb_ge; apply (Hfit 1%nat); cbn [length]; lia).
  rewrite loop_all_fit.
  - cbn [app]. rewrite Hjoin by done. unfold flush.
    change (truthy (nlnl +:+ text)) with true. cbn [app].
    now rewrite strip_after_separator.
  - done.
  - intros k Hk. apply (Hfit (S k)). cbn [length]. lia.
Qed.

End ChunkerMore.

(** ** More on the router and the report parser *)

Section RouterMore.

Lemma lower_app (a b : string) : lower (a +:+ b) = lower a +:+ lower b.
Proof.
  induction a as [|c a IH]; [reflexivity|].
  cbn [String.append lower]. now rewrite IH.
Qed.

Lemma contains_inside (sub a s b : string) :
  contains sub s = true -> contains sub (a +:+ s +:+ b) = true.
Proof.
  intros H. apply contains_spec in H as (x & y & ->). apply contains_spec.
  exists (a +:+ x), (y +:+ b). now rewrite !app_assoc_str.
Qed.

Lemma report_query_inside (a query b : string) :
  is_report_query query = true -> is_report_query (a +:+ query +:+ b) = true.
Proof.
  unfold is_report_query. rewrite !lower_app, !orb_true_iff.
  intros [H | H]; [left | right]; now apply contains_inside.
Qed.

Lemma parse_report_ok (response : string) :
  exists diagnosis meds, parse_report response = Ok (diagnosis, meds).
Proof.
  unfold parse_report. destruct (contains "Diagnosis" response); [|eauto].
  pose proof (split_go_nonempty "Medications" 0 response) as Hne.
  unfold split. destruct (split_go "Medications" 0 response) as [|p rest];
    [now destruct Hne | eauto].
Qed.

Lemma parse_report_trimmed (response diagnosis meds : string) :
  contains "Diagnosis" response = true ->
  parse_report response = Ok (diagnosis, meds) ->
  strip diagnosis = diagnosis /\ strip meds = meds.
Proof.
  intros Hd. unfold parse_report. rewrite Hd.
  destruct (split response "Medications") as [|p rest]; [discriminate|].
  intros [= <- <-]. split; [apply strip_idem|].
  destruct rest; [reflexivity | apply strip_idem].
Qed.

Lemma parse_one_marker (a b : string) :
  contains "Medications" a = false ->
  contains "Medications" b = false ->
  contains "Diagnosis" (a +:+ "Medications" +:+ b) = true ->
  parse_report (a +:+ "Medications" +:+ b)
  = Ok (strip (replace a "Diagnosis" ""), strip b).
Proof.
  intros Ha Hb Hd. unfold parse_report. rewrite Hd.
  rewrite split_first; [|discriminate|now apply no_early_match_unbordered].
  now rewrite (split_no_occurrence _ _ Hb).
Qed.

End RouterMore.

(** ** What the file operations leave alone, in general *)

Section FramesOffTree.
Context {vec : Type} (E : Externals vec) {X : Type} (f : world vec -> X).
Hypothesis f_off_tree : forall t w, f (set_fs t w) = f w.

Lemma off_tree_put_fs t : preserves f (put_fs t : M vec unit).
Proof. intros w. apply f_off_tree. Qed.

Lemma off_tree_rmtree p : preserves f (rmtree p : M vec unit).
Proof.
  apply preserves_bind; [apply preserves_get_fs|]. intros t.
  destruct (t !! p) as [[|d]|]; try apply preserves_raise;
    (apply preserves_bind; [apply off_tree_put_fs|]; intros _;
     destruct (is_root p); [apply preserves_raise | apply preserves_ret]).
Qed.

Lemma off_tree_mkdir_parents p : preserves f (mkdir_parents p : M vec unit).
Proof.
  apply preserves_bind; [apply preserves_get_fs|]. intros t.
  destruct (mkdir_prefixes p (length p) t);
    [apply off_tree_put_fs | apply preserves_raise].
Qed.

Lemma off_tree_write_file p (d : file_data vec) : preserves f (write_file p d).
Proof.
  apply preserves_bind; [apply preserves_get_fs|]. intros t.
  destruct (negb (is_dir t (parent p))); [apply preserves_raise|].
  destruct (t !! p) as [[|d']|]; first [apply preserves_raise | apply off_tree_put_fs].
Qed.

Lemma off_tree_store_in_faiss chunks index_dir :
  preserves f (store_in_faiss E chunks index_dir).
Proof.
  unfold store_in_faiss.
  apply preserves_bind; [now intros w|]. intros ex.
  apply preserves_bind;
    [destruct ex; [apply off_tree_rmtree | apply preserves_ret]|]. intros _.
  apply preserves_bind; [apply off_tree_mkdir_parents|]. intros _.
  apply preserves_bind.
  { unfold FAISS_from_texts. destruct (embed_documents E chunks) as [[|v l]|];
      first [apply preserves_raise | apply preserves_ret]. }
  intros v. apply preserves_bind; [|intros _; apply off_tree_write_file].
  unfold FAISS_save_local.
  apply preserves_bind; [apply off_tree_mkdir_parents|]. intros _.
  apply preserves_bind; [apply off_tree_write_file|]. intros _.
  apply off_tree_write_file.
Qed.

Lemma off_tree_generate_pdf title diagnosis medications filename :
  preserves f (generate_pdf title diagnosis medications filename : M vec string).
Proof.
  apply preserves_bind; [apply off_tree_mkdir_parents|]. intros _.
  apply preserves_bind; [apply off_tree_write_file|]. intros _. apply preserves_ret.
Qed.

End FramesOffTree.

(** ** Running a sequence *)

Section Sequencing.
Context {vec : Type}.

Lemma bind_ok {A B} (m : M vec A) (k : A -> M vec B) (w w' : world vec) (b : B) :
  bind m k w = (Ok b, w') ->
  exists a w1, m w = (Ok a, w1) /\ k a w1 = (Ok b, w').
Proof.
  unfold bind. destruct (m w) as [[a|e] w1]; [eauto | discriminate].
Qed.

Lemma bind_run {A B} (m : M vec A) (k : A -> M vec B) (w w1 : world vec) (a : A) :
  m w = (Ok a, w1) -> bind m k w = k a w1.
Proof. unfold bind. now intros ->. Qed.

Lemma bind_raise {A B} (m : M vec A) (k : A -> M vec B) (w w1 : world vec) (e : exn) :
  m w = (Raise e, w1) -> bind m k w = (Raise e, w1).
Proof. unfold bind. now intros ->. Qed.

Lemma write_file_ok p (d : file_data vec) (w w' : world vec) :
  write_file p d w = (Ok tt, w') -> w' = set_fs (<[p := File d]> (fs w)) w.
Proof.
  unfold write_file, bind, get_fs.
  destruct (negb (is_dir (fs w) (parent p))); [discriminate|].
  destruct (fs w !! p) as [[|d']|]; try discriminate; now intros [= <-].
Qed.

Lemma set_fs_same (w : world vec) : set_fs (fs w) w = w.
Proof. now destruct w. Qed.

End Sequencing.

(** ** More on loading and querying *)

Section QueryMore.
Context {vec : Type} (E : Externals vec).

Lemma fs_load_body name : preserves fs (load_vectorstore_body name : M vec _).
Proof.
  apply preserves_bind; [now intros w|]. intros ex.
  destruct (negb ex); [apply preserves_ret|].
  apply preserves_bind; [|intros v; apply preserves_ret].
  apply preserves_bind; [apply preserves_get_fs|]. intros t.
  repeat (first [apply preserves_ret | apply preserves_raise
                | match goal with
                  | |- context [match ?x with _ => _ end] => destruct x
                  end]).
Qed.

Lemma fs_load_vectorstore name : preserves fs (load_vectorstore name : M vec _).
Proof.
  apply preserves_bind; [now intros w|]. intros c.
  destruct (c !! name); [apply preserves_ret|].
  apply preserves_bind; [apply fs_load_body|]. intros r.
  apply preserves_bind; [now intros w|]. intros c'.
  apply preserves_bind; [now intros w | intros _; apply preserves_ret].
Qed.

Lemma llm_log_load_vectorstore name :
  preserves llm_log (load_vectorstore name : M vec _).
Proof.
  apply preserves_bind; [now intros w|]. intros c.
  destruct (c !! name); [apply preserves_ret|].
  apply preserves_bind.
  { apply preserves_bind; [now intros w|]. intros ex.
    destruct (negb ex); [apply preserves_ret|].
    apply preserves_bind; [|intros v; apply preserves_ret].
    apply preserves_bind; [apply preserves_get_fs|]. intros t.
    repeat (first [apply preserves_ret | apply preserves_raise
                  | match goal with
                    | |- context [match ?x with _ => _ end] => destruct x
                    end]). }
  intros r. apply preserves_bind; [now intros w|]. intros c'.
  apply preserves_bind; [now intros w | intros _; apply preserves_ret].
Qed.

Lemma fs_call_llm messages : preserves fs (call_llm E messages).
Proof.
  apply preserves_bind; [now intros w|]. intros _.
  destruct (llm E messages); [apply preserves_ret | apply preserves_raise].
Qed.

(** A question in chat mode reads the tree and writes nothing to it. *)
Lemma chat_keeps_tree (query name : string) (w : world vec) :
  is_report_query query = false ->
  fs (snd (process_query E query name w)) = fs w.
Proof.
  intros Hq. revert w. change (preserves fs (process_query E query name)).
  unfold process_query. rewrite Hq.
  apply preserves_bind; [apply fs_load_vectorstore|]. intros [h|];
    [|apply preserves_ret].
  apply preserves_bind; [apply fs_call_llm | intros a; apply preserves_ret].
Qed.

(** What is returned once is returned ever after. *)
Lemma load_memoised (name : string) (r : option (vectorstore vec)) (w w1 : world vec) :
  load_vectorstore name w = (Ok r, w1) -> cache w1 !! name = Some r.
Proof.
  unfold load_vectorstore, bind, get_cache, put_cache, ret.
  destruct (cache w !! name) as [r0|] eqn:Hc.
  - now intros [= <- <-].
  - destruct (load_vectorstore_body name w) as [[r'|e] wb]; [|discriminate].
    intros [= <- <-]. cbn [cache set_cache]. apply lookup_insert_eq.
Qed.

Lemma call_llm_run (messages : list message) (w : world vec) :
  exists w1,
    llm_log w1 = llm_log w ++ [messages] /\ fs w1 = fs w /\ cache w1 = cache w
    /\ call_llm E messages w
       = (match llm E messages with
          | Some content => Ok content
          | None => Raise UpstreamError
          end, w1).
Proof.
  exists (snd (log_llm messages w)). unfold call_llm, bind, log_llm, ret, raise.
  cbn [snd fs cache llm_log]. repeat split. now destruct (llm E messages).
Qed.

Lemma process_query_loaded (query name : string) (h : vectorstore vec)
    (w w1 : world vec) :
  load_vectorstore name w = (Ok (Some h), w1) ->
  process_query E query name w
  = (if is_report_query query then
       response <- call_llm E (query_messages E h query) ;;
       match parse_report response with
       | Raise e => raise e
       | Ok (diagnosis, meds) =>
           pdf_path <- generate_pdf "Patient Report" diagnosis meds "patient_report.pdf" ;;
           ret (ReportResponse report_message pdf_path
                  (get_relevant_documents E h report_retrieval_query))
       end
     else
       answer <- call_llm E (query_messages E h query) ;;
       ret (ChatResponse answer (get_relevant_documents E h query)))%py w1.
Proof.
  intros Hload. unfold process_query. rewrite (bind_run _ _ _ _ _ Hload).
  unfold query_messages, report_retrieval_query.
  now destruct (is_report_query query).
Qed.

Lemma call_llm_some (messages : list message) (content : string) (w : world vec) :
  llm E messages = Some content ->
  call_llm E messages w = (Ok content, snd (log_llm messages w)).
Proof. unfold call_llm, bind, log_llm, ret. now intros ->. Qed.

Lemma call_llm_none (messages : list message) (w : world vec) :
  llm E messages = None ->
  call_llm E messages w = (Raise UpstreamError, snd (log_llm messages w)).
Proof. unfold call_llm, bind, log_llm, raise. now intros ->. Qed.

(** With a handle, the model is called exactly once, with the messages of
    the mode. *)
Lemma query_calls_model_once (query name : string) (h : vectorstore vec)
    (w w1 : world vec) :
  load_vectorstore name w = (Ok (Some h), w1) ->
  llm_log (snd (process_query E query name w))
  = llm_log w ++ [query_messages E h query].
Proof.
  intros Hload. pose proof (llm_log_load_vectorstore name w) as Hl.
  rewrite Hload in Hl. cbn [snd] in Hl.
  rewrite (process_query_loaded _ _ _ _ _ Hload), <- Hl.
  destruct (llm E (query_messages E h query)) as [resp|] eqn:Hllm.
  - destruct (is_report_query query).
    + rewrite (bind_run _ _ _ _ _ (call_llm_some _ _ w1 Hllm)).
      destruct (parse_report resp) as [[diagnosis meds]|e]; [|reflexivity].
      apply (preserves_bind llm_log); [|intros path; apply preserves_ret].
      now apply off_tree_generate_pdf.
    + now rewrite (bind_run _ _ _ _ _ (call_llm_some _ _ w1 Hllm)).
  - destruct (is_report_query query);
      now rewrite (bind_raise _ _ _ _ _ (call_llm_none _ w1 Hllm)).
Qed.

(** When the model fails, the query raises and no report is written. *)
Lemma query_model_failure (query name : string) (h : vectorstore vec)
    (w w1 : world vec) :
  load_vectorstore name w = (Ok (Some h), w1) ->
  llm E (query_messages E h query) = None ->
  fst (process_query E query name w) = Raise UpstreamError
  /\ fs (snd (process_query E query name w)) = fs w.
Proof.
  intros Hload Hllm. pose proof (fs_load_vectorstore name w) as Hf.
  rewrite Hload in Hf. cbn [snd] in Hf.
  rewrite (process_query_loaded _ _ _ _ _ Hload), <- Hf.
  destruct (is_report_query query);
    now rewrite (bind_raise _ _ _ _ _ (call_llm_none _ w1 Hllm)).
Qed.

(** Under a relative name the path is the directory followed by the
    components of the name. *)
Lemma joinpath_relative (p : list string) (filename : string) :
  startswith filename "/" = false ->
  joinpath p (Path filename) = (p ++ Path filename)%list.
Proof.
  intros Hrel. unfold Path. rewrite Hrel. cbn [app].
  pose proof (split_slash_pieces filename) as Hall.
  induction Hall as [|c l Hc _ IH]; [reflexivity|].
  rewrite filter_cons. destruct (decide (c <> "" /\ c <> ".")) as [_|_]; [|exact IH].
  unfold joinpath. destruct c as [|a c]; [reflexivity|].
  destruct (ascii_dec a "/") as [->|Hne].
  - assert (Ht : contains "/" (String "/" c) = true)
      by (apply contains_spec; now exists "", c).
    congruence.
  - destruct a as [[] [] [] [] [] [] [] []]; try reflexivity. now destruct Hne.
Qed.

Lemma generate_pdf_ok (title diagnosis medications filename path : string)
    (w w' : world vec) :
  generate_pdf title diagnosis medications filename w = (Ok path, w') ->
  path = path_str (joinpath (Path "rag_chatbot") (Path filename))
  /\ fs w' !! joinpath (Path "rag_chatbot") (Path filename)
     = Some (File (PdfFile title diagnosis medications))
  /\ llm_log w' = llm_log w /\ cache w' = cache w
  /\ forall q, q <> joinpath (Path "rag_chatbot") (Path filename) ->
       q <> Path "rag_chatbot" -> fs w' !! q = fs w !! q.
Proof.
  unfold generate_pdf. intros H.
  apply bind_ok in H as ([] & w1 & Hmk & H).
  apply bind_ok in H as ([] & w2 & Hwr & H).
  unfold ret in H. injection H as <- <-.
  apply write_file_ok in Hwr as ->.
  rewrite run_mkdir_parents in Hmk.
  change (Path "rag_chatbot") with ["rag_chatbot"] in *.
  cbn [length mkdir_prefixes] in Hmk.
  change (take 1 ["rag_chatbot"]) with ["rag_chatbot"] in Hmk.
  assert (Hw1 : llm_log w1 = llm_log w /\ cache w1 = cache w
                /\ forall q, q <> ["rag_chatbot"] -> fs w1 !! q = fs w !! q).
  { destruct (fs w !! ["rag_chatbot"]) as [[|d]|] eqn:Hl.
    - injection Hmk as <-. now repeat split.
    - discriminate.
    - injection Hmk as <-. repeat split. intros q Hq. cbn [fs set_fs].
      now rewrite lookup_insert_ne. }
  destruct Hw1 as (Hlog & Hcache & Hother).
  cbn [fs set_fs llm_log cache]. repeat split; try assumption.
  - apply lookup_insert_eq.
  - intros q Hq1 Hq2. rewrite lookup_insert_ne by congruence. now apply Hother.
Qed.

(** A report that is returned was written to the report file, with the
    fields parsed from the answer of the model. *)
Lemma report_written (query name answer pdf_path : string) (srcs : list string)
    (h : vectorstore vec) (w w1 w' : world vec) :
  load_vectorstore name w = (Ok (Some h), w1) ->
  process_query E query name w = (Ok (ReportResponse answer pdf_path srcs), w') ->
  pdf_path = "rag_chatbot/patient_report.pdf"
  /\ srcs = get_relevant_documents E h report_retrieval_query
  /\ exists response diagnosis meds,
      llm E (query_messages E h query) = Some response
      /\ parse_report response = Ok (diagnosis, meds)
      /\ fs w' !! report_pdf = Some (File (PdfFile "Patient Report" diagnosis meds)).
Proof.
  intros Hload. rewrite (process_query_loaded _ _ _ _ _ Hload).
  destruct (is_report_query query).
  - intros H. apply bind_ok in H as (resp & w2 & Hcall & H).
    destruct (llm E (query_messages E h query)) as [resp'|] eqn:Hllm;
      [rewrite (call_llm_some _ _ w1 Hllm) in Hcall
      |rewrite (call_llm_none _ w1 Hllm) in Hcall; discriminate].
    injection Hcall as Hr Hw. subst resp' w2.
    destruct (parse_report resp) as [[diagnosis meds]|e] eqn:Hparse; [|discriminate].
    apply bind_ok in H as (path & w3 & Hpdf & H).
    unfold ret in H. injection H as <- <- <- <-.
    apply generate_pdf_ok in Hpdf as (-> & Hfile & _).
    split; [reflexivity|]. split; [reflexivity|].
    exists resp, diagnosis, meds. repeat split; assumption.
  - intros H. apply bind_ok in H as (resp & w2 & _ & H). discriminate.
Qed.

End QueryMore.

(** ** embed_and_store.py: what a call that returns has stored *)

Section StoreMore.
Context {vec : Type} (E : Externals vec).

Lemma meta_name_not_index (s : string) :
  s +:+ "_meta.txt" <> "index.faiss" /\ s +:+ "_meta.txt" <> "index.pkl".
Proof.
  split; destruct s as [|a [|b [|c s]]]; cbn [String.append]; try discriminate;
    intros H; apply (f_equal String.length) in H;
    cbn [String.length] in H; rewrite ?app_length_str in H; cbn [String.length] in H; lia.
Qed.

Lemma meta_path_not_index (p : list string) (f : string) :
  f = "index.faiss" \/ f = "index.pkl" ->
  (p ++ [f])%list <> (parent p ++ [name p +:+ "_meta.txt"])%list.
Proof.
  intros Hf Heq. apply app_inj_tail in Heq as [_ Heq].
  destruct (meta_name_not_index (name p)) as [H1 H2].
  destruct Hf as [-> | ->]; congruence.
Qed.

Lemma from_texts_ok (chunks : list string) (v : vectorstore vec) (w w' : world vec) :
  FAISS_from_texts E chunks w = (Ok v, w') ->
  w' = w /\ exists vectors,
    embed_documents E chunks = Some vectors /\ v = Build_vectorstore chunks vectors.
Proof.
  unfold FAISS_from_texts.
  destruct (embed_documents E chunks) as [[|x l]|]; try discriminate.
  unfold ret. intros [= <- <-]. split; [reflexivity | now exists (x :: l)].
Qed.

(** The tree after a call that returns: the directories made, then the two
    index files and the meta file written. *)
Lemma store_ok_tree (chunks : list string) (index_dir : string) (w w' : world vec) :
  store_in_faiss E chunks index_dir w = (Ok tt, w') ->
  exists vectors t0 t,
    embed_documents E chunks = Some vectors
    /\ mkdir_prefixes (Path index_dir) (length (Path index_dir)) t0 = Ok t
    /\ fs w'
       = <[(parent (Path index_dir) ++ [name (Path index_dir) +:+ "_meta.txt"])%list
           := File (TextFile (meta_text chunks))]>
           (<[(Path index_dir ++ ["index.pkl"])%list := File (PickleFile chunks)]>
              (<[(Path index_dir ++ ["index.faiss"])%list := File (FaissFile vectors)]> t)).
Proof.
  unfold store_in_faiss. set (P := Path index_dir). intros H.
  apply bind_ok in H as (ex & w0 & _ & H).
  apply bind_ok in H as ([] & w1 & _ & H).
  apply bind_ok in H as ([] & w2 & _ & H).
  apply bind_ok in H as (v & w3 & Hv & H).
  apply bind_ok in H as ([] & w4 & Hsave & Hmeta).
  apply from_texts_ok in Hv as (-> & vectors & Hemb & ->).
  unfold FAISS_save_local in Hsave. fold P in Hsave.
  apply bind_ok in Hsave as ([] & wa & Hmk & Hsave).
  apply bind_ok in Hsave as ([] & wb & Hfaiss & Hpkl).
  apply write_file_ok in Hfaiss as ->. apply write_file_ok in Hpkl as ->.
  apply write_file_ok in Hmeta as ->.
  rewrite run_mkdir_parents in Hmk.
  destruct (mkdir_prefixes P (length P) (fs w2)) as [t|e] eqn:Ht; [|discriminate].
  injection Hmk as <-. now exists vectors, (fs w2), t.
Qed.

(** Whenever [store_in_faiss] returns, on a first build as on a rebuild and
    whatever the tree held before, the index directory loads as the new
    chunks and the meta file holds their listing. *)
Lemma store_then_load (chunks : list string) (index_dir : string) (w w' : world vec) :
  store_in_faiss E chunks index_dir w = (Ok tt, w') ->
  exists vectors,
    embed_documents E chunks = Some vectors
    /\ FAISS_load_local index_dir w' = (Ok (Build_vectorstore chunks vectors), w')
    /\ fs w' !! (parent (Path index_dir) ++ [name (Path index_dir) +:+ "_meta.txt"])%list
       = Some (File (TextFile (meta_text chunks))).
Proof.
  intros H. apply store_ok_tree in H as (vectors & t0 & t & Hemb & _ & Hfs).
  set (P := Path index_dir) in *.
  exists vectors. split; [exact Hemb|]. split.
  - unfold FAISS_load_local, bind, get_fs. fold P. rewrite Hfs.
    rewrite (lookup_insert_ne _ _ (P ++ ["index.faiss"])%list)
      by (apply not_eq_sym, meta_path_not_index; now left).
    rewrite (lookup_insert_ne _ _ (P ++ ["index.faiss"])%list)
      by (intros Heq; apply app_inv_head in Heq; discriminate).
    rewrite lookup_insert_eq.
    rewrite (lookup_insert_ne _ _ (P ++ ["index.pkl"])%list)
      by (apply not_eq_sym, meta_path_not_index; now right).
    now rewrite lookup_insert_eq.
  - rewrite Hfs. apply lookup_insert_eq.
Qed.

Lemma store_makes_dir (chunks : list string) (index_dir : string) (w w' : world vec) :
  is_root (Path index_dir) = false ->
  store_in_faiss E chunks index_dir w = (Ok tt, w') ->
  fs w' !! Path index_dir = Some Dir.
Proof.
  intros Hroot H. apply store_ok_tree in H as (vectors & t0 & t & _ & Hmk & ->).
  set (P := Path index_dir) in *. apply is_root_false in Hroot as [Hne Hnr].
  rewrite lookup_insert_ne
    by (apply not_eq_sym, meta_path_not_under; [exact Hne | exact Hnr | reflexivity]).
  rewrite !lookup_insert_ne by paths_differ.
  rewrite <- (firstn_all P) at 1.
  apply (mkdir_prefixes_dirs _ _ _ _ _ Hmk).
  destruct P; [now destruct Hne | cbn [length]; lia].
Qed.

(** A rebuild whose embedding step fails raises after the old index was
    removed. *)
Lemma rebuild_embedding_fails (chunks : list string) (index_dir : string) (w : world vec) :
  fs w !! Path index_dir = Some Dir ->
  embed_documents E chunks = None ->
  (exists e, fst (store_in_faiss E chunks index_dir w) = Raise e)
  /\ subtree (fs (snd (store_in_faiss E chunks index_dir w))) (Path index_dir) = ∅.
Proof.
  intros Hdir Hemb.
  destruct (store_in_faiss_cases E chunks index_dir w Hdir)
    as [(e & t & -> & Hgone) | (vectors & t & Hv & _)]; [|congruence].
  split; [now exists e|]. cbn [snd fs set_fs]. now apply subtree_empty.
Qed.

End StoreMore.

(** ** chatbot_app.py: the upload handler *)

Section UploadMore.
Context {vec : Type} (E : Externals vec).

Lemma upload_cases (file_name file_bytes : string) (w : world vec) :
  process_uploaded_file E file_name file_bytes w
  = if negb (truthy (transcribe_audio E file_bytes)) then (Ok false, w)
    else
      match store_in_faiss E
              (split_text_into_chunks (tokenizer E) (transcribe_audio E file_bytes) 300)
              ("faiss_store/" +:+ index_name_of file_name) w with
      | (Ok _, w1) =>
          (Ok true, Build_world (fs w1) (cache w1) (llm_log w1) (index_name_of file_name) true)
      | (Raise _, w1) => (Ok false, w1)
      end.
Proof.
  unfold process_uploaded_file, try_except, index_name_of.
  destruct (negb (truthy (transcribe_audio E file_bytes))); [reflexivity|].
  unfold bind. now destruct (store_in_faiss _ _ _ w) as [[[]|e] w1].
Qed.

(** What [store_in_faiss] raises is caught. *)
Lemma store_failure_is_caught (file_name file_bytes : string) (e : exn)
    (w w1 : world vec) :
  transcribe_audio E file_bytes <> "" ->
  store_in_faiss E
    (split_text_into_chunks (tokenizer E) (transcribe_audio E file_bytes) 300)
    ("faiss_store/" +:+ index_name_of file_name) w = (Raise e, w1) ->
  process_uploaded_file E file_name file_bytes w = (Ok false, w1).
Proof.
  intros Ht Hstore. rewrite upload_cases, Hstore.
  now destruct (transcribe_audio E file_bytes).
Qed.

Lemma load_local_tree (folder : string) (w w0 : world vec) :
  fs w = fs w0 ->
  FAISS_load_local folder w = (fst (FAISS_load_local folder w0), w).
Proof.
  unfold FAISS_load_local, bind, get_fs. intros ->.
  repeat match goal with
         | |- context [match ?x with _ => _ end] => destruct x
         end; reflexivity.
Qed.

(** An upload that succeeds selects its index, and the index on disk holds
    the chunks of its transcript. *)
Lemma upload_selects_index (file_name file_bytes : string) (w w' : world vec) :
  process_uploaded_file E file_name file_bytes w = (Ok true, w') ->
  current_index w' = index_name_of file_name
  /\ index_loaded w' = true
  /\ exists vectors,
       FAISS_load_local ("faiss_store/" +:+ index_name_of file_name) w'
       = (Ok (Build_vectorstore
                (split_text_into_chunks (tokenizer E) (transcribe_audio E file_bytes) 300)
                vectors), w').
Proof.
  rewrite upload_cases.
  destruct (negb (truthy (transcribe_audio E file_bytes))); [discriminate|].
  destruct (store_in_faiss _ _ _ w) as [[[]|e] w1] eqn:Hstore; [|discriminate].
  intros [= <-]. split; [reflexivity|]. split; [reflexivity|].
  apply store_then_load in Hstore as (vectors & _ & Hload & _).
  exists vectors. rewrite (load_local_tree _ _ w1) by reflexivity.
  now rewrite Hload.
Qed.

(** An upload that fails leaves the selection as it was. *)
Lemma failed_upload_keeps_selection (file_name file_bytes : string) (w w' : world vec) :
  process_uploaded_file E file_name file_bytes w = (Ok false, w') ->
  current_index w' = current_index w /\ index_loaded w' = index_loaded w.
Proof.
  rewrite upload_cases.
  destruct (negb (truthy (transcribe_audio E file_bytes))); [now intros [= <-]|].
  pose proof (off_tree_store_in_faiss E current_index (fun _ _ => eq_refl)
                (split_text_into_chunks (tokenizer E) (transcribe_audio E file_bytes) 300)
                ("faiss_store/" +:+ index_name_of file_name) w) as Hc.
  pose proof (off_tree_store_in_faiss E index_loaded (fun _ _ => eq_refl)
                (split_text_into_chunks (tokenizer E) (transcribe_audio E file_bytes) 300)
                ("faiss_store/" +:+ index_name_of file_name) w) as Hl.
  destruct (store_in_faiss _ _ _ w) as [[[]|e] w1]; [discriminate|].
  now intros [= <-].
Qed.

(** An empty transcript: nothing is stored and nothing changes. *)
Lemma upload_empty_transcript (file_name file_bytes : string) (w : world vec) :
  transcribe_audio E file_bytes = "" ->
  process_uploaded_file E file_name file_bytes w = (Ok false, w).
Proof. intros H. rewrite upload_cases, H. reflexivity. Qed.

(** A second upload of a file whose embedding fails: the handler reports
    failure, the index of the first upload is gone, and the session still
    selects it. *)
Lemma failed_upload_loses_index (file_name file_bytes : string) (w : world vec) :
  transcribe_audio E file_bytes <> "" ->
  embed_documents E
    (split_text_into_chunks (tokenizer E) (transcribe_audio E file_bytes) 300) = None ->
  fs w !! Path ("faiss_store/" +:+ index_name_of file_name) = Some Dir ->
  exists w',
    process_uploaded_file E file_name file_bytes w = (Ok false, w')
    /\ subtree (fs w') (Path ("faiss_store/" +:+ index_name_of file_name)) = ∅
    /\ current_index w' = current_index w
    /\ index_loaded w' = index_loaded w.
Proof.
  intros Ht Hemb Hdir.
  destruct (rebuild_embedding_fails E _ _ w Hdir Hemb) as [[e He] Hsub].
  pose proof (off_tree_store_in_faiss E current_index (fun _ _ => eq_refl)
                (split_text_into_chunks (tokenizer E) (transcribe_audio E file_bytes) 300)
                ("faiss_store/" +:+ index_name_of file_name) w) as Hc.
  pose proof (off_tree_store_in_faiss E index_loaded (fun _ _ => eq_refl)
                (split_text_into_chunks (tokenizer E) (transcribe_audio E file_bytes) 300)
                ("faiss_store/" +:+ index_name_of file_name) w) as Hl.
  rewrite upload_cases.
  replace (negb (truthy (transcribe_audio E file_bytes))) with false
    by (now destruct (transcribe_audio E file_bytes)).
  destruct (store_in_faiss _ _ _ w) as [[[]|e'] w1]; [discriminate|].
  now exists w1.
Qed.

End UploadMore.

(** ** The index name of an upload *)

Section IndexName.

Lemma replace_space (s : string) : replace s " " "_" = map_chars space_to_underscore s.
Proof.
  induction s as [|c s IH]; [reflexivity|].
  unfold space_to_underscore. cbn [map_chars]. destruct (ascii_dec c " ") as [->|Hne].
  - change (String " " s) with (" " +:+ s). rewrite replace_match by discriminate.
    now rewrite IH.
  - rewrite replace_cons_nomatch, IH; [reflexivity|].
    destruct (startswith (String c s) " ") eqn:H; [|reflexivity].
    apply startswith_cons in H as [-> _]. now destruct Hne.
Qed.

Lemma no_space_after_map (s : string) :
  contains " " (map_chars space_to_underscore s) = false.
Proof.
  induction s as [|c s IH]; [reflexivity|].
  cbn [map_chars contains]. rewrite IH, orb_false_r.
  destruct (startswith _ " ") eqn:H; [|reflexivity].
  apply startswith_cons in H as [H _]. unfold space_to_underscore in H.
  destruct (ascii_dec c " "); [discriminate | congruence].
Qed.

(** The index name holds no space. *)
Lemma index_name_no_space (file_name : string) :
  contains " " (index_name_of file_name) = false.
Proof. unfold index_name_of. rewrite replace_space. apply no_space_after_map. Qed.

Lemma startswith_mp3_map (s : string) :
  startswith (map_chars space_to_underscore s) ".mp3" = startswith s ".mp3".
Proof.
  assert (Hc : forall (c d : ascii) (s p : string),
             d <> " "%char -> d <> "_"%char ->
             startswith (map_chars space_to_underscore s) p = startswith s p ->
             startswith (map_chars space_to_underscore (String c s)) (String d p)
             = startswith (String c s) (String d p)).
  { intros c d s' p Hd1 Hd2 IH. cbn [map_chars].
    apply eq_true_iff_eq. rewrite !startswith_cons, IH.
    unfold space_to_underscore. destruct (ascii_dec c " ") as [->|]; [|reflexivity].
    split; intros [H _]; congruence. }
  do 4 (destruct s as [|? s]; [reflexivity|]; apply Hc; [discriminate..|]).
  now destruct s.
Qed.

Lemma replace_go_mp3_map (s : string) (skip : nat) :
  replace_go ".mp3" "" skip (map_chars space_to_underscore s)
  = map_chars space_to_underscore (replace_go ".mp3" "" skip s).
Proof.
  revert skip. induction s as [|c s IH]; intros skip; [reflexivity|].
  cbn [map_chars replace_go]. destruct skip as [|k]; [|apply IH].
  change (String (space_to_underscore c) (map_chars space_to_underscore s))
    with (map_chars space_to_underscore (String c s)).
  rewrite startswith_mp3_map.
  destruct (startswith (String c s) ".mp3").
  - cbn [String.append]. apply IH.
  - cbn [map_chars]. now rewrite IH.
Qed.

Lemma map_space_idem (s : string) :
  map_chars space_to_underscore (map_chars space_to_underscore s)
  = map_chars space_to_underscore s.
Proof.
  induction s as [|c s IH]; [reflexivity|]. cbn [map_chars]. rewrite IH. f_equal.
  unfold space_to_underscore. destruct (ascii_dec c " "); [reflexivity|].
  now destruct (ascii_dec c " ").
Qed.

(** A file name and the same name with its spaces written as underscores
    share one index name, hence one index directory. *)
Lemma index_name_collision (file_name : string) :
  index_name_of (replace file_name " " "_") = index_name_of file_name.
Proof.
  unfold index_name_of. rewrite !replace_space. unfold replace.
  now rewrite replace_go_mp3_map, map_space_idem.
Qed.

End IndexName.

(** ** chatbot_app.py: the memo table of the loader *)

Section LoaderMore.
Context {vec : Type} (E : Externals vec).

Lemma load_body_reads_only {X} (f : world vec -> X) (name : string) :
  preserves f (load_vectorstore_body name : M vec _).
Proof.
  apply preserves_bind; [now intros w|]. intros ex.
  destruct (negb ex); [apply preserves_ret|].
  apply preserves_bind; [|intros v; apply preserves_ret].
  apply preserves_bind; [apply preserves_get_fs|]. intros t.
  repeat (first [apply preserves_ret | apply preserves_raise
                | match goal with
                  | |- context [match ?x with _ => _ end] => destruct x
                  end]).
Qed.

(** The result of the first call that returns is the result of every call
    made while the memo table keeps the entry, whatever the tree holds. *)
Lemma load_memoised_result (name : string) (r : option (vectorstore vec))
    (w w1 w2 : world vec) :
  load_vectorstore name w = (Ok r, w1) ->
  cache w2 !! name = cache w1 !! name ->
  load_vectorstore name w2 = (Ok r, w2).
Proof.
  intros H Hc. apply load_vectorstore_cached. rewrite Hc.
  exact (load_memoised name r w w1 H).
Qed.

(** A call that raises memoises nothing: the world is as before. *)
Lemma load_failure_not_memoised (name : string) (e : exn) (w w1 : world vec) :
  load_vectorstore name w = (Raise e, w1) -> w1 = w.
Proof.
  unfold load_vectorstore, bind, get_cache.
  destruct (cache w !! name) as [r|]; [discriminate|].
  pose proof (load_body_reads_only (fun x => x) name w) as Hw.
  destruct (load_vectorstore_body name w) as [[r|e'] wb]; [discriminate|].
  cbn [snd] in Hw. now intros [= _ <-].
Qed.

(** A load of an index stored by a call that returned, in a process with
    no memo entry for the name. *)
Lemma load_after_store (chunks : list string) (name : string) (w w' : world vec) :
  store_in_faiss E chunks ("faiss_store/" +:+ name) w = (Ok tt, w') ->
  cache w' !! name = None ->
  exists vectors,
    embed_documents E chunks = Some vectors
    /\ load_vectorstore name w'
       = (Ok (Some (Build_vectorstore chunks vectors)),
          set_cache (<[name := Some (Build_vectorstore chunks vectors)]> (cache w')) w').
Proof.
  intros Hstore Hc.
  pose proof (store_makes_dir E _ _ _ _ (index_path_not_root name) Hstore) as Hdir.
  apply store_then_load in Hstore as (vectors & Hemb & Hload & _).
  exists vectors. split; [exact Hemb|].
  unfold load_vectorstore, bind, get_cache. rewrite Hc.
  unfold load_vectorstore_body, bind. rewrite run_path_exists.
  rewrite Hdir, bool_decide_eq_true_2, orb_true_r by eauto. cbn [negb].
  assert (Hl : FAISS_load_local (path_str (Path ("faiss_store/" +:+ name))) w'
               = (Ok (Build_vectorstore chunks vectors), w')).
  { revert Hload. unfold FAISS_load_local. now rewrite Path_path_str_index. }
  now rewrite Hl.
Qed.

Lemma load_body_reads (name : string) (w w0 : world vec) :
  fs w = fs w0 ->
  fst (load_vectorstore_body name w) = fst (load_vectorstore_body name w0).
Proof.
  destruct w as [t c l ci il], w0 as [t0 c0 l0 ci0 il0]. cbn [fs]. intros <-.
  cbv [load_vectorstore_body bind path_exists FAISS_load_local get_fs ret raise fs].
  cbn [fs]. destruct (negb _); [reflexivity|].
  set (P := Path (path_str (Path ("faiss_store/" +:+ name)))).
  destruct (t !! (P ++ ["index.faiss"])%list) as [[|[]]|];
    destruct (t !! (P ++ ["index.pkl"])%list) as [[|[]]|]; reflexivity.
Qed.

Lemma load_reads (name : string) (w w0 : world vec) :
  fs w = fs w0 -> cache w = cache w0 ->
  fst (load_vectorstore name w) = fst (load_vectorstore name w0).
Proof.
  intros Hf Hc. pose proof (load_body_reads name w w0 Hf) as Hb.
  unfold load_vectorstore, bind, get_cache. rewrite Hc.
  destruct (cache w0 !! name); [reflexivity|].
  destruct (load_vectorstore_body name w) as [[a|e] wb],
           (load_vectorstore_body name w0) as [[a0|e0] wb0];
    cbn [fst] in Hb; try discriminate; now injection Hb as <-.
Qed.

Lemma loaded_query_sources (query name : string) (h : vectorstore vec)
    (w w1 w' : world vec) (r : response) :
  load_vectorstore name w = (Ok (Some h), w1) ->
  process_query E query name w = (Ok r, w') ->
  sources r
  = get_relevant_documents E h
      (if is_report_query query then report_retrieval_query else query).
Proof.
  intros Hload. rewrite (process_query_loaded E _ _ _ _ _ Hload).
  destruct (is_report_query query); intros H.
  - apply bind_ok in H as (resp & w2 & _ & H).
    destruct (parse_report resp) as [[diagnosis meds]|e]; [|discriminate].
    apply bind_ok in H as (path & w3 & _ & H). unfold ret in H.
    now injection H as <- <-.
  - apply bind_ok in H as (resp & w2 & _ & H). unfold ret in H.
    now injection H as <- <-.
Qed.

(** After an upload that succeeds, in a process with no memo entry for its
    index name, every answer is retrieved from the chunks of the uploaded
    transcript. *)
Lemma first_question_after_upload (file_name file_bytes query : string)
    (w w1 w2 : world vec) (r : response) :
  cache w !! index_name_of file_name = None ->
  process_uploaded_file E file_name file_bytes w = (Ok true, w1) ->
  process_query E query (current_index w1) w1 = (Ok r, w2) ->
  exists vectors,
    sources r
    = get_relevant_documents E
        (Build_vectorstore
           (split_text_into_chunks (tokenizer E) (transcribe_audio E file_bytes) 300)
           vectors)
        (if is_report_query query then report_retrieval_query else query).
Proof.
  intros Hc Hup.
  pose proof (cache_process_uploaded_file E file_name file_bytes w) as Hcache.
  rewrite Hup in Hcache. cbn [snd] in Hcache.
  rewrite upload_cases in Hup.
  destruct (negb (truthy (transcribe_audio E file_bytes))); [discriminate|].
  destruct (store_in_faiss _ _ _ w) as [[[]|e] ws] eqn:Hstore; [|discriminate].
  injection Hup as <-. cbn [current_index cache] in *.
  destruct (load_after_store _ _ _ _ Hstore) as (vectors & _ & Hload);
    [congruence|].
  intros Hq. exists vectors.
  set (w1 := Build_world (fs ws) (cache ws) (llm_log ws) (index_name_of file_name) true) in *.
  pose proof (load_reads (index_name_of file_name) w1 ws eq_refl eq_refl) as Hr.
  rewrite Hload in Hr. cbn [fst] in Hr.
  destruct (load_vectorstore (index_name_of file_name) w1) as [o wl] eqn:Hl.
  cbn [fst] in Hr. subst o.
  exact (loaded_query_sources _ _ _ _ _ _ _ Hl Hq).
Qed.

End LoaderMore.

(** ** chunker.py: the budget, on a text of one paragraph *)

Section OneParagraph.
Variable encode : string -> list N.



End OneParagraph.

(** ** chatbot_app.py: what a query does once a handle is loaded *)

Section Routing.
Context {vec : Type} (E : Externals vec).

Lemma loaded_query_response (query name : string) (h : vectorstore vec)
    (w w1 w' : world vec) (r : response) :
  load_vectorstore name w = (Ok (Some h), w1) ->
  process_query E query name w = (Ok r, w') ->
  if is_report_query query
  then exists pdf_path,
      r = ReportResponse report_message pdf_path
            (get_relevant_documents E h "patient summary, diagnosis and medications")
  else exists answer, r = ChatResponse answer (get_relevant_documents E h query).
Proof.
  intros Hload. rewrite (process_query_loaded E _ _ _ _ _ Hload).
  destruct (is_report_query query); intros H.
  - apply bind_ok in H as (resp & w2 & _ & H).
    destruct (parse_report resp) as [[diagnosis meds]|e]; [|discriminate].
    apply bind_ok in H as (path & w3 & _ & H). unfold ret in H.
    injection H as <- <-. now exists path.
  - apply bind_ok in H as (resp & w2 & _ & H). unfold ret in H.
    injection H as <- <-. now exists resp.
Qed.

Lemma loaded_query_routes (query name : string) (h : vectorstore vec)
    (w w1 : world vec) :
  load_vectorstore name w = (Ok (Some h), w1) ->
  (((exists a b, lower query = a +:+ "generate report" +:+ b)
    \/ (exists a b, lower query = a +:+ "download report" +:+ b)) ->
   llm_log (snd (process_query E query name w))
   = llm_log w
     ++ [[SystemMessage "You are a medical assistant generating structured reports.";
          HumanMessage
            (report_prompt
               (join nlnl
                  (get_relevant_documents E h
                     "patient summary, diagnosis and medications")))]]
   /\ forall r w', process_query E query name w = (Ok r, w') ->
        exists pdf_path,
          r = ReportResponse report_message pdf_path
                (get_relevant_documents E h "patient summary, diagnosis and medications"))
  /\ (~ ((exists a b, lower query = a +:+ "generate report" +:+ b)
         \/ (exists a b, lower query = a +:+ "download report" +:+ b)) ->
      llm_log (snd (process_query E query name w))
      = llm_log w ++ [qa_prompt E (get_relevant_documents E h query) query]
      /\ forall r w', process_query E query name w = (Ok r, w') ->
           exists answer, r = ChatResponse answer (get_relevant_documents E h query)).
Proof.
  intros Hload.
  pose proof (query_calls_model_once E query name h w w1 Hload) as Hlog.
  unfold query_messages, report_retrieval_query in Hlog.
  split; intros Hphrase.
  - apply is_report_query_spec in Hphrase. rewrite Hphrase in Hlog.
    split; [exact Hlog|]. intros r w' Hq.
    pose proof (loaded_query_response query name h w w1 w' r Hload Hq) as Hr.
    now rewrite Hphrase in Hr.
  - assert (Hfalse : is_report_query query = false).
    { destruct (is_report_query query) eqn:Hq; [|reflexivity].
      apply is_report_query_spec in Hq. contradiction. }
    rewrite Hfalse in Hlog. split; [exact Hlog|]. intros r w' Hq.
    pose proof (loaded_query_response query name h w w1 w' r Hload Hq) as Hr.
    now rewrite Hfalse in Hr.
Qed.

(** With a handle in the memo table the loader returns it, whatever the
    tree holds, and the query goes on to the model. *)
Lemma memoised_query (query name : string) (h : vectorstore vec) (w : world vec) :
  cache w !! name = Some (Some h) ->
  load_vectorstore name w = (Ok (Some h), w)
  /\ llm_log (snd (process_query E query name w))
     = llm_log w ++ [query_messages E h query]
  /\ (forall r w', process_query E query name w = (Ok r, w') ->
        sources r
        = get_relevant_documents E h
            (if is_report_query query then report_retrieval_query else query))
  /\ (forall r w', process_query E query name w = (Ok r, w') ->
        forall answer srcs, r <> ErrorResponse answer srcs).
Proof.
  intros Hc. pose proof (load_vectorstore_cached name _ w Hc) as Hload.
  split; [exact Hload|]. split; [exact (query_calls_model_once E _ _ _ _ _ Hload)|].
  split.
  - intros r w'. exact (loaded_query_sources E _ _ _ _ _ _ _ Hload).
  - intros r w' Hq answer srcs ->.
    pose proof (loaded_query_response _ _ _ _ _ _ _ Hload Hq) as Hr.
    destruct (is_report_query query); destruct Hr as [x Hr]; discriminate Hr.
Qed.

(** The tree under a directory that held an index, after a call of
    [store_in_faiss] that returns. *)
Lemma rebuilt_tree_ok (chunks : list string) (index_dir : string) (w w' : world vec) :
  fs w !! Path index_dir = Some Dir ->
  store_in_faiss E chunks index_dir w = (Ok tt, w') ->
  exists vectors,
    embed_documents E chunks = Some vectors
    /\ subtree (fs w') (Path index_dir)
       = index_files (Path index_dir) (Build_vectorstore chunks vectors)
    /\ FAISS_load_local index_dir w' = (Ok (Build_vectorstore chunks vectors), w').
Proof.
  intros Hdir Hstore.
  destruct (rebuilt_index_tree E chunks index_dir w Hdir) as [Htree Hload].
  rewrite Hstore in Htree, Hload. cbn [fst snd] in Htree, Hload.
  destruct (Hload eq_refl) as (vectors & Hemb & Hl).
  exists vectors. split; [exact Hemb|]. split; [|exact Hl].
  destruct Htree as [Hempty | (vectors' & Hemb' & Htree)].
  - exfalso. revert Hl. unfold FAISS_load_local, bind, get_fs.
    assert (Hnone : fs w' !! (Path index_dir ++ ["index.faiss"])%list = None).
    { pose proof (subtree_lookup (fs w') (Path index_dir)
                    (Path index_dir ++ ["index.faiss"])%list) as Hs.
      rewrite Hempty, lookup_empty in Hs.
      destruct (decide (Path index_dir `prefix_of` Path index_dir ++ ["index.faiss"]))
        as [_|Hn]; [now symmetry | destruct Hn; now apply prefix_app_r]. }
    rewrite Hnone. discriminate.
  - rewrite Hemb in Hemb'. now injection Hemb' as <-.
Qed.

End Routing.

(** ** The claims on the budget, the rebuild, the routing and the missing index *)



(** C4, evaluated. A call of [store_in_faiss] for an index directory that
    holds an index, and that returns, leaves on disk exactly the freshly
    saved index of the new chunks: the prior index is deleted in its
    entirety. But when the loader holds a memoised handle for the name, it
    goes on returning that handle after the rebuild, and the sources of
    every answer are retrieved from it: the chunks of before the rebuild
    are retrievable and the new ones are not. *)
Theorem rebuild_behind_memoised_handle {vec : Type} (E : Externals vec)
    (chunks : list string) (name : string) (h : vectorstore vec) (w w' : world vec) :
  fs w !! Path ("faiss_store/" +:+ name) = Some Dir ->
  cache w !! name = Some (Some h) ->
  store_in_faiss E chunks ("faiss_store/" +:+ name) w = (Ok tt, w') ->
  (exists vectors,
      embed_documents E chunks = Some vectors
      /\ subtree (fs w') (Path ("faiss_store/" +:+ name))
         = index_files (Path ("faiss_store/" +:+ name)) (Build_vectorstore chunks vectors)
      /\ FAISS_load_local ("faiss_store/" +:+ name) w'
         = (Ok (Build_vectorstore chunks vectors), w'))
  /\ load_vectorstore name w' = (Ok (Some h), w')
  /\ forall query r w'',
      process_query E query name w' = (Ok r, w'') ->
      sources r
      = get_relevant_documents E h
          (if is_report_query query then report_retrieval_query else query).
Proof.
  intros Hdir Hc Hstore.
  split; [exact (rebuilt_tree_ok E chunks _ w w' Hdir Hstore)|].
  assert (Hc' : cache w' !! name = Some (Some h)).
  { pose proof (cache_store_in_faiss E chunks ("faiss_store/" +:+ name) w) as H.
    rewrite Hstore in H. cbn [snd] in H. now rewrite H. }
  split; [exact (proj1 (memoised_query E "" name h w' Hc'))|].
  intros query. exact (proj1 (proj2 (proj2 (memoised_query E query name h w' Hc')))).
Qed.

Lemma rebuild_behind_memoised_handle_witness :
  fs world_after_query !! Path ("faiss_store/" +:+ "a_b") = Some Dir
  /\ cache world_after_query !! "a_b" = Some (Some (Build_vectorstore ["old text"] [8%nat]))
  /\ store_in_faiss sample_externals ["new text"] ("faiss_store/" +:+ "a_b")
       world_after_query
     = (Ok tt,
        snd (store_in_faiss sample_externals ["new text"] ("faiss_store/" +:+ "a_b")
               world_after_query))
  /\ (exists vectors,
         FAISS_load_local ("faiss_store/" +:+ "a_b")
           (snd (store_in_faiss sample_externals ["new text"] ("faiss_store/" +:+ "a_b")
                   world_after_query))
         = (Ok (Build_vectorstore ["new text"] vectors),
            snd (store_in_faiss sample_externals ["new text"] ("faiss_store/" +:+ "a_b")
                   world_after_query)))
  /\ load_vectorstore "a_b"
       (snd (store_in_faiss sample_externals ["new text"] ("faiss_store/" +:+ "a_b")
               world_after_query))
     = (Ok (Some (Build_vectorstore ["old text"] [8%nat])),
        snd (store_in_faiss sample_externals ["new text"] ("faiss_store/" +:+ "a_b")
               world_after_query)).
Proof.
  assert (H1 : fs world_after_query !! Path ("faiss_store/" +:+ "a_b") = Some Dir)
    by (vm_compute; reflexivity).
  assert (H2 : cache world_after_query !! "a_b"
               = Some (Some (Build_vectorstore ["old text"] [8%nat])))
    by (vm_compute; reflexivity).
  assert (H3 : store_in_faiss sample_externals ["new text"] ("faiss_store/" +:+ "a_b")
                 world_after_query
               = (Ok tt,
                  snd (store_in_faiss sample_externals ["new text"]
                         ("faiss_store/" +:+ "a_b") world_after_query)))
    by (vm_compute; reflexivity).
  split; [exact H1|]. split; [exact H2|]. split; [exact H3|].
  destruct (rebuild_behind_memoised_handle sample_externals ["new text"] "a_b"
              (Build_vectorstore ["old text"] [8%nat]) world_after_query
              (snd (store_in_faiss sample_externals ["new text"]
                      ("faiss_store/" +:+ "a_b") world_after_query))
              H1 H2 H3) as ((vectors & _ & _ & Hdisk) & Hload & _).
  split; [now exists vectors | exact Hload].
Defined.

(** C5. Once the loader has returned a handle, [process_query] takes the
    report branch exactly when the lower-cased query has
    ["generate report"] or ["download report"] as a substring: then the
    model is sent the report messages, built from the documents retrieved
    with the fixed report query, and a response that is returned is a
    report response; otherwise the model is sent the question-answering
    prompt built from the documents retrieved with the query, and a
    response that is returned is a chat response. The query
    ["Please GENERATE REPORT now"] goes the first way and
    ["generate a summary"] the second. *)
Theorem process_query_routes_by_phrase {vec : Type} (E : Externals vec)
    (name : string) (h : vectorstore vec) (w w1 : world vec) :
  load_vectorstore name w = (Ok (Some h), w1) ->
  (forall query,
      (((exists a b, lower query = a +:+ "generate report" +:+ b)
        \/ (exists a b, lower query = a +:+ "download report" +:+ b)) ->
       llm_log (snd (process_query E query name w))
       = llm_log w
         ++ [[SystemMessage "You are a medical assistant generating structured reports.";
              HumanMessage
                (report_prompt
                   (join nlnl
                      (get_relevant_documents E h
                         "patient summary, diagnosis and medications")))]]
       /\ forall r w', process_query E query name w = (Ok r, w') ->
            exists pdf_path,
              r = ReportResponse report_message pdf_path
                    (get_relevant_documents E h
                       "patient summary, diagnosis and medications"))
      /\ (~ ((exists a b, lower query = a +:+ "generate report" +:+ b)
             \/ (exists a b, lower query = a +:+ "download report" +:+ b)) ->
          llm_log (snd (process_query E query name w))
          = llm_log w ++ [qa_prompt E (get_relevant_documents E h query) query]
          /\ forall r w', process_query E query name w = (Ok r, w') ->
               exists answer,
                 r = ChatResponse answer (get_relevant_documents E h query)))
  /\ llm_log (snd (process_query E "Please GENERATE REPORT now" name w))
     = llm_log w
       ++ [[SystemMessage "You are a medical assistant generating structured reports.";
            HumanMessage
              (report_prompt
                 (join nlnl
                    (get_relevant_documents E h
                       "patient summary, diagnosis and medications")))]]
  /\ llm_log (snd (process_query E "generate a summary" name w))
     = llm_log w
       ++ [qa_prompt E (get_relevant_documents E h "generate a summary")
             "generate a summary"].
Proof.
  intros Hload.
  split; [intros query; exact (loaded_query_routes E query name h w w1 Hload)|]. split.
  - destruct (loaded_query_routes E "Please GENERATE REPORT now" name h w w1 Hload)
      as [Hreport _].
    apply Hreport. left. now exists "please ", " now".
  - destruct (loaded_query_routes E "generate a summary" name h w w1 Hload)
      as [_ Hchat].
    apply Hchat. intros H. apply is_report_query_spec in H. discriminate H.
Qed.

Lemma process_query_routes_by_phrase_witness :
  load_vectorstore "a_b" world_with_index
  = (Ok (Some (Build_vectorstore ["old text"] [8%nat])),
     snd (load_vectorstore "a_b" world_with_index))
  /\ fst (process_query sample_externals "Please GENERATE REPORT now" "a_b"
            world_with_index)
     = Ok (ReportResponse report_message "rag_chatbot/patient_report.pdf" ["old text"])
  /\ fst (process_query sample_externals "generate a summary" "a_b" world_with_index)
     = Ok (ChatResponse sample_report ["old text"])
  /\ llm_log (snd (process_query sample_externals "Please GENERATE REPORT now" "a_b"
                     world_with_index))
     = llm_log world_with_index
       ++ [[SystemMessage "You are a medical assistant generating structured reports.";
            HumanMessage
              (report_prompt
                 (join nlnl
                    (get_relevant_documents sample_externals
                       (Build_vectorstore ["old text"] [8%nat])
                       "patient summary, diagnosis and medications")))]]
  /\ llm_log (snd (process_query sample_externals "generate a summary" "a_b"
                     world_with_index))
     = llm_log world_with_index
       ++ [qa_prompt sample_externals
             (get_relevant_documents sample_externals
                (Build_vectorstore ["old text"] [8%nat]) "generate a summary")
             "generate a summary"].
Proof.
  assert (H : load_vectorstore "a_b" world_with_index
              = (Ok (Some (Build_vectorstore ["old text"] [8%nat])),
                 snd (load_vectorstore "a_b" world_with_index)))
    by (vm_compute; reflexivity).
  split; [exact H|].
  split; [vm_compute; reflexivity|]. split; [vm_compute; reflexivity|].
  exact (proj2 (process_query_routes_by_phrase sample_externals "a_b"
                  (Build_vectorstore ["old text"] [8%nat]) world_with_index
                  (snd (load_vectorstore "a_b" world_with_index)) H)).
Defined.

(** C8, evaluated. For a name with no index in the store, what the loader
    and a query do is decided by the memo table of the loader. When it
    holds a handle for the name, left from an index that has since been
    removed, the loader returns that handle, the language model is called
    with the messages of the query, and no response that is returned is the
    error response. When it holds none, the loader returns [None] and
    raises nothing, the query returns the error response with the "no index
    loaded" message and no sources, the language model is not called and
    the tree is not touched. *)
Theorem query_with_no_index_on_disk {vec : Type} (E : Externals vec)
    (query name : string) (w : world vec) :
  fs w !! Path ("faiss_store/" +:+ name) = None ->
  (forall h, cache w !! name = Some (Some h) ->
     load_vectorstore name w = (Ok (Some h), w)
     /\ llm_log (snd (process_query E query name w))
        = llm_log w ++ [query_messages E h query]
     /\ forall r w', process_query E query name w = (Ok r, w') ->
          forall answer srcs, r <> ErrorResponse answer srcs)
  /\ ((forall h, cache w !! name <> Some (Some h)) ->
      exists w',
        load_vectorstore name w = (Ok None, w')
        /\ process_query E query name w = (Ok (ErrorResponse no_index_message []), w')
        /\ llm_log w' = llm_log w
        /\ fs w' = fs w).
Proof.
  intros Hfs. split.
  - intros h Hc. destruct (memoised_query E query name h w Hc) as (H1 & H2 & _ & H4).
    now repeat split.
  - intros Hc. now apply query_not_found.
Qed.

Lemma query_with_no_index_on_disk_witness :
  fs world_after_failed_upload !! Path ("faiss_store/" +:+ "a_b") = None
  /\ cache world_after_failed_upload !! "a_b"
     = Some (Some (Build_vectorstore ["old text"] [8%nat]))
  /\ load_vectorstore "a_b" world_after_failed_upload
     = (Ok (Some (Build_vectorstore ["old text"] [8%nat])), world_after_failed_upload)
  /\ llm_log (snd (process_query sample_externals "What was said?" "a_b"
                     world_after_failed_upload))
     = llm_log world_after_failed_upload
       ++ [query_messages sample_externals (Build_vectorstore ["old text"] [8%nat])
             "What was said?"]
  /\ fst (process_query sample_externals "What was said?" "a_b" world_after_failed_upload)
     = Ok (ChatResponse sample_report ["old text"]).
Proof.
  assert (H1 : fs world_after_failed_upload !! Path ("faiss_store/" +:+ "a_b") = None)
    by (vm_compute; reflexivity).
  assert (H2 : cache world_after_failed_upload !! "a_b"
               = Some (Some (Build_vectorstore ["old text"] [8%nat])))
    by (vm_compute; reflexivity).
  split; [exact H1|]. split; [exact H2|].
  destruct (proj1 (query_with_no_index_on_disk sample_externals "What was said?" "a_b"
                     world_after_failed_upload H1)
              (Build_vectorstore ["old text"] [8%nat]) H2) as (Hload & Hlog & _).
  split; [exact Hload|]. split; [exact Hlog|]. vm_compute; reflexivity.
Defined.


(* ===================================================================== *)
(** * Part III.  Further properties of the code                           *)
(* ===================================================================== *)

(** ** chunker.py *)

(** X1. Every chunk is trimmed: [strip] leaves it as it is, for every
    tokenizer, text and budget. *)
Theorem chunks_are_trimmed (encode : string -> list N) (text : string) (max_tokens : Z) :
  Forall (fun c => strip c = c) (split_text_into_chunks encode text max_tokens).
Proof. apply chunks_trimmed. Qed.

(** X2. There are never more chunks than paragraphs: the text split on the
    blank line bounds the number of chunks. *)
Theorem chunks_no_more_than_paragraphs (encode : string -> list N) (text : string)
    (max_tokens : Z) :
  (length (split_text_into_chunks encode text max_tokens)
   <= length (split text nlnl))%nat.
Proof. apply chunk_count. Qed.

(** X3. When each candidate the loop forms, the separator followed by the
    first [k] paragraphs joined, fits the budget, the result is one chunk:
    the trimmed text. *)
Theorem text_within_budget_is_one_chunk (encode : string -> list N) (text : string)
    (max_tokens : Z) :
  (forall k, (1 <= k <= length (split text nlnl))%nat ->
             num_tokens encode (nlnl +:+ join nlnl (take k (split text nlnl)))
             <= max_tokens) ->
  split_text_into_chunks encode text max_tokens = [strip text].
Proof. apply all_fit_one_chunk. Qed.

Lemma text_within_budget_is_one_chunk_witness :
  (forall k, (1 <= k <= length (split ("a" +:+ nlnl +:+ "b") nlnl))%nat ->
             num_tokens char_encode
               (nlnl +:+ join nlnl (take k (split ("a" +:+ nlnl +:+ "b") nlnl)))
             <= 300)
  /\ split_text_into_chunks char_encode ("a" +:+ nlnl +:+ "b") 300
     = [strip ("a" +:+ nlnl +:+ "b")].
Proof.
  assert (H : forall k, (1 <= k <= length (split ("a" +:+ nlnl +:+ "b") nlnl))%nat ->
                num_tokens char_encode
                  (nlnl +:+ join nlnl (take k (split ("a" +:+ nlnl +:+ "b") nlnl)))
                <= 300).
  { intros k Hk. change (length (split ("a" +:+ nlnl +:+ "b") nlnl)) with 2%nat in Hk.
    destruct k as [|[|[|k]]]; [lia | | | lia]; vm_compute; intros Hgt; discriminate Hgt. }
  split; [exact H|].
  exact (text_within_budget_is_one_chunk char_encode ("a" +:+ nlnl +:+ "b") 300 H).
Defined.

(** X4. With a negative budget nothing is accumulated: the chunks are the
    non-empty paragraphs, each trimmed, in order. *)
Theorem negative_budget_one_chunk_per_paragraph (encode : string -> list N)
    (text : string) (max_tokens : Z) :
  max_tokens < 0 ->
  split_text_into_chunks encode text max_tokens
  = map strip (nonempty (split text nlnl)).
Proof. apply negative_budget_chunks. Qed.

Lemma negative_budget_one_chunk_per_paragraph_witness :
  -1 < 0
  /\ split_text_into_chunks char_encode ("a" +:+ nlnl +:+ nlnl +:+ " b ") (-1)
     = map strip (nonempty (split ("a" +:+ nlnl +:+ nlnl +:+ " b ") nlnl)).
Proof.
  split; [lia|].
  apply (negative_budget_one_chunk_per_paragraph char_encode
           ("a" +:+ nlnl +:+ nlnl +:+ " b ") (-1)).
  lia.
Defined.

(** X6. The chunks are the trimmed joins, with the blank line, of
    consecutive runs of the paragraphs: the runs hold the non-empty
    paragraphs of the text, in order. *)
Theorem chunks_are_joined_paragraph_runs (encode : string -> list N) (text : string)
    (max_tokens : Z) :
  exists groups : list (list string),
    split_text_into_chunks encode text max_tokens
    = map (fun g => strip (join nlnl g)) groups
    /\ nonempty (concat groups) = nonempty (split text nlnl).
Proof.
  destruct (chunks_are_paragraph_runs encode max_tokens text) as (groups & H1 & H2 & _).
  now exists groups.
Qed.

(** ** chatbot_app.py: the router and the parser of report mode *)

(** X7. The parser of report mode never fails: [parts[0]] always exists,
    and a diagnosis and a medications field come out of every response. *)
Theorem parse_report_never_fails (response : string) :
  exists diagnosis meds, parse_report response = Ok (diagnosis, meds).
Proof. apply parse_report_ok. Qed.

(** X8. A response with one marker [Medications], and [Diagnosis]
    somewhere: the diagnosis is the text before the marker with every
    [Diagnosis] removed, the medications the text after it, both trimmed. *)
Theorem parse_single_marker (a b : string) :
  contains "Medications" a = false ->
  contains "Medications" b = false ->
  contains "Diagnosis" (a +:+ "Medications" +:+ b) = true ->
  parse_report (a +:+ "Medications" +:+ b)
  = Ok (strip (replace a "Diagnosis" ""), strip b).
Proof. apply parse_one_marker. Qed.

Lemma parse_single_marker_witness :
  contains "Medications" ("Diagnosis - Flu" +:+ nl) = false
  /\ contains "Medications" " - Tamiflu " = false
  /\ contains "Diagnosis" (("Diagnosis - Flu" +:+ nl) +:+ "Medications" +:+ " - Tamiflu ")
     = true
  /\ parse_report (("Diagnosis - Flu" +:+ nl) +:+ "Medications" +:+ " - Tamiflu ")
     = Ok (strip (replace ("Diagnosis - Flu" +:+ nl) "Diagnosis" ""), strip " - Tamiflu ").
Proof.
  split; [reflexivity|]. split; [reflexivity|]. split; [reflexivity|].
  exact (parse_single_marker ("Diagnosis - Flu" +:+ nl) " - Tamiflu "
           eq_refl eq_refl eq_refl).
Defined.

(** X9. When the response holds [Diagnosis], both parsed fields are
    trimmed. *)
Theorem parsed_fields_are_trimmed (response diagnosis meds : string) :
  contains "Diagnosis" response = true ->
  parse_report response = Ok (diagnosis, meds) ->
  strip diagnosis = diagnosis /\ strip meds = meds.
Proof. apply parse_report_trimmed. Qed.

Lemma parsed_fields_are_trimmed_witness :
  contains "Diagnosis" sample_report = true
  /\ parse_report sample_report = Ok (": Flu", ": Tamiflu")
  /\ strip ": Flu" = ": Flu" /\ strip ": Tamiflu" = ": Tamiflu".
Proof.
  split; [reflexivity|]. split; [reflexivity|].
  exact (parsed_fields_are_trimmed sample_report ": Flu" ": Tamiflu" eq_refl eq_refl).
Defined.

(** X10. Report mode is chosen by the phrase wherever it stands: a query
    that selects report mode still does with any text before and after. *)
Theorem report_phrase_anywhere (a query b : string) :
  is_report_query query = true -> is_report_query (a +:+ query +:+ b) = true.
Proof. apply report_query_inside. Qed.

Lemma report_phrase_anywhere_witness :
  is_report_query "Generate Report" = true
  /\ is_report_query ("Please " +:+ "Generate Report" +:+ " now") = true.
Proof.
  split; [reflexivity|].
  exact (report_phrase_anywhere "Please " "Generate Report" " now" eq_refl).
Defined.

(** ** chatbot_app.py: process_query *)

(** X11. The type of a response follows the test of the query: a report
    response comes only from a report query, a chat response only from
    another query. *)
Theorem response_type_by_mode {vec : Type} (E : Externals vec) (query name : string)
    (w w' : world vec) (r : response) :
  process_query E query name w = (Ok r, w') ->
  match r with
  | ErrorResponse _ _ => True
  | ReportResponse _ _ _ => is_report_query query = true
  | ChatResponse _ _ => is_report_query query = false
  end.
Proof. apply response_type_follows_test. Qed.

Lemma response_type_by_mode_witness :
  process_query sample_externals "What was said?" "a_b" world_with_index
  = (Ok (ChatResponse sample_report ["old text"]), world_after_query)
  /\ is_report_query "What was said?" = false.
Proof.
  split; [reflexivity|].
  exact (response_type_by_mode sample_externals "What was said?" "a_b" world_with_index
           world_after_query (ChatResponse sample_report ["old text"]) eq_refl).
Defined.

(** X12. When the loader returns a handle, the language model is called
    exactly once, with the messages of the mode of the query, whatever
    happens afterwards. *)
Theorem model_called_once {vec : Type} (E : Externals vec) (query name : string)
    (h : vectorstore vec) (w w1 : world vec) :
  load_vectorstore name w = (Ok (Some h), w1) ->
  llm_log (snd (process_query E query name w))
  = llm_log w ++ [query_messages E h query].
Proof. apply query_calls_model_once. Qed.

Lemma model_called_once_witness :
  load_vectorstore "a_b" world_with_index
  = (Ok (Some (Build_vectorstore ["old text"] [8%nat])),
     snd (load_vectorstore "a_b" world_with_index))
  /\ llm_log (snd (process_query sample_externals "generate report" "a_b" world_with_index))
     = llm_log world_with_index
       ++ [query_messages sample_externals (Build_vectorstore ["old text"] [8%nat])
             "generate report"].
Proof.
  split; [reflexivity|].
  exact (model_called_once sample_externals "generate report" "a_b"
           (Build_vectorstore ["old text"] [8%nat]) world_with_index
           (snd (load_vectorstore "a_b" world_with_index)) eq_refl).
Defined.

(** X13. When the language model fails, the query raises in either mode,
    and the file tree is as before: no report is written. *)
Theorem model_failure_raises {vec : Type} (E : Externals vec) (query name : string)
    (h : vectorstore vec) (w w1 : world vec) :
  load_vectorstore name w = (Ok (Some h), w1) ->
  llm E (query_messages E h query) = None ->
  fst (process_query E query name w) = Raise UpstreamError
  /\ fs (snd (process_query E query name w)) = fs w.
Proof. apply query_model_failure. Qed.

Lemma model_failure_raises_witness :
  load_vectorstore "a_b" world_with_index
  = (Ok (Some (Build_vectorstore ["old text"] [8%nat])),
     snd (load_vectorstore "a_b" world_with_index))
  /\ llm externals_without_model
       (query_messages externals_without_model (Build_vectorstore ["old text"] [8%nat])
          "generate report") = None
  /\ fst (process_query externals_without_model "generate report" "a_b" world_with_index)
     = Raise UpstreamError
  /\ fs (snd (process_query externals_without_model "generate report" "a_b"
                world_with_index))
     = fs world_with_index.
Proof.
  split; [reflexivity|]. split; [reflexivity|].
  exact (model_failure_raises externals_without_model "generate report" "a_b"
           (Build_vectorstore ["old text"] [8%nat]) world_with_index
           (snd (load_vectorstore "a_b" world_with_index)) eq_refl eq_refl).
Defined.

(** X14. A question in chat mode writes nothing to the file tree, whatever
    its outcome. *)
Theorem chat_mode_keeps_tree {vec : Type} (E : Externals vec) (query name : string)
    (w : world vec) :
  is_report_query query = false ->
  fs (snd (process_query E query name w)) = fs w.
Proof. apply chat_keeps_tree. Qed.

Lemma chat_mode_keeps_tree_witness :
  is_report_query "What was said?" = false
  /\ fs (snd (process_query sample_externals "What was said?" "a_b" world_with_index))
     = fs world_with_index.
Proof.
  split; [reflexivity|].
  exact (chat_mode_keeps_tree sample_externals "What was said?" "a_b" world_with_index
           eq_refl).
Defined.

(** X15. A report response that is returned names the one report file,
    carries the documents retrieved with the fixed report query, and the
    report file was written from the fields parsed from the answer of the
    model. *)
Theorem report_is_written {vec : Type} (E : Externals vec)
    (query name answer pdf_path : string) (srcs : list string)
    (h : vectorstore vec) (w w1 w' : world vec) :
  load_vectorstore name w = (Ok (Some h), w1) ->
  process_query E query name w = (Ok (ReportResponse answer pdf_path srcs), w') ->
  pdf_path = "rag_chatbot/patient_report.pdf"
  /\ srcs = get_relevant_documents E h report_retrieval_query
  /\ exists response diagnosis meds,
      llm E (query_messages E h query) = Some response
      /\ parse_report response = Ok (diagnosis, meds)
      /\ fs w' !! report_pdf = Some (File (PdfFile "Patient Report" diagnosis meds)).
Proof. apply report_written. Qed.

Lemma report_is_written_witness :
  load_vectorstore "a_b" world_with_index
  = (Ok (Some (Build_vectorstore ["old text"] [8%nat])),
     snd (load_vectorstore "a_b" world_with_index))
  /\ process_query sample_externals "generate report" "a_b" world_with_index
     = (Ok (ReportResponse report_message "rag_chatbot/patient_report.pdf" ["old text"]),
        snd (process_query sample_externals "generate report" "a_b" world_with_index))
  /\ exists response diagnosis meds,
       llm sample_externals
         (query_messages sample_externals (Build_vectorstore ["old text"] [8%nat])
            "generate report") = Some response
       /\ parse_report response = Ok (diagnosis, meds)
       /\ fs (snd (process_query sample_externals "generate report" "a_b"
                     world_with_index)) !! report_pdf
          = Some (File (PdfFile "Patient Report" diagnosis meds)).
Proof.
  assert (H1 : load_vectorstore "a_b" world_with_index
               = (Ok (Some (Build_vectorstore ["old text"] [8%nat])),
                  snd (load_vectorstore "a_b" world_with_index)))
    by (vm_compute; reflexivity).
  assert (H2 : process_query sample_externals "generate report" "a_b" world_with_index
               = (Ok (ReportResponse report_message "rag_chatbot/patient_report.pdf"
                        ["old text"]),
                  snd (process_query sample_externals "generate report" "a_b"
                         world_with_index)))
    by (vm_compute; reflexivity).
  split; [exact H1|]. split; [exact H2|].
  exact (proj2 (proj2 (report_is_written sample_externals "generate report" "a_b"
                         report_message "rag_chatbot/patient_report.pdf" ["old text"]
                         (Build_vectorstore ["old text"] [8%nat]) world_with_index
                         (snd (load_vectorstore "a_b" world_with_index))
                         (snd (process_query sample_externals "generate report" "a_b"
                                 world_with_index))
                         H1 H2))).
Defined.

(** ** chatbot_app.py: generate_pdf *)

(** X16. For a relative file name without a [..] component: when
    [generate_pdf] returns, it returns the path of the file of that name
    under [rag_chatbot], that file holds the report of its arguments, and
    apart from it and the output directory the tree, the memo table and the
    log of model calls are as before. *)
Theorem generate_pdf_writes_report {vec : Type}
    (title diagnosis medications filename path : string) (w w' : world vec) :
  startswith filename "/" = false ->
  (".." ∉ Path filename) ->
  generate_pdf title diagnosis medications filename w = (Ok path, w') ->
  path = path_str (Path "rag_chatbot" ++ Path filename)
  /\ fs w' !! (Path "rag_chatbot" ++ Path filename)
     = Some (File (PdfFile title diagnosis medications))
  /\ llm_log w' = llm_log w /\ cache w' = cache w
  /\ forall q, q <> Path "rag_chatbot" ++ Path filename -> q <> Path "rag_chatbot" ->
       fs w' !! q = fs w !! q.
Proof.
  intros Hrel _ H. apply generate_pdf_ok in H.
  now rewrite (joinpath_relative _ _ Hrel) in H.
Qed.

Lemma generate_pdf_writes_report_witness :
  startswith "reports/flu.pdf" "/" = false
  /\ (".." ∉ Path "reports/flu.pdf")
  /\ generate_pdf "Patient Report" ": Flu" ": Tamiflu" "reports/flu.pdf"
       (set_fs {[ ["rag_chatbot"; "reports"] := Dir ]} empty_world)
     = (Ok "rag_chatbot/reports/flu.pdf",
        snd (generate_pdf "Patient Report" ": Flu" ": Tamiflu" "reports/flu.pdf"
               (set_fs {[ ["rag_chatbot"; "reports"] := Dir ]} empty_world)))
  /\ "rag_chatbot/reports/flu.pdf"
     = path_str (Path "rag_chatbot" ++ Path "reports/flu.pdf").
Proof.
  assert (H1 : ".." ∉ Path "reports/flu.pdf").
  { change (Path "reports/flu.pdf") with ["reports"; "flu.pdf"].
    intros H. apply elem_of_cons in H as [H | H]; [discriminate H|].
    apply list_elem_of_singleton in H. discriminate H. }
  assert (H2 : generate_pdf "Patient Report" ": Flu" ": Tamiflu" "reports/flu.pdf"
                 (set_fs {[ ["rag_chatbot"; "reports"] := Dir ]} empty_world)
               = (Ok "rag_chatbot/reports/flu.pdf",
                  snd (generate_pdf "Patient Report" ": Flu" ": Tamiflu" "reports/flu.pdf"
                         (set_fs {[ ["rag_chatbot"; "reports"] := Dir ]} empty_world))))
    by (vm_compute; reflexivity).
  split; [reflexivity|]. split; [exact H1|]. split; [exact H2|].
  exact (proj1 (generate_pdf_writes_report "Patient Report" ": Flu" ": Tamiflu"
                  "reports/flu.pdf" "rag_chatbot/reports/flu.pdf"
                  (set_fs {[ ["rag_chatbot"; "reports"] := Dir ]} empty_world)
                  (snd (generate_pdf "Patient Report" ": Flu" ": Tamiflu"
                          "reports/flu.pdf"
                          (set_fs {[ ["rag_chatbot"; "reports"] := Dir ]} empty_world)))
                  eq_refl H1 H2)).
Defined.

(** ** chatbot_app.py: load_vectorstore *)

(** X17. The loader is memoised: what a call returned is what every call
    returns while the memo table keeps the entry, whatever the file tree
    holds by then, and such a call changes nothing. *)
Theorem load_is_memoised {vec : Type} (name : string) (r : option (vectorstore vec))
    (w w1 w2 : world vec) :
  load_vectorstore name w = (Ok r, w1) ->
  cache w2 !! name = cache w1 !! name ->
  load_vectorstore name w2 = (Ok r, w2).
Proof. apply load_memoised_result. Qed.

Lemma load_is_memoised_witness :
  load_vectorstore "a_b" world_with_index
  = (Ok (Some (Build_vectorstore ["old text"] [8%nat])),
     snd (load_vectorstore "a_b" world_with_index))
  /\ cache (set_fs ∅ world_after_query) !! "a_b"
     = cache (snd (load_vectorstore "a_b" world_with_index)) !! "a_b"
  /\ load_vectorstore "a_b" (set_fs ∅ world_after_query)
     = (Ok (Some (Build_vectorstore ["old text"] [8%nat])), set_fs ∅ world_after_query).
Proof.
  assert (H1 : load_vectorstore "a_b" world_with_index
               = (Ok (Some (Build_vectorstore ["old text"] [8%nat])),
                  snd (load_vectorstore "a_b" world_with_index)))
    by (vm_compute; reflexivity).
  assert (H2 : cache (set_fs ∅ world_after_query) !! "a_b"
               = cache (snd (load_vectorstore "a_b" world_with_index)) !! "a_b")
    by (vm_compute; reflexivity).
  split; [exact H1|]. split; [exact H2|].
  exact (load_is_memoised "a_b" (Some (Build_vectorstore ["old text"] [8%nat]))
           world_with_index (snd (load_vectorstore "a_b" world_with_index))
           (set_fs ∅ world_after_query) H1 H2).
Defined.

(** X18. A call of the loader that raises memoises nothing and changes
    nothing: the next call reads the tree again. *)
Theorem failed_load_is_not_memoised {vec : Type} (name : string) (e : exn)
    (w w1 : world vec) :
  load_vectorstore name w = (Raise e, w1) -> w1 = w.
Proof. apply load_failure_not_memoised. Qed.

Lemma failed_load_is_not_memoised_witness :
  load_vectorstore "x" world_with_bare_directory
  = (Raise FileNotFoundError, snd (load_vectorstore "x" world_with_bare_directory))
  /\ snd (load_vectorstore "x" world_with_bare_directory) = world_with_bare_directory.
Proof.
  split; [reflexivity|].
  exact (failed_load_is_not_memoised "x" FileNotFoundError world_with_bare_directory
           (snd (load_vectorstore "x" world_with_bare_directory)) eq_refl).
Defined.

(** ** embed_and_store.py: store_in_faiss *)

(** X19. Whenever [store_in_faiss] returns, on a first build as on a
    rebuild and whatever the tree held, the index directory loads as the
    new chunks with their vectors, and the meta file beside it holds the
    listing of the chunks. *)
Theorem stored_index_loads {vec : Type} (E : Externals vec) (chunks : list string)
    (index_dir : string) (w w' : world vec) :
  store_in_faiss E chunks index_dir w = (Ok tt, w') ->
  exists vectors,
    embed_documents E chunks = Some vectors
    /\ FAISS_load_local index_dir w' = (Ok (Build_vectorstore chunks vectors), w')
    /\ fs w' !! (parent (Path index_dir) ++ [name (Path index_dir) +:+ "_meta.txt"])%list
       = Some (File (TextFile (meta_text chunks))).
Proof. apply store_then_load. Qed.

Lemma stored_index_loads_witness :
  store_in_faiss sample_externals ["new text"] "faiss_store/a_b" empty_world
  = (Ok tt, snd (store_in_faiss sample_externals ["new text"] "faiss_store/a_b" empty_world))
  /\ exists vectors,
       embed_documents sample_externals ["new text"] = Some vectors
       /\ FAISS_load_local "faiss_store/a_b"
            (snd (store_in_faiss sample_externals ["new text"] "faiss_store/a_b"
                    empty_world))
          = (Ok (Build_vectorstore ["new text"] vectors),
             snd (store_in_faiss sample_externals ["new text"] "faiss_store/a_b"
                    empty_world))
       /\ fs (snd (store_in_faiss sample_externals ["new text"] "faiss_store/a_b"
                     empty_world))
            !! (parent (Path "faiss_store/a_b")
                ++ [name (Path "faiss_store/a_b") +:+ "_meta.txt"])%list
          = Some (File (TextFile (meta_text ["new text"]))).
Proof.
  assert (H : store_in_faiss sample_externals ["new text"] "faiss_store/a_b" empty_world
              = (Ok tt, snd (store_in_faiss sample_externals ["new text"]
                               "faiss_store/a_b" empty_world)))
    by (vm_compute; reflexivity).
  split; [exact H|].
  exact (stored_index_loads sample_externals ["new text"] "faiss_store/a_b" empty_world
           (snd (store_in_faiss sample_externals ["new text"] "faiss_store/a_b"
                   empty_world)) H).
Defined.

(** X20. A rebuild whose embedding call fails raises after the old index
    was removed: nothing is left at the index directory or below it. *)
Theorem rebuild_with_failed_embedding {vec : Type} (E : Externals vec)
    (chunks : list string) (index_dir : string) (w : world vec) :
  fs w !! Path index_dir = Some Dir ->
  embed_documents E chunks = None ->
  (exists e, fst (store_in_faiss E chunks index_dir w) = Raise e)
  /\ subtree (fs (snd (store_in_faiss E chunks index_dir w))) (Path index_dir) = ∅.
Proof. apply rebuild_embedding_fails. Qed.

Lemma rebuild_with_failed_embedding_witness :
  fs world_with_index !! Path "faiss_store/a_b" = Some Dir
  /\ embed_documents externals_without_embedding ["new text"] = None
  /\ subtree (fs (snd (store_in_faiss externals_without_embedding ["new text"]
                         "faiss_store/a_b" world_with_index)))
             (Path "faiss_store/a_b") = ∅.
Proof.
  split; [reflexivity|]. split; [reflexivity|].
  exact (proj2 (rebuild_with_failed_embedding externals_without_embedding ["new text"]
                  "faiss_store/a_b" world_with_index eq_refl eq_refl)).
Defined.

(** X21. [store_in_faiss] works on the file tree only: the memo table of
    the loader, the log of model calls and the two session fields are as
    before, in every outcome. *)
Theorem store_touches_only_the_tree {vec : Type} (E : Externals vec)
    (chunks : list string) (index_dir : string) (w : world vec) :
  cache (snd (store_in_faiss E chunks index_dir w)) = cache w
  /\ llm_log (snd (store_in_faiss E chunks index_dir w)) = llm_log w
  /\ current_index (snd (store_in_faiss E chunks index_dir w)) = current_index w
  /\ index_loaded (snd (store_in_faiss E chunks index_dir w)) = index_loaded w.
Proof.
  repeat split.
  - now apply (off_tree_store_in_faiss E cache).
  - now apply (off_tree_store_in_faiss E llm_log).
  - now apply (off_tree_store_in_faiss E current_index).
  - now apply (off_tree_store_in_faiss E index_loaded).
Qed.

(** ** chatbot_app.py: process_uploaded_file *)

(** X22. An exception of [store_in_faiss], from the embedding call or from
    a file operation, is caught by the handler: it returns [False], and the
    world is the one the failed call left, with nothing rolled back. *)
Theorem upload_catches_store_failure {vec : Type} (E : Externals vec)
    (file_name file_bytes : string) (e : exn) (w w1 : world vec) :
  transcribe_audio E file_bytes <> "" ->
  store_in_faiss E
    (split_text_into_chunks (tokenizer E) (transcribe_audio E file_bytes) 300)
    ("faiss_store/" +:+ index_name_of file_name) w = (Raise e, w1) ->
  process_uploaded_file E file_name file_bytes w = (Ok false, w1).
Proof. apply store_failure_is_caught. Qed.

Lemma upload_catches_store_failure_witness :
  transcribe_audio externals_without_embedding "new text" <> ""
  /\ store_in_faiss externals_without_embedding
       (split_text_into_chunks (tokenizer externals_without_embedding)
          (transcribe_audio externals_without_embedding "new text") 300)
       ("faiss_store/" +:+ index_name_of "a b.mp3") world_after_query
     = (Raise EmbeddingError, world_after_failed_upload)
  /\ process_uploaded_file externals_without_embedding "a b.mp3" "new text"
       world_after_query
     = (Ok false, world_after_failed_upload).
Proof.
  assert (H : store_in_faiss externals_without_embedding
                (split_text_into_chunks (tokenizer externals_without_embedding)
                   (transcribe_audio externals_without_embedding "new text") 300)
                ("faiss_store/" +:+ index_name_of "a b.mp3") world_after_query
              = (Raise EmbeddingError, world_after_failed_upload))
    by (vm_compute; reflexivity).
  split; [discriminate|]. split; [exact H|].
  apply (upload_catches_store_failure externals_without_embedding "a b.mp3" "new text"
           EmbeddingError world_after_query world_after_failed_upload);
    [discriminate | exact H].
Defined.

(** X23. An upload that returns [True] has selected its index in the
    session, and the index directory of that name loads as the chunks of
    the transcript. *)
Theorem successful_upload_selects_index {vec : Type} (E : Externals vec)
    (file_name file_bytes : string) (w w' : world vec) :
  process_uploaded_file E file_name file_bytes w = (Ok true, w') ->
  current_index w' = index_name_of file_name
  /\ index_loaded w' = true
  /\ exists vectors,
       FAISS_load_local ("faiss_store/" +:+ index_name_of file_name) w'
       = (Ok (Build_vectorstore
                (split_text_into_chunks (tokenizer E) (transcribe_audio E file_bytes) 300)
                vectors), w').
Proof. apply upload_selects_index. Qed.

Lemma successful_upload_selects_index_witness :
  process_uploaded_file sample_externals "a b.mp3" "old text" empty_world
  = (Ok true, world_with_index)
  /\ current_index world_with_index = index_name_of "a b.mp3"
  /\ index_loaded world_with_index = true
  /\ exists vectors,
       FAISS_load_local ("faiss_store/" +:+ index_name_of "a b.mp3") world_with_index
       = (Ok (Build_vectorstore
                (split_text_into_chunks (tokenizer sample_externals)
                   (transcribe_audio sample_externals "old text") 300)
                vectors), world_with_index).
Proof.
  assert (H : process_uploaded_file sample_externals "a b.mp3" "old text" empty_world
              = (Ok true, world_with_index))
    by (vm_compute; reflexivity).
  split; [exact H|].
  exact (successful_upload_selects_index sample_externals "a b.mp3" "old text"
           empty_world world_with_index H).
Defined.

(** X24. An upload that returns [False] leaves the selection of the
    session as it was. *)
Theorem failed_upload_keeps_session {vec : Type} (E : Externals vec)
    (file_name file_bytes : string) (w w' : world vec) :
  process_uploaded_file E file_name file_bytes w = (Ok false, w') ->
  current_index w' = current_index w /\ index_loaded w' = index_loaded w.
Proof. apply failed_upload_keeps_selection. Qed.

Lemma failed_upload_keeps_session_witness :
  process_uploaded_file externals_without_embedding "c.mp3" "new text" world_with_index
  = (Ok false,
     snd (process_uploaded_file externals_without_embedding "c.mp3" "new text"
            world_with_index))
  /\ current_index
       (snd (process_uploaded_file externals_without_embedding "c.mp3" "new text"
               world_with_index))
     = current_index world_with_index
  /\ index_loaded
       (snd (process_uploaded_file externals_without_embedding "c.mp3" "new text"
               world_with_index))
     = index_loaded world_with_index.
Proof.
  split; [reflexivity|].
  exact (failed_upload_keeps_session externals_without_embedding "c.mp3" "new text"
           world_with_index
           (snd (process_uploaded_file externals_without_embedding "c.mp3" "new text"
                   world_with_index))
           eq_refl).
Defined.

(** X25. A second upload of a file, when the embedding call fails: the
    handler returns [False], the index of the first upload is gone from the
    disk, and the session still selects it as loaded. *)
Theorem failed_reupload_loses_index {vec : Type} (E : Externals vec)
    (file_name file_bytes : string) (w : world vec) :
  transcribe_audio E file_bytes <> "" ->
  embed_documents E
    (split_text_into_chunks (tokenizer E) (transcribe_audio E file_bytes) 300) = None ->
  fs w !! Path ("faiss_store/" +:+ index_name_of file_name) = Some Dir ->
  exists w',
    process_uploaded_file E file_name file_bytes w = (Ok false, w')
    /\ subtree (fs w') (Path ("faiss_store/" +:+ index_name_of file_name)) = ∅
    /\ current_index w' = current_index w
    /\ index_loaded w' = index_loaded w.
Proof. apply failed_upload_loses_index. Qed.

Lemma failed_reupload_loses_index_witness :
  transcribe_audio externals_without_embedding "new text" <> ""
  /\ embed_documents externals_without_embedding
       (split_text_into_chunks (tokenizer externals_without_embedding)
          (transcribe_audio externals_without_embedding "new text") 300) = None
  /\ fs world_with_index !! Path ("faiss_store/" +:+ index_name_of "a b.mp3") = Some Dir
  /\ exists w',
       process_uploaded_file externals_without_embedding "a b.mp3" "new text"
         world_with_index = (Ok false, w')
       /\ subtree (fs w') (Path ("faiss_store/" +:+ index_name_of "a b.mp3")) = ∅
       /\ current_index w' = "a_b"
       /\ index_loaded w' = true.
Proof.
  split; [discriminate|]. split; [reflexivity|]. split; [reflexivity|].
  apply (failed_reupload_loses_index externals_without_embedding "a b.mp3" "new text"
           world_with_index); [discriminate | reflexivity | reflexivity].
Defined.

(** X26. The index name of an upload holds no space. *)
Theorem index_name_has_no_space (file_name : string) :
  contains " " (index_name_of file_name) = false.
Proof. apply index_name_no_space. Qed.

(** X27. The index name does not tell a space from an underscore: a file
    name and the same name with its spaces written as underscores get one
    index name, hence one index directory. *)
Theorem index_names_collide (file_name : string) :
  index_name_of (replace file_name " " "_") = index_name_of file_name.
Proof. apply index_name_collision. Qed.

(** ** Upload, then ask *)

(** X28. After an upload that returns [True], in a process whose memo
    table has no entry for the index name, the sources of every answer to a
    question against the selected index are retrieved from the chunks of
    the uploaded transcript. *)
Theorem first_question_uses_upload {vec : Type} (E : Externals vec)
    (file_name file_bytes query : string) (w w1 w2 : world vec) (r : response) :
  cache w !! index_name_of file_name = None ->
  process_uploaded_file E file_name file_bytes w = (Ok true, w1) ->
  process_query E query (current_index w1) w1 = (Ok r, w2) ->
  exists vectors,
    sources r
    = get_relevant_documents E
        (Build_vectorstore
           (split_text_into_chunks (tokenizer E) (transcribe_audio E file_bytes) 300)
           vectors)
        (if is_report_query query then report_retrieval_query else query).
Proof. apply first_question_after_upload. Qed.

Lemma first_question_uses_upload_witness :
  cache empty_world !! index_name_of "a b.mp3" = None
  /\ process_uploaded_file sample_externals "a b.mp3" "old text" empty_world
     = (Ok true, world_with_index)
  /\ process_query sample_externals "What was said?" (current_index world_with_index)
       world_with_index
     = (Ok (ChatResponse sample_report ["old text"]), world_after_query)
  /\ exists vectors,
       sources (ChatResponse sample_report ["old text"])
       = get_relevant_documents sample_externals
           (Build_vectorstore
              (split_text_into_chunks (tokenizer sample_externals)
                 (transcribe_audio sample_externals "old text") 300)
              vectors)
           (if is_report_query "What was said?" then report_retrieval_query
            else "What was said?").
Proof.
  assert (H0 : cache empty_world !! index_name_of "a b.mp3" = None)
    by (vm_compute; reflexivity).
  assert (H1 : process_uploaded_file sample_externals "a b.mp3" "old text" empty_world
               = (Ok true, world_with_index))
    by (vm_compute; reflexivity).
  assert (H2 : process_query sample_externals "What was said?"
                 (current_index world_with_index) world_with_index
               = (Ok (ChatResponse sample_report ["old text"]), world_after_query))
    by (vm_compute; reflexivity).
  split; [exact H0|]. split; [exact H1|]. split; [exact H2|].
  exact (first_question_uses_upload sample_externals "a b.mp3" "old text"
           "What was said?" empty_world world_with_index world_after_query
           (ChatResponse sample_report ["old text"]) H0 H1 H2).
Defined.

(** X29. In a process that starts with an empty memo table, as long as no
    index was ever stored under a name, every question against that name,
    after any uploads and questions, gets the no-index answer. *)
Theorem never_indexed_name_gets_no_answer {vec : Type} (E : Externals vec)
    (query name : string) (w : world vec) :
  never_indexed E name w -> index_absent name w ->
  fst (process_query E query name w) = Ok (ErrorResponse no_index_message []).
Proof. apply never_indexed_query. Qed.

Lemma never_indexed_name_gets_no_answer_witness :
  never_indexed sample_externals "zzz"
    (run_event sample_externals (Upload "a b.mp3" "old text") empty_world)
  /\ index_absent "zzz"
       (run_event sample_externals (Upload "a b.mp3" "old text") empty_world)
  /\ fst (process_query sample_externals "What was said?" "zzz"
            (run_event sample_externals (Upload "a b.mp3" "old text") empty_world))
     = Ok (ErrorResponse no_index_message []).
Proof.
  assert (H : never_indexed sample_externals "zzz"
                (run_event sample_externals (Upload "a b.mp3" "old text") empty_world)).
  { apply never_indexed_event; [apply never_indexed_start|]; reflexivity. }
  split; [exact H|]. split; [reflexivity|].
  exact (never_indexed_name_gets_no_answer sample_externals "What was said?" "zzz"
           (run_event sample_externals (Upload "a b.mp3" "old text") empty_world)
           H eq_refl).
Defined.
